(** * Colmena API: the transaction workflows and the [secure] decorator

    A shallow embedding of [cloud/utils] ([secure], [getQueryAuthOptions]) and
    of [cloud/services/TransactionService] (the six workflows of the container
    ledger), followed by the properties that the specification states about
    them.

    JavaScript values are embedded as follows.
    - A Parse object is a record of its attributes; its [objectId] is a [nat]
      chosen by the store, a user is the [string] that identifies it and
      [u.equals(v)] is equality of these identifiers.
    - [null] and [undefined] are the [None] of an [option].
    - An [async] function is a computation of the monad [M]: it reads and
      writes the world and either returns a value or throws.  A rejected promise
      that is awaited is a thrown exception.
    - [Promise.all] runs every computation of the array, in array order, and
      rejects with the first rejection. *)

From Stdlib Require Import ZArith Bool.
From stdpp Require Import gmap strings list fin_maps.

Set Default Proof Using "Type".

(** ** Exceptions *)

(** The messages of the exceptions thrown by the two modules.  The two
    messages built from [error.message] keep the message they wrap. *)
Inductive Message : Type :=
  | UserNeedsToBeAuthenticated
  | TransactionNotFound (id : nat)
  | WasteTypeCannotBeDuplicated (typeId : string)
  | MaxContainerQuantityExceeded (max : Z)
  | NotInTransferRequestStatus (id : nat)
  | TransactionExpiredAt (id : nat) (date : Z)
  | NotAllowedToAcceptReject
  | NotAllowedToCancel
  | CannotTransferWithoutRecipient
  | CannotTransferWithoutDestination
  | CheckContainersStatusTransfer
  | CheckContainersStatusTransport
  | TransactionDetailCouldNotBeSaved (detail : Message)
  | TransactionCouldNotBeRegistered (detail : Message)
  | IsNotAFunction (property : string)
  | CannotReadProperty (property : string)
  | UserNotFound (id : string)
  | ContainerNotFound (id : nat)
  | RecyclingCenterNotFound (id : string)
  | WasteTypeNotFound (typeId : string)
  | TransportNotAllowed (container : nat)
  | ObjectNotFound
  | SaveRefused
  | NotificationFailed.

Inductive ParseErrorCode : Type := INVALID_SESSION_TOKEN.

Inductive Exception : Type :=
  | Error (message : Message)
  | TypeError (message : Message)
  | ParseError (code : ParseErrorCode) (message : Message).

(** [error.message] *)
Definition message (error : Exception) : Message :=
  match error with
  | Error m | TypeError m | ParseError _ m => m
  end.

(** The failures that section 7 of the specification calls validation
    errors: duplicate waste type, quantity over the limit, wrong transaction
    type or state, wrong requester, missing recipient or destination, and a
    container in the wrong status. *)
Definition is_validation (m : Message) : bool :=
  match m with
  | WasteTypeCannotBeDuplicated _ | MaxContainerQuantityExceeded _
  | NotInTransferRequestStatus _ | TransactionExpiredAt _ _
  | NotAllowedToAcceptReject | NotAllowedToCancel
  | CannotTransferWithoutRecipient | CannotTransferWithoutDestination
  | CheckContainersStatusTransfer | CheckContainersStatusTransport => true
  | _ => false
  end.

(** ** Computations *)

Inductive Outcome (A : Type) : Type :=
  | Returned (a : A)
  | Thrown (e : Exception).
Arguments Returned {A} a.
Arguments Thrown {A} e.

Section Computations.
Context {S : Type}.

Definition M (A : Type) : Type := S → Outcome A * S.

Definition ret {A} (a : A) : M A := λ s, (Returned a, s).

Definition bind {A B} (c : M A) (k : A → M B) : M B :=
  λ s, match c s with
       | (Returned a, s') => k a s'
       | (Thrown e, s') => (Thrown e, s')
       end.

Definition throw {A} (e : Exception) : M A := λ s, (Thrown e, s).

(** [try { body } catch (error) { handler }] *)
Definition try_catch {A} (body : M A) (handler : Exception → M A) : M A :=
  λ s, match body s with
       | (Returned a, s') => (Returned a, s')
       | (Thrown e, s') => handler e s'
       end.

Definition gets {A} (f : S → A) : M A := λ s, (Returned (f s), s).
Definition modify (f : S → S) : M unit := λ s, (Returned tt, f s).

(** A synchronous function that may throw, called inside a computation. *)
Definition lift {A} (o : Outcome A) : M A := λ s, (o, s).

(** [Promise.all(ps)]: every promise of the array has been started, so all
    of them run; the result is the array of the values, or the first
    rejection. *)
Fixpoint Promise_all {A} (ps : list (M A)) : M (list A) :=
  match ps with
  | [] => ret []
  | p :: ps' =>
      λ s, let '(r, s1) := p s in
           let '(rs, s2) := Promise_all ps' s1 in
           (match r, rs with
            | Thrown e, _ => Thrown e
            | Returned _, Thrown e => Thrown e
            | Returned a, Returned l => Returned (a :: l)
            end, s2)
  end.

(** [array.map(callback)] for a callback that can throw before it has
    returned its promise: the first exception leaves [map] and the remaining
    elements are not visited. *)
Fixpoint Array_map {A B} (callback : A → M B) (array : list A) : M (list B) :=
  match array with
  | [] => ret []
  | a :: array' =>
      bind (callback a) (λ b,
      bind (Array_map callback array') (λ bs, ret (b :: bs)))
  end.

(** [promise.member(callback)].  A promise has the members [then], [catch]
    and [finally]; [then] runs the callback once the promise is fulfilled.
    Calling any other member is calling [undefined], a [TypeError]; the
    promise has been created by then, so the function that returned it runs,
    and nothing observes how it settles. *)
Definition Promise_call {A} (promise : M unit) (member : string) (callback : M A)
  : M A :=
  if bool_decide (member = "then") then bind promise (λ _, callback)
  else λ s, let '(_, s') := promise s in
            (Thrown (TypeError (IsNotAFunction member)), s').
End Computations.

Arguments M S A : clear implicits.

Notation "'let*' x ':=' c 'in' k" := (bind c (λ x, k))
  (at level 10, x pattern, c at level 100, k at level 200).
Notation "c ;; k" := (bind c (λ _, k))
  (at level 100, k at level 200, right associativity).

(** *** Local variables

    The workflows declare their variables with [let] before the [try] block,
    assign them inside it and read them in the [catch] block.  The body of such
    a function is a computation on the pair of its variables and the world. *)

Section LocalVariables.
Context {L W : Type}.

Definition world {A} (c : M W A) : M (L * W) A :=
  λ '(l, w), let '(r, w') := c w in (r, (l, w')).

Definition assign (f : L → L) : M (L * W) unit :=
  λ '(l, w), (Returned tt, (f l, w)).

Definition read {A} (f : L → A) : M (L * W) A :=
  λ '(l, w), (Returned (f l), (l, w)).

Definition declare {A} (l : L) (body : M (L * W) A) : M W A :=
  λ w, let '(r, (_, w')) := body (l, w) in (r, w').
End LocalVariables.

(** ** cloud/utils *)

Module Utils.

(** [Parse.Cloud.FunctionRequest], as far as [secure] reads it. *)
Record FunctionRequest (P : Type) : Type := {
  master : bool;
  user : option string;
  params : P
}.
Arguments master {P} _.
Arguments user {P} _.
Arguments params {P} _.

(** [Colmena.CloudFunction]: what a cloud function does with a request, in a
    world of type [W]. *)
Definition CloudFunction (W P R : Type) : Type := FunctionRequest P → M W R.

Definition secure {W P R} (callback : CloudFunction W P R) : CloudFunction W P R :=
  λ request,
    let isMaster := master request in
    let user := user request in
    if negb isMaster && negb (bool_decide (is_Some user)) then
      throw (ParseError INVALID_SESSION_TOKEN UserNeedsToBeAuthenticated)
    else callback request.

Definition nullParser (opt : option string) : option string :=
  if bool_decide (opt = Some "null") then None else opt.

(** [Parse.ScopeOptions] *)
Record ScopeOptions : Type := {
  useMasterKey : bool;
  sessionToken : option string
}.

(** [user.getSessionToken()] *)
Definition getSessionToken (user : string) : string := "r:" +:+ user.

Definition getQueryAuthOptions (user : option string) (master : bool) : ScopeOptions :=
  let options := {| useMasterKey := master; sessionToken := None |} in
  match user with
  | Some user =>
      {| useMasterKey := useMasterKey options;
         sessionToken := Some (getSessionToken user) |}
  | None => options
  end.

(** *** [replaceInTemplate]

    A JavaScript string is the list of its UTF-16 code units. *)

(** [\s] of a pattern without the [u] flag: the white space and the line
    terminators of ECMAScript. *)
Definition is_space (c : N) : bool :=
  ((9 <=? c) && (c <=? 13) || (c =? 32) || (c =? 160) || (c =? 5760)
   || (8192 <=? c) && (c <=? 8202) || (c =? 8232) || (c =? 8233)
   || (c =? 8239) || (c =? 8287) || (c =? 12288) || (c =? 65279))%N.

(** [\w]: the letters of ASCII, the digits and the underscore. *)
Definition is_word (c : N) : bool :=
  ((48 <=? c) && (c <=? 57) || (65 <=? c) && (c <=? 90) || (c =? 95)
   || (97 <=? c) && (c <=? 122))%N.

(** The longest prefix of code units of a class, and what follows it. *)
Fixpoint span (p : N → bool) (s : list N) : list N * list N :=
  match s with
  | c :: s' =>
      if p c then let '(prefix, rest) := span p s' in (c :: prefix, rest)
      else ([], s)
  | [] => ([], [])
  end.

(** A match of [/{\s*(\w+?)\s*}/] at the head of [s]: the token that the
    group captures and the length of the match.  White space and word
    characters are disjoint, so the token is the whole run of word characters
    after the white space. *)
Definition match_pattern (s : list N) : option (list N * nat) :=
  match s with
  | 123%N :: s =>
      let '(before, s) := span is_space s in
      let '(token, s) := span is_word s in
      let '(after, s) := span is_space s in
      match token, s with
      | _ :: _, 125%N :: _ =>
          Some (token, S (length before + length token + length after + 1))
      | _, _ => None
      end
  | _ => None
  end.

(** [template.replace(pattern, callback)] for the global pattern: the matches
    are found from left to right and do not overlap; [skip] is the number of
    code units of the last match that are still to pass. *)
Fixpoint replace_pattern (callback : list N → list N) (skip : nat)
  (template : list N) : list N :=
  match template with
  | [] => []
  | c :: rest =>
      match skip with
      | S skip => replace_pattern callback skip rest
      | O =>
          match match_pattern template with
          | Some (token, n) => callback token ++ replace_pattern callback (n - 1) rest
          | None => c :: replace_pattern callback 0 rest
          end
      end
  end.

(** [data] is the object as [data[token]] reads it: the value of the property,
    or [None] for [undefined]; [|| ''] turns [undefined] and the empty string
    into the empty string. *)
Definition replaceInTemplate (template : list N) (data : list N → option (list N))
  : list N :=
  replace_pattern (λ token, default [] (data token)) 0 template.

(** The code units of a string of ASCII characters. *)
Fixpoint code_units (s : string) : list N :=
  match s with
  | EmptyString => []
  | String a s => Ascii.N_of_ascii a :: code_units s
  end.

End Utils.

(** ** cloud/services/TransactionService *)

Module TransactionService.
Import Utils.

(** *** The data model *)

(** Modelled from the spec: [CONTAINER_STATUS] of [../constants], a file that
    is not among the sources, with the statuses of the state machine of
    section 4.2. *)
Inductive CONTAINER_STATUS : Type :=
  RECOVERED | TRANSFER_PENDING | TRANSFERRED | IN_TRANSIT.

(** Modelled from the spec: [TRANSACTIONS_TYPES] of [../constants], with the
    types that the glossary lists. *)
Inductive TRANSACTIONS_TYPES : Type :=
  RECOVER | TRANSFER_REQUEST | TRANSFER_ACCEPT | TRANSFER_REJECT
  | TRANSFER_CANCEL | TRANSPORT.

#[export] Instance CONTAINER_STATUS_eq_dec : EqDecision CONTAINER_STATUS.
Proof. solve_decision. Defined.

#[export] Instance TRANSACTIONS_TYPES_eq_dec : EqDecision TRANSACTIONS_TYPES.
Proof. solve_decision. Defined.

(** The Parse classes of [../classes], as records of the attributes that the
    module reads and writes. *)
Record WasteType : Type := {
  wasteTypeId : string;
  wasteTypeQty : Z;
  wasteTypeUnit : string
}.

Record Container : Type := {
  containerId : nat;
  containerType : WasteType;
  status : CONTAINER_STATUS;
  createdBy : string;
  batchNumber : Z
}.

(** A [TransactionDetail], which is also its own [toJSON()]. *)
Record TransactionDetail : Type := {
  detailTransaction : nat;
  detailQty : Z;
  detailUnit : string;
  detailContainer : nat
}.

Record Transaction : Type := {
  transaction_id : nat;
  transaction_type : option TRANSACTIONS_TYPES;
  transaction_from : option string;
  transaction_to : option string;
  transaction_number : Z;
  transaction_recyclingCenter : option string;
  transaction_reason : option string;
  transaction_relatedTo : option nat;
  transaction_expiredAt : option Z;
  transaction_details : list TransactionDetail
}.

Record Notification : Type := {
  notifiedTransaction : nat;
  notifiedBy : string;
  notifiedUsers : list string
}.

(** The argument of [createTransaction] and of [save]: an object literal
    with some of the keys [from], [to], [type], [recyclingCenter] and
    [reason], a [Parse.User], a string, or [undefined]. *)
Record Attributes : Type := {
  attr_from : option string;
  attr_to : option string;
  attr_type : option TRANSACTIONS_TYPES;
  attr_recyclingCenter : option string;
  attr_reason : option string
}.

Inductive JsValue : Type :=
  | ObjectLiteral (attributes : Attributes)
  | ParseUser (user : string)
  | JsString (s : string)
  | Undefined.

(** [transaction.get('from')] as a JavaScript value *)
Definition pointer (user : option string) : JsValue :=
  match user with
  | Some user => ParseUser user
  | None => Undefined
  end.

Definition no_attributes : Attributes :=
  {| attr_from := None; attr_to := None; attr_type := None;
     attr_recyclingCenter := None; attr_reason := None |}.

(** [const { from = null, to, type, recyclingCenter = null, reason } = value].
    A [Parse.User] keeps its attributes behind [get], and has no property
    named [from], [to], [type], [recyclingCenter] or [reason]; neither has a
    string.  Destructuring [undefined] throws. *)
Definition destructure (value : JsValue) : Outcome Attributes :=
  match value with
  | ObjectLiteral attributes => Returned attributes
  | ParseUser _ | JsString _ => Returned no_attributes
  | Undefined => Thrown (TypeError (CannotReadProperty "from"))
  end.

(** *** The world: the object store and the other collaborators *)

(** Modelled from the spec: the state of the collaborators of section 2, none
    of which is part of the module.  The store keeps the records of each class
    by [objectId]; the stock ledger keeps one counter per user and waste type;
    the grants are the triples of class, [objectId] and user; the notifier
    keeps what it was asked to deliver; every sequence has its last value. *)
Record World : Type := {
  db_Transaction : gmap nat Transaction;
  db_TransactionDetail : list TransactionDetail;
  db_Container : gmap nat Container;
  db_WasteType : gmap string WasteType;
  db_User : gset string;
  db_RecyclingCenter : gset string;
  db_Stock : gmap (string * string) Z;
  grants : gset (string * nat * string);
  notifications : list Notification;
  sequences : gmap string Z
}.

Definition with_db_Transaction (f : gmap nat Transaction → gmap nat Transaction)
  (w : World) : World :=
  {| db_Transaction := f (db_Transaction w);
     db_TransactionDetail := db_TransactionDetail w;
     db_Container := db_Container w; db_WasteType := db_WasteType w;
     db_User := db_User w; db_RecyclingCenter := db_RecyclingCenter w;
     db_Stock := db_Stock w; grants := grants w;
     notifications := notifications w; sequences := sequences w |}.

Definition with_db_TransactionDetail
  (f : list TransactionDetail → list TransactionDetail) (w : World) : World :=
  {| db_Transaction := db_Transaction w;
     db_TransactionDetail := f (db_TransactionDetail w);
     db_Container := db_Container w; db_WasteType := db_WasteType w;
     db_User := db_User w; db_RecyclingCenter := db_RecyclingCenter w;
     db_Stock := db_Stock w; grants := grants w;
     notifications := notifications w; sequences := sequences w |}.

Definition with_db_Container (f : gmap nat Container → gmap nat Container)
  (w : World) : World :=
  {| db_Transaction := db_Transaction w;
     db_TransactionDetail := db_TransactionDetail w;
     db_Container := f (db_Container w); db_WasteType := db_WasteType w;
     db_User := db_User w; db_RecyclingCenter := db_RecyclingCenter w;
     db_Stock := db_Stock w; grants := grants w;
     notifications := notifications w; sequences := sequences w |}.

Definition with_db_Stock (f : gmap (string * string) Z → gmap (string * string) Z)
  (w : World) : World :=
  {| db_Transaction := db_Transaction w;
     db_TransactionDetail := db_TransactionDetail w;
     db_Container := db_Container w; db_WasteType := db_WasteType w;
     db_User := db_User w; db_RecyclingCenter := db_RecyclingCenter w;
     db_Stock := f (db_Stock w); grants := grants w;
     notifications := notifications w; sequences := sequences w |}.

Definition with_grants
  (f : gset (string * nat * string) → gset (string * nat * string))
  (w : World) : World :=
  {| db_Transaction := db_Transaction w;
     db_TransactionDetail := db_TransactionDetail w;
     db_Container := db_Container w; db_WasteType := db_WasteType w;
     db_User := db_User w; db_RecyclingCenter := db_RecyclingCenter w;
     db_Stock := db_Stock w; grants := f (grants w);
     notifications := notifications w; sequences := sequences w |}.

Definition with_notifications (f : list Notification → list Notification)
  (w : World) : World :=
  {| db_Transaction := db_Transaction w;
     db_TransactionDetail := db_TransactionDetail w;
     db_Container := db_Container w; db_WasteType := db_WasteType w;
     db_User := db_User w; db_RecyclingCenter := db_RecyclingCenter w;
     db_Stock := db_Stock w; grants := grants w;
     notifications := f (notifications w); sequences := sequences w |}.

Definition with_sequences (f : gmap string Z → gmap string Z) (w : World) : World :=
  {| db_Transaction := db_Transaction w;
     db_TransactionDetail := db_TransactionDetail w;
     db_Container := db_Container w; db_WasteType := db_WasteType w;
     db_User := db_User w; db_RecyclingCenter := db_RecyclingCenter w;
     db_Stock := db_Stock w; grants := grants w;
     notifications := notifications w; sequences := f (sequences w) |}.

(** What the module is configured with and what its collaborators decide,
    taken as parameters: the constant of [../constants], the clock behind
    [new Date()], which saves the store accepts, which notifications the
    notifier delivers, and the transport authorization. *)
Record Environment : Type := {
  MAX_CONTAINERS_QUANTITY_PER_REQUEST : Z;
  now : Z;
  acceptsTransaction : Transaction → JsValue → bool;
  acceptsDetail : TransactionDetail → bool;
  delivers : Notification → bool;
  canTransport : Container → string → bool
}.

(** The variables that the workflows declare before their [try] block. *)
Record Locals : Type := {
  var_transaction : option Transaction;
  var_currentStock : option (list (string * string * Z));
  var_containers : list Container;
  var_transferRequestTransaction : option Transaction;
  var_recoveredIds : list nat;
  var_transferredIds : list nat
}.

(** [let transaction; let currentStock; let containers = []; ...] *)
Definition declared : Locals :=
  {| var_transaction := None; var_currentStock := None; var_containers := [];
     var_transferRequestTransaction := None; var_recoveredIds := [];
     var_transferredIds := [] |}.

Definition set_var_transaction (transaction : Transaction) (l : Locals) : Locals :=
  {| var_transaction := Some transaction;
     var_currentStock := var_currentStock l;
     var_containers := var_containers l;
     var_transferRequestTransaction := var_transferRequestTransaction l;
     var_recoveredIds := var_recoveredIds l;
     var_transferredIds := var_transferredIds l |}.

Definition set_var_currentStock (currentStock : list (string * string * Z))
  (l : Locals) : Locals :=
  {| var_transaction := var_transaction l;
     var_currentStock := Some currentStock;
     var_containers := var_containers l;
     var_transferRequestTransaction := var_transferRequestTransaction l;
     var_recoveredIds := var_recoveredIds l;
     var_transferredIds := var_transferredIds l |}.

Definition set_var_containers (containers : list Container) (l : Locals) : Locals :=
  {| var_transaction := var_transaction l;
     var_currentStock := var_currentStock l;
     var_containers := containers;
     var_transferRequestTransaction := var_transferRequestTransaction l;
     var_recoveredIds := var_recoveredIds l;
     var_transferredIds := var_transferredIds l |}.

Definition set_var_transferRequestTransaction (transaction : Transaction)
  (l : Locals) : Locals :=
  {| var_transaction := var_transaction l;
     var_currentStock := var_currentStock l;
     var_containers := var_containers l;
     var_transferRequestTransaction := Some transaction;
     var_recoveredIds := var_recoveredIds l;
     var_transferredIds := var_transferredIds l |}.

Definition set_var_ids (recoveredIds transferredIds : list nat) (l : Locals) : Locals :=
  {| var_transaction := var_transaction l;
     var_currentStock := var_currentStock l;
     var_containers := var_containers l;
     var_transferRequestTransaction := var_transferRequestTransaction l;
     var_recoveredIds := recoveredIds;
     var_transferredIds := transferredIds |}.

(** *** Attributes of the Parse objects *)

Definition set_status (s : CONTAINER_STATUS) (c : Container) : Container :=
  {| containerId := containerId c; containerType := containerType c;
     status := s; createdBy := createdBy c; batchNumber := batchNumber c |}.

Definition set_relatedTo (request : option nat) (t : Transaction) : Transaction :=
  {| transaction_id := transaction_id t;
     transaction_type := transaction_type t;
     transaction_from := transaction_from t;
     transaction_to := transaction_to t;
     transaction_number := transaction_number t;
     transaction_recyclingCenter := transaction_recyclingCenter t;
     transaction_reason := transaction_reason t;
     transaction_relatedTo := request;
     transaction_expiredAt := transaction_expiredAt t;
     transaction_details := transaction_details t |}.

Definition set_expiredAt (date : option Z) (t : Transaction) : Transaction :=
  {| transaction_id := transaction_id t;
     transaction_type := transaction_type t;
     transaction_from := transaction_from t;
     transaction_to := transaction_to t;
     transaction_number := transaction_number t;
     transaction_recyclingCenter := transaction_recyclingCenter t;
     transaction_reason := transaction_reason t;
     transaction_relatedTo := transaction_relatedTo t;
     transaction_expiredAt := date;
     transaction_details := transaction_details t |}.

(** [transaction.set('details', details.map((d) => d.toJSON()))], the last
    statement before [return transaction]: the details are attached to the
    value that is returned (section 3 of the specification: populated only in
    the in-memory return value). *)
Definition set_details (ds : list TransactionDetail) (t : Transaction) : Transaction :=
  {| transaction_id := transaction_id t;
     transaction_type := transaction_type t;
     transaction_from := transaction_from t;
     transaction_to := transaction_to t;
     transaction_number := transaction_number t;
     transaction_recyclingCenter := transaction_recyclingCenter t;
     transaction_reason := transaction_reason t;
     transaction_relatedTo := transaction_relatedTo t;
     transaction_expiredAt := transaction_expiredAt t;
     transaction_details := ds |}.

(** [!value] for a user id that may be missing: [undefined], [null] and the
    empty string are falsy. *)
Definition falsy (value : option string) : bool :=
  match value with
  | None => true
  | Some s => bool_decide (s = "")
  end.

Section Workflows.
Variable env : Environment.

(** *** The object store

    The persistence layer is the Parse SDK, which is not among the sources.
    [object.set(key, value)] on a stored object changes the attribute of the
    object and of its record, so that a later query observes it (the workflows
    flip a status or set [expiredAt] with [set] alone); [object.save()] writes
    the object over its record; saving a new object gives it an [objectId]
    that no record of its class has; [object.destroy()] deletes the record.
    The saves and the destroys of the compensation blocks carry the master key
    and are accepted. *)

(** Modelled from the spec: [transaction.save(null, { sessionToken })] for a
    new [Transaction] (Ledger Store, section 6). *)
Definition Transaction_save_new (transaction : nat → Transaction)
  (sessionToken : JsValue) : M World Transaction :=
  let* objectId := gets (λ w, fresh (dom (db_Transaction w))) in
  let transaction := transaction objectId in
  if acceptsTransaction env transaction sessionToken then
    modify (with_db_Transaction <[objectId := transaction]>) ;;
    ret transaction
  else throw (Error SaveRefused).

(** Modelled from the spec: [transaction.set(key, value)] for the keys
    [relatedTo] and [expiredAt], and [transaction.unset('expiredAt')]. *)
Definition Transaction_set (transaction : Transaction)
  (update : Transaction → Transaction) : M World Transaction :=
  modify (with_db_Transaction (alter update (transaction_id transaction))) ;;
  ret (update transaction).

(** Modelled from the spec: [transaction.save(null, { useMasterKey: true })]
    for a stored [Transaction]. *)
Definition Transaction_save (transaction : Transaction) : M World unit :=
  modify (with_db_Transaction
            (alter (λ _, transaction) (transaction_id transaction))).

(** Modelled from the spec: [transaction.destroy({ useMasterKey: true })]. *)
Definition Transaction_destroy (transaction : Transaction) : M World unit :=
  modify (with_db_Transaction (delete (transaction_id transaction))).

(** Modelled from the spec: [new Parse.Query('Transaction').get(id,
    authOptions)]. *)
Definition Query_get_Transaction (id : nat) (authOptions : ScopeOptions)
  : M World Transaction :=
  let* found := gets (λ w, db_Transaction w !! id) in
  match found with
  | Some transaction => ret transaction
  | None => throw (Error ObjectNotFound)
  end.

(** Modelled from the spec: [container.set('status', status)] (Container
    Registry, section 6). *)
Definition Container_set_status (container : Container) (s : CONTAINER_STATUS)
  : M World Container :=
  modify (with_db_Container (alter (set_status s) (containerId container))) ;;
  ret (set_status s container).

(** Modelled from the spec: [container.save(null, { useMasterKey: true })]. *)
Definition Container_save (container : Container) : M World unit :=
  modify (with_db_Container (alter (λ _, container) (containerId container))).

(** Modelled from the spec: [transactionDetail.save(null, authOptions)] for a
    new [TransactionDetail]. *)
Definition TransactionDetail_save (transactionDetail : TransactionDetail)
  (authOptions : ScopeOptions) : M World unit :=
  if acceptsDetail env transactionDetail then
    modify (with_db_TransactionDetail (λ rows, rows ++ [transactionDetail]))
  else throw (Error SaveRefused).

(** *** The other services

    [../utils/db] and the services that the module requires are not among the
    sources; each is modelled from its interface in section 6 of the
    specification. *)

(** Modelled from the spec: [getValueForNextSequence(name)] of [../utils/db],
    the next value of the named sequence, monotonic. *)
Definition getValueForNextSequence (name : string) : M World Z :=
  let* current := gets (λ w, default 0%Z (sequences w !! name)) in
  let next := (current + 1)%Z in
  modify (with_sequences <[name := next]>) ;;
  ret next.

(** Modelled from the spec: [WasteTypeService.getWasteTypesFromIds(ids)],
    the map from each id to its waste type; an id without a waste type is a
    failure. *)
Definition getWasteTypesFromIds (ids : list string) : M World (gmap string WasteType) :=
  let* found :=
    Promise_all (map (λ typeId,
      let* wasteType := gets (λ w, db_WasteType w !! typeId) in
      match wasteType with
      | Some wasteType => ret (typeId, wasteType)
      | None => throw (Error (WasteTypeNotFound typeId))
      end) ids) in
  ret (list_to_map found).

(** Modelled from the spec: the stock counter of a user for a waste type;
    no row is no stock. *)
Definition stockOf (w : World) (user typeId : string) : Z :=
  default 0%Z (db_Stock w !! (user, typeId)).

(** Modelled from the spec: [StockService.getUserStock(user)], the stock
    rows of the user. *)
Definition getUserStock (user : string) : M World (list (string * string * Z)) :=
  gets (λ w, map_to_list (filter (λ row, row.1.1 = user) (db_Stock w))).

(** Modelled from the spec: a change of one stock counter. *)
Definition addStock (user typeId : string) (qty : Z) (w : World) : World :=
  with_db_Stock <[(user, typeId) := (stockOf w user typeId + qty)%Z]> w.

(** Modelled from the spec: [StockService.incrementStock(wasteType, user,
    qty)]. *)
Definition incrementStock (wasteType : option WasteType) (user : string) (qty : Z)
  : M World unit :=
  match wasteType with
  | Some wasteType => modify (addStock user (wasteTypeId wasteType) qty)
  | None => throw (TypeError (CannotReadProperty "id"))
  end.

(** Modelled from the spec: [StockService.moveStock(wasteType, from, to,
    qty)], which decrements the source and increments the destination. *)
Definition moveStock (wasteType : WasteType) (from to : option string) (qty : Z)
  : M World unit :=
  match from, to with
  | Some from, Some to =>
      modify (addStock from (wasteTypeId wasteType) (- qty)) ;;
      modify (addStock to (wasteTypeId wasteType) qty)
  | _, _ => throw (TypeError (CannotReadProperty "id"))
  end.

(** Modelled from the spec: [ContainerService.createContainersOfType(
    wasteType, qty, status, number, user)], [qty] new containers of the type,
    in the status, tagged with the number and owned by the user. *)
Fixpoint createContainers (n : nat) (wasteType : WasteType)
  (s : CONTAINER_STATUS) (number : Z) (user : string) : M World (list Container) :=
  match n with
  | O => ret []
  | S n =>
      let* objectId := gets (λ w, fresh (dom (db_Container w))) in
      let container :=
        {| containerId := objectId; containerType := wasteType; status := s;
           createdBy := user; batchNumber := number |} in
      modify (with_db_Container <[objectId := container]>) ;;
      let* rest := createContainers n wasteType s number user in
      ret (container :: rest)
  end.

(** Modelled from the spec: the same, for the value of [wasteTypes.get]. *)
Definition createContainersOfType (wasteType : option WasteType) (qty : Z)
  (s : CONTAINER_STATUS) (number : Z) (user : string) : M World (list Container) :=
  match wasteType with
  | Some wasteType => createContainers (Z.to_nat qty) wasteType s number user
  | None => throw (TypeError (CannotReadProperty "id"))
  end.

(** Modelled from the spec: [ContainerService.findContainerById(containerId,
    user)]. *)
Definition findContainerById (containerId : nat) (user : string) : M World Container :=
  let* found := gets (λ w, db_Container w !! containerId) in
  match found with
  | Some container => ret container
  | None => throw (Error (ContainerNotFound containerId))
  end.

(** Modelled from the spec: [ContainerService.findContainersByTransaction(
    transaction)], the containers that the details of the transaction refer
    to. *)
Definition findContainersByTransaction (transaction : Transaction)
  : M World (list Container) :=
  gets (λ w,
    omap (λ detail, db_Container w !! detailContainer detail)
      (filter (λ detail, detailTransaction detail = transaction_id transaction)
         (db_TransactionDetail w))).

(** Modelled from the spec: [UserService.findUserById(id)]. *)
Definition findUserById (id : string) : M World string :=
  let* known := gets (λ w, bool_decide (id ∈ db_User w)) in
  if known : bool then ret id else throw (Error (UserNotFound id)).

(** Modelled from the spec:
    [RecyclingCenterService.findRecyclingCenterById(id)]. *)
Definition findRecyclingCenterById (id : string) : M World string :=
  let* known := gets (λ w, bool_decide (id ∈ db_RecyclingCenter w)) in
  if known : bool then ret id else throw (Error (RecyclingCenterNotFound id)).

(** Modelled from the spec: [SecurityService.grantReadAndWritePermissionsToUser(
    className, id, user)]; the user is the value of a [get], and may be
    missing. *)
Definition grantReadAndWritePermissionsToUser (className : string) (id : nat)
  (user : option string) : M World unit :=
  match user with
  | Some user => modify (with_grants (λ g, g ∪ {[ (className, id, user) ]}))
  | None => throw (TypeError (CannotReadProperty "id"))
  end.

(** Modelled from the spec:
    [SecurityService.revokeReadAndWritePermissionsToUser(className, id, user)]. *)
Definition revokeReadAndWritePermissionsToUser (className : string) (id : nat)
  (user : option string) : M World unit :=
  match user with
  | Some user => modify (with_grants (λ g, g ∖ {[ (className, id, user) ]}))
  | None => throw (TypeError (CannotReadProperty "id"))
  end.

(** Modelled from the spec: [SecurityService.canTransportContainer(container,
    user)], pass or denied. *)
Definition canTransportContainer (container : Container) (user : string) : M World unit :=
  if canTransport env container user then ret tt
  else throw (Error (TransportNotAllowed (containerId container))).

(** Modelled from the spec: the notifier, which records what it delivers. *)
Definition notify (notification : Notification) : M World unit :=
  if delivers env notification then
    modify (with_notifications (λ sent, sent ++ [notification]))
  else throw (Error NotificationFailed).

(** Modelled from the spec: [NotificationService.notifyTransferRequest(id,
    from, to)]. *)
Definition notifyTransferRequest (transactionId : nat) (user recipient : string)
  : M World unit :=
  notify {| notifiedTransaction := transactionId; notifiedBy := user;
            notifiedUsers := [recipient] |}.

(** Modelled from the spec: [NotificationService.notifyTransport(id, from,
    toList)]. *)
Definition notifyTransport (transactionId : nat) (user : string)
  (usersList : list string) : M World unit :=
  notify {| notifiedTransaction := transactionId; notifiedBy := user;
            notifiedUsers := usersList |}.

(** A promise that is neither awaited nor returned: the function runs, a
    rejection is not observed. *)
Definition not_awaited (promise : M World unit) : M World unit :=
  try_catch promise (λ _, ret tt).

(** *** The functions of the module *)

Definition findRawTransaction (id : nat) (user : option string) (master : bool)
  : M World Transaction :=
  try_catch
    (let authOptions := getQueryAuthOptions user master in
     let* transaction := Query_get_Transaction id authOptions in
     ret transaction)
    (λ error, throw (Error (TransactionNotFound id))).

Definition findTransactionWithDetailsById (id : nat) (user : option string)
  (master : bool) : M World Transaction :=
  let authOptions := getQueryAuthOptions user master in
  let* transaction := findRawTransaction id user master in
  let* transactionDetail :=
    gets (λ w, filter (λ detail, detailTransaction detail = transaction_id transaction)
                 (db_TransactionDetail w)) in
  ret (set_details transactionDetail transaction).

Definition createTransaction (attributes sessionToken : JsValue) : M World Transaction :=
  let* attributes := lift (destructure attributes) in
  let* number := getValueForNextSequence "Transaction" in
  Transaction_save_new
    (λ objectId,
       {| transaction_id := objectId;
          transaction_type := attr_type attributes;
          transaction_from := attr_from attributes;
          transaction_to := attr_to attributes;
          transaction_number := number;
          transaction_recyclingCenter := attr_recyclingCenter attributes;
          transaction_reason := attr_reason attributes;
          transaction_relatedTo := None;
          transaction_expiredAt := None;
          transaction_details := [] |})
    sessionToken.

Definition destroyTransaction (transaction : option Transaction) : M World unit :=
  match transaction with
  | Some transaction => Transaction_destroy transaction
  | None => ret tt
  end.

(** The callers pass an array, which is truthy even when empty. *)
Definition rollbackContainersToStatus (containers : list Container)
  (s : CONTAINER_STATUS) (applyFnToEach : option (Container → M World unit))
  : M World unit :=
  Promise_all (map (λ container,
    let* container := Container_set_status container s in
    match applyFnToEach with
    | Some applyFnToEach => not_awaited (applyFnToEach container)
    | None => ret tt
    end ;;
    Container_save container) containers) ;;
  ret tt.

Definition rollbackUserStockTo (currentStock : option (list (string * string * Z)))
  : M World unit :=
  match currentStock with
  | Some currentStock =>
      Promise_all (map (λ stock,
        let ammount := stock.2 in
        modify (with_db_Stock <[stock.1 := ammount]>)) currentStock) ;;
      ret tt
  | None => ret tt
  end.

(** One line of the input of [registerRecover]. *)
Record RecoverInput : Type := { typeId : string; qty : Z }.

(** [containers.forEach(...)] with its [typesMap]. *)
Fixpoint validateRegisterInput_forEach (typesMap : gmap string string)
  (containers : list RecoverInput) : Outcome unit :=
  match containers with
  | [] => Returned tt
  | {| typeId := typeId; qty := qty |} :: containers =>
      if bool_decide (is_Some (typesMap !! typeId)) then
        Thrown (Error (WasteTypeCannotBeDuplicated typeId))
      else
        let typesMap := <[typeId := typeId]> typesMap in
        if (qty >? MAX_CONTAINERS_QUANTITY_PER_REQUEST env)%Z then
          Thrown (Error (MaxContainerQuantityExceeded
                           (MAX_CONTAINERS_QUANTITY_PER_REQUEST env)))
        else validateRegisterInput_forEach typesMap containers
  end.

Definition validateRegisterInput (containers : list RecoverInput) : Outcome unit :=
  let typesMap : gmap string string := ∅ in
  validateRegisterInput_forEach typesMap containers.

Definition validateTransferAcceptRejectRequest
  (transferRequestTransaction : Transaction) (user : string) : Outcome unit :=
  let transactionId := transaction_id transferRequestTransaction in
  if bool_decide (transaction_type transferRequestTransaction
                  ≠ Some TRANSFER_REQUEST) then
    Thrown (Error (NotInTransferRequestStatus transactionId))
  else
    match transaction_expiredAt transferRequestTransaction with
    | Some date => Thrown (Error (TransactionExpiredAt transactionId date))
    | None =>
        match transaction_to transferRequestTransaction with
        | None => Thrown (TypeError (CannotReadProperty "equals"))
        | Some to =>
            if bool_decide (to ≠ user) then Thrown (Error NotAllowedToAcceptReject)
            else Returned tt
        end
    end.

Definition createTransactionDetail (transaction : Transaction)
  (container : Container) (user : string) : M World TransactionDetail :=
  try_catch
    (let authOptions := getQueryAuthOptions (Some user) false in
     let wasteType := containerType container in
     let transactionDetail :=
       {| detailTransaction := transaction_id transaction;
          detailQty := wasteTypeQty wasteType;
          detailUnit := wasteTypeUnit wasteType;
          detailContainer := containerId container |} in
     TransactionDetail_save transactionDetail authOptions ;;
     ret transactionDetail)
    (λ error, throw (Error (TransactionDetailCouldNotBeSaved (message error)))).

(** [registerRecover(containersInput = [], user)] *)
Definition registerRecover (containersInput : option (list RecoverInput))
  (user : string) : M World Transaction :=
  let containersInput := default [] containersInput in
  declare declared
    (try_catch
       (world (lift (validateRegisterInput containersInput)) ;;
        let* wasteTypes :=
          world (getWasteTypesFromIds (map typeId containersInput)) in
        let* currentStock := world (getUserStock user) in
        assign (set_var_currentStock currentStock) ;;
        let* transaction :=
          world (createTransaction
                   (ObjectLiteral
                      {| attr_from := None; attr_to := Some user;
                         attr_type := Some RECOVER;
                         attr_recyclingCenter := None; attr_reason := None |})
                   (JsString (getSessionToken user))) in
        assign (set_var_transaction transaction) ;;
        let* containers :=
          world (Promise_all (map (λ '{| typeId := typeId; qty := qty |},
            let wasteType := wasteTypes !! typeId in
            createContainersOfType wasteType qty RECOVERED
              (transaction_number transaction) user)
            containersInput)) in
        let* details :=
          world (Promise_all (map (λ container,
            createTransactionDetail transaction container user)
            (concat containers))) in
        world (Promise_all (map (λ input,
          let wasteType := wasteTypes !! typeId input in
          incrementStock wasteType user (qty input)) containersInput)) ;;
        let transaction := set_details details transaction in
        ret transaction)
       (λ error,
          let* transaction := read var_transaction in
          let* currentStock := read var_currentStock in
          world (destroyTransaction transaction) ;;
          world (rollbackUserStockTo currentStock) ;;
          throw (Error (TransactionCouldNotBeRegistered (message error))))).

Definition registerTransferRequest (containersInput : list nat) (to : option string)
  (user : string) : M World Transaction :=
  declare declared
    (try_catch
       ((if falsy to then throw (Error CannotTransferWithoutRecipient) else ret tt) ;;
        let* recipient := world (findUserById (default "" to)) in
        let* containers :=
          world (Promise_all (map (λ containerId,
            findContainerById containerId user) containersInput)) in
        assign (set_var_containers containers) ;;
        (if negb (forallb (λ container,
              bool_decide (status container = RECOVERED)) containers)
         then throw (Error CheckContainersStatusTransfer) else ret tt) ;;
        let* transaction :=
          world (createTransaction
                   (ObjectLiteral
                      {| attr_from := Some user; attr_to := Some recipient;
                         attr_type := Some TRANSFER_REQUEST;
                         attr_recyclingCenter := None; attr_reason := None |})
                   (JsString (getSessionToken user))) in
        assign (set_var_transaction transaction) ;;
        world (grantReadAndWritePermissionsToUser "Transaction"
                 (transaction_id transaction) (Some recipient)) ;;
        let* details :=
          world (Promise_all (map (λ container,
            let* container := Container_set_status container TRANSFER_PENDING in
            Promise_call
              (grantReadAndWritePermissionsToUser "Container"
                 (containerId container) (Some recipient))
              "then"
              (createTransactionDetail transaction container user))
            containers)) in
        world (notifyTransferRequest (transaction_id transaction) user recipient) ;;
        let transaction := set_details details transaction in
        ret transaction)
       (λ error,
          let* transaction := read var_transaction in
          let* containers := read var_containers in
          match transaction with
          | Some transaction =>
              world (destroyTransaction (Some transaction)) ;;
              world (rollbackContainersToStatus containers RECOVERED
                       (Some (λ container,
                          revokeReadAndWritePermissionsToUser "Container"
                            (containerId container) (transaction_to transaction))))
          | None => ret tt
          end ;;
          throw (Error (TransactionCouldNotBeRegistered (message error))))).

(** The callback of [containers.map] calls the member [createTransactionDetail]
    of what [StockService.moveStock] returns, so it throws while [map] runs and
    [Promise.all] is reached with the empty array only. *)
Definition registerTransferAccept (transactionId : nat) (user : string)
  : M World Transaction :=
  declare declared
    (try_catch
       (let* transferRequestTransaction :=
          world (findRawTransaction transactionId (Some user) false) in
        assign (set_var_transferRequestTransaction transferRequestTransaction) ;;
        let from := transaction_from transferRequestTransaction in
        let to := transaction_to transferRequestTransaction in
        world (lift (validateTransferAcceptRejectRequest
                       transferRequestTransaction user)) ;;
        let* transaction :=
          world (createTransaction
                   (ObjectLiteral
                      {| attr_from := from; attr_to := to;
                         attr_type := Some TRANSFER_ACCEPT;
                         attr_recyclingCenter := None; attr_reason := None |})
                   (JsString (getSessionToken user))) in
        assign (set_var_transaction transaction) ;;
        let* transaction :=
          world (Transaction_set transaction
                   (set_relatedTo (Some (transaction_id transferRequestTransaction)))) in
        let* transferRequestTransaction :=
          world (Transaction_set transferRequestTransaction
                   (set_expiredAt (Some (now env)))) in
        let* containers :=
          world (findContainersByTransaction transferRequestTransaction) in
        assign (set_var_containers containers) ;;
        let* details :=
          world (Array_map (λ container,
            let* container := Container_set_status container TRANSFERRED in
            Promise_call
              (moveStock (containerType container) from to 1)
              "createTransactionDetail"
              (createTransactionDetail transaction container user)) containers) in
        let transaction := set_details details transaction in
        ret transaction)
       (λ error,
          let* transaction := read var_transaction in
          let* containers := read var_containers in
          let* transferRequestTransaction := read var_transferRequestTransaction in
          match transaction with
          | Some transaction =>
              world (Promise_all
                       [destroyTransaction (Some transaction);
                        rollbackContainersToStatus containers TRANSFER_PENDING None]) ;;
              match transferRequestTransaction with
              | Some transferRequestTransaction =>
                  let* transferRequestTransaction :=
                    world (Transaction_set transferRequestTransaction
                             (set_expiredAt None)) in
                  world (Transaction_save transferRequestTransaction)
              | None => ret tt
              end
          | None => ret tt
          end ;;
          throw (Error (TransactionCouldNotBeRegistered (message error))))).

Definition registerTransferReject (transactionId : nat) (reason : option string)
  (user : string) : M World Transaction :=
  declare declared
    (try_catch
       (let* transferRequestTransaction :=
          world (findRawTransaction transactionId (Some user) false) in
        assign (set_var_transferRequestTransaction transferRequestTransaction) ;;
        world (lift (validateTransferAcceptRejectRequest
                       transferRequestTransaction user)) ;;
        let* transaction :=
          world (createTransaction
                   (ObjectLiteral
                      {| attr_from := transaction_from transferRequestTransaction;
                         attr_to := transaction_to transferRequestTransaction;
                         attr_type := Some TRANSFER_REJECT;
                         attr_recyclingCenter := None; attr_reason := reason |})
                   (JsString (getSessionToken user))) in
        assign (set_var_transaction transaction) ;;
        let* transaction :=
          world (Transaction_set transaction
                   (set_relatedTo (Some (transaction_id transferRequestTransaction)))) in
        let* transferRequestTransaction :=
          world (Transaction_set transferRequestTransaction
                   (set_expiredAt (Some (now env)))) in
        let* containers :=
          world (findContainersByTransaction transferRequestTransaction) in
        assign (set_var_containers containers) ;;
        let* details :=
          world (Promise_all (map (λ container,
            let* container := Container_set_status container RECOVERED in
            createTransactionDetail transaction container user) containers)) in
        let transaction := set_details details transaction in
        ret transaction)
       (λ error,
          let* transaction := read var_transaction in
          let* containers := read var_containers in
          let* transferRequestTransaction := read var_transferRequestTransaction in
          match transaction with
          | Some transaction =>
              world (destroyTransaction (Some transaction)) ;;
              world (rollbackContainersToStatus containers TRANSFER_PENDING None) ;;
              match transferRequestTransaction with
              | Some transferRequestTransaction =>
                  let* transferRequestTransaction :=
                    world (Transaction_set transferRequestTransaction
                             (set_expiredAt None)) in
                  world (Transaction_save transferRequestTransaction)
              | None => ret tt
              end
          | None => ret tt
          end ;;
          throw (Error (TransactionCouldNotBeRegistered (message error))))).

(** [createTransaction] has the two parameters [attributes] and
    [sessionToken]; [registerTransferCancel] calls it with five arguments, the
    first two of which are the [from] and the [to] of the request, and
    JavaScript binds the parameters to these two. *)
Definition registerTransferCancel (transactionId : nat) (user : string)
  : M World Transaction :=
  declare declared
    (try_catch
       (let* transferRequestTransaction :=
          world (findRawTransaction transactionId (Some user) false) in
        assign (set_var_transferRequestTransaction transferRequestTransaction) ;;
        (if bool_decide (transaction_type transferRequestTransaction
                         ≠ Some TRANSFER_REQUEST)
         then throw (Error (NotInTransferRequestStatus transactionId))
         else ret tt) ;;
        match transaction_expiredAt transferRequestTransaction with
        | Some date => throw (Error (TransactionExpiredAt transactionId date))
        | None => ret tt
        end ;;
        match transaction_from transferRequestTransaction with
        | None => throw (TypeError (CannotReadProperty "equals"))
        | Some from =>
            if bool_decide (from ≠ user) then throw (Error NotAllowedToCancel)
            else ret tt
        end ;;
        let* transaction :=
          world (createTransaction
                   (pointer (transaction_from transferRequestTransaction))
                   (pointer (transaction_to transferRequestTransaction))) in
        assign (set_var_transaction transaction) ;;
        let* transaction :=
          world (Transaction_set transaction
                   (set_relatedTo (Some (transaction_id transferRequestTransaction)))) in
        let* transferRequestTransaction :=
          world (Transaction_set transferRequestTransaction
                   (set_expiredAt (Some (now env)))) in
        let* containers :=
          world (findContainersByTransaction transferRequestTransaction) in
        assign (set_var_containers containers) ;;
        let* details :=
          world (Promise_all (map (λ container,
            let* container := Container_set_status container RECOVERED in
            Promise_call
              (revokeReadAndWritePermissionsToUser "Container"
                 (containerId container)
                 (transaction_to transferRequestTransaction))
              "then"
              (createTransactionDetail transaction container user)) containers)) in
        let transaction := set_details details transaction in
        ret transaction)
       (λ error,
          let* transaction := read var_transaction in
          let* containers := read var_containers in
          let* transferRequestTransaction := read var_transferRequestTransaction in
          match transaction with
          | Some transaction =>
              world (destroyTransaction (Some transaction)) ;;
              match transferRequestTransaction with
              | Some transferRequestTransaction =>
                  world (rollbackContainersToStatus containers TRANSFER_PENDING
                           (Some (λ container,
                              grantReadAndWritePermissionsToUser "Container"
                                (containerId container)
                                (transaction_to transferRequestTransaction)))) ;;
                  let* transferRequestTransaction :=
                    world (Transaction_set transferRequestTransaction
                             (set_expiredAt None)) in
                  world (Transaction_save transferRequestTransaction)
              | None => ret tt
              end
          | None => ret tt
          end ;;
          throw (Error (TransactionCouldNotBeRegistered (message error))))).

Definition registerTransport (containersInput : list nat) (to : option string)
  (user : string) : M World Transaction :=
  declare declared
    (try_catch
       ((if falsy to then throw (Error CannotTransferWithoutDestination)
         else ret tt) ;;
        let* recyclingCenter := world (findRecyclingCenterById (default "" to)) in
        let* containers :=
          world (Promise_all (map (λ containerId,
            findContainerById containerId user) containersInput)) in
        assign (set_var_containers containers) ;;
        let recoveredIds :=
          map containerId
            (filter (λ c, status c = RECOVERED) containers) in
        let transferredIds :=
          map containerId
            (filter (λ c, status c = TRANSFERRED) containers) in
        assign (set_var_ids recoveredIds transferredIds) ;;
        (if negb (forallb (λ container,
              bool_decide (status container ∈ [RECOVERED; TRANSFERRED])) containers)
         then throw (Error CheckContainersStatusTransport) else ret tt) ;;
        world (Promise_all (map (λ container,
          canTransportContainer container user) containers)) ;;
        let* transaction :=
          world (createTransaction
                   (ObjectLiteral
                      {| attr_from := Some user; attr_to := None;
                         attr_type := Some TRANSPORT;
                         attr_recyclingCenter := Some recyclingCenter;
                         attr_reason := None |})
                   (JsString (getSessionToken user))) in
        assign (set_var_transaction transaction) ;;
        let* details :=
          world (Promise_all (map (λ container,
            let* container := Container_set_status container IN_TRANSIT in
            createTransactionDetail transaction container user) containers)) in
        let usersList :=
          filter (λ u, u ≠ user) (map createdBy containers) in
        world (notifyTransport (transaction_id transaction) user usersList) ;;
        let transaction := set_details details transaction in
        ret transaction)
       (λ error,
          let* transaction := read var_transaction in
          let* containers := read var_containers in
          let* recoveredIds := read var_recoveredIds in
          let* transferredIds := read var_transferredIds in
          match transaction with
          | Some transaction =>
              world (destroyTransaction (Some transaction)) ;;
              world (rollbackContainersToStatus
                       (filter (λ c, containerId c ∈ recoveredIds) containers)
                       RECOVERED None) ;;
              world (rollbackContainersToStatus
                       (filter (λ c, containerId c ∈ transferredIds) containers)
                       TRANSFERRED None)
          | None => ret tt
          end ;;
          throw (Error (TransactionCouldNotBeRegistered (message error))))).

End Workflows.
End TransactionService.

(** * The properties of the specification *)

Import Utils TransactionService.

(** ** Vocabulary *)

(** The store keeps every object under its own [objectId]. *)
Definition keyed (w : World) : Prop :=
  map_Forall (λ k t, transaction_id t = k) (db_Transaction w).

Definition keyed_containers (w : World) : Prop :=
  map_Forall (λ k c, containerId c = k) (db_Container w).

(** Every number of the ledger was drawn from the sequence. *)
Definition numbered (w : World) : Prop :=
  map_Forall (λ _ t,
    (transaction_number t ≤ default 0 (sequences w !! "Transaction"))%Z)
    (db_Transaction w).

(** The two faults of an input of [registerRecover]. *)
Definition duplicated (items : list RecoverInput) : Prop :=
  ∃ i j a b,
    i ≠ j ∧ items !! i = Some a ∧ items !! j = Some b ∧ typeId a = typeId b.

Definition exceeding (env : Environment) (items : list RecoverInput) : Prop :=
  ∃ a, a ∈ items ∧ (qty a > MAX_CONTAINERS_QUANTITY_PER_REQUEST env)%Z.

(** The three workflows that consume a transfer request. *)
Inductive TerminalCall : Type :=
  | Accept (user : string)
  | Reject (reason : option string) (user : string)
  | Cancel (user : string).

Definition call (env : Environment) (transactionId : nat) (c : TerminalCall)
  : M World Transaction :=
  match c with
  | Accept user => registerTransferAccept env transactionId user
  | Reject reason user => registerTransferReject env transactionId reason user
  | Cancel user => registerTransferCancel env transactionId user
  end.

(** The stock ledger after the increments of [registerRecover]. *)
Definition addStocks (user : string) (items : list RecoverInput) (w : World) : World :=
  foldl (λ w a, addStock user (typeId a) (qty a) w) w items.

Definition ledger_untouched (w w' : World) : Prop :=
  db_Transaction w' = db_Transaction w ∧ db_Stock w' = db_Stock w
  ∧ sequences w' = sequences w.

(** The registry of containers once [registerTransport] has flipped them,
    and what [rollbackContainersToStatus] then does to it. *)
Definition in_transit (containers : list Container) (m : gmap nat Container)
  : gmap nat Container :=
  foldl (λ m container, alter (set_status IN_TRANSIT) (containerId container) m)
    m containers.

Definition rolled_back (s : CONTAINER_STATUS) (containers : list Container)
  (m : gmap nat Container) : gmap nat Container :=
  foldl (λ m container,
           alter (λ _, set_status s container) (containerId container)
             (alter (set_status s) (containerId container) m)) m containers.

(** A computation that throws from every state, as a [catch] block that ends
    in [throw] does. *)
Definition always_throws {S A} (c : M S A) : Prop :=
  ∀ s, ∃ e s', c s = (Thrown e, s').

(** The users that [registerTransport] notifies are the distinct owners of
    the containers, the requester excluded, each of them once. *)
Definition notifies_distinct_owners (env : Environment) (containersInput : list nat)
  (to : option string) (user : string) (w : World) : Prop :=
  ∀ transaction w',
    registerTransport env containersInput to user w = (Returned transaction, w') →
    ∃ notification,
      last (notifications w') = Some notification
      ∧ NoDup (notifiedUsers notification)
      ∧ ∀ u, u ∈ notifiedUsers notification
             ↔ u ≠ user
               ∧ ∃ id container, id ∈ containersInput
                   ∧ db_Container w !! id = Some container
                   ∧ createdBy container = u.

(** ** A small world

    Two users, one recycling center and one waste type; user A recovers two
    containers and requests their transfer to user B. *)

Definition example_env : Environment :=
  {| MAX_CONTAINERS_QUANTITY_PER_REQUEST := 5;
     now := 1000;
     acceptsTransaction := λ _ _, true;
     acceptsDetail := λ _, true;
     delivers := λ _, true;
     canTransport := λ _ _, true |}.

(** The same, with a store that refuses the detail of container 1. *)
Definition refusing_env : Environment :=
  {| MAX_CONTAINERS_QUANTITY_PER_REQUEST := 5;
     now := 1000;
     acceptsTransaction := λ _ _, true;
     acceptsDetail := λ detail, bool_decide (detailContainer detail ≠ 1);
     delivers := λ _, true;
     canTransport := λ _ _, true |}.

Definition plastic : WasteType :=
  {| wasteTypeId := "plastic"; wasteTypeQty := 10; wasteTypeUnit := "kg" |}.

Definition two_plastic : RecoverInput := {| typeId := "plastic"; qty := 2 |}.

Definition empty_world : World :=
  {| db_Transaction := ∅; db_TransactionDetail := []; db_Container := ∅;
     db_WasteType := {[ "plastic" := plastic ]};
     db_User := {[ "A"; "B" ]};
     db_RecyclingCenter := {[ "RC" ]};
     db_Stock := ∅; grants := ∅; notifications := []; sequences := ∅ |}.

Definition recovered_world : World :=
  (registerRecover example_env (Some [two_plastic]) "A" empty_world).2.

Definition requested_world : World :=
  (registerTransferRequest example_env [0; 1] (Some "B") "A" recovered_world).2.


(** A cloud function that counts its calls. *)
Definition counting : CloudFunction nat unit unit :=
  λ _ calls, (Returned tt, S calls).

Definition anonymous : FunctionRequest unit :=
  {| master := false; user := None; params := tt |}.

Definition authenticated : FunctionRequest unit :=
  {| master := false; user := Some "A"; params := tt |}.

(** ** Invariants, registrations and their effects *)

(** A computation that keeps an invariant of the state, whether it returns
    or throws. *)
Definition keeps {S A} (I : S → Prop) (c : M S A) : Prop :=
  ∀ s r s', I s → c s = (r, s') → I s'.

(** An invariant of the world, as an invariant of a function body. *)
Definition on_world {L} (I : World → Prop) : L * World → Prop := λ s, I s.2.

Definition stored_by_id (w : World) : Prop := keyed w ∧ keyed_containers w.

Inductive Registration : Type :=
  | Recover (containersInput : option (list RecoverInput)) (user : string)
  | TransferRequest (containersInput : list nat) (to : option string) (user : string)
  | Terminal (transactionId : nat) (c : TerminalCall)
  | Transport (containersInput : list nat) (to : option string) (user : string).

Definition register (env : Environment) (r : Registration) : M World Transaction :=
  match r with
  | Recover containersInput user => registerRecover env containersInput user
  | TransferRequest containersInput to user =>
      registerTransferRequest env containersInput to user
  | Terminal transactionId c => call env transactionId c
  | Transport containersInput to user => registerTransport env containersInput to user
  end.

(** The world after a list of registrations, whatever their outcomes. *)
Definition runs (env : Environment) (rs : list Registration) (w : World) : World :=
  foldl (λ w r, (register env r w).2) w rs.

Definition moves_stock (r : Registration) : bool :=
  match r with
  | Recover _ _ | Terminal _ (Accept _) => true
  | _ => false
  end.

Definition notifier (r : Registration) : bool :=
  match r with
  | TransferRequest _ _ _ | Transport _ _ _ => true
  | _ => false
  end.

Definition creates_containers (r : Registration) : bool :=
  match r with
  | Recover _ _ => true
  | _ => false
  end.

Definition changes_grants (r : Registration) : bool :=
  match r with
  | TransferRequest _ _ _ | Terminal _ (Cancel _) => true
  | _ => false
  end.

(** The data that the workflows read and never write. *)
Definition master_data (w : World) :=
  (db_WasteType w, db_User w, db_RecyclingCenter w).

(** The last number drawn for a transaction. *)
Definition sequence (w : World) : Z := default 0%Z (sequences w !! "Transaction").

#[global] Instance WasteType_eq_dec : EqDecision WasteType.
Proof. solve_decision. Defined.

#[global] Instance Container_eq_dec : EqDecision Container.
Proof. solve_decision. Defined.

(** The detail that [createTransactionDetail] saves for a container. *)
Definition detail_of (transaction : Transaction) (container : Container)
  : TransactionDetail :=
  {| detailTransaction := transaction_id transaction;
     detailQty := wasteTypeQty (containerType container);
     detailUnit := wasteTypeUnit (containerType container);
     detailContainer := containerId container |}.

(** The registry of containers once a workflow has set the status of each of
    the containers. *)
Definition flipped (s : CONTAINER_STATUS) (containers : list Container)
  (m : gmap nat Container) : gmap nat Container :=
  foldl (λ m container, alter (set_status s) (containerId container) m) m containers.

(** What the callback of a workflow does for one container when it returns:
    the status, the grants, the detail. *)
Definition flip_one (s : CONTAINER_STATUS)
  (grant : Container → gset (string * nat * string) → gset (string * nat * string))
  (transaction : Transaction) (container : Container) (w : World) : World :=
  with_db_TransactionDetail (λ rows, rows ++ [detail_of transaction container])
    (with_grants (grant container)
       (with_db_Container (alter (set_status s) (containerId container)) w)).

Definition flip_each (s : CONTAINER_STATUS)
  (grant : Container → gset (string * nat * string) → gset (string * nat * string))
  (transaction : Transaction) (containers : list Container) (w : World) : World :=
  foldl (λ w container, flip_one s grant transaction container w) w containers.

(** The containers that the details of a transaction refer to. *)
Definition containers_of (w : World) (transactionId : nat) : list Container :=
  omap (λ detail, db_Container w !! detailContainer detail)
    (filter (λ detail, detailTransaction detail = transactionId)
       (db_TransactionDetail w)).

(** The grants once the grant on a container is revoked from the recipient
    of a request. *)
Definition revoked (to : option string) (container : Container)
  (g : gset (string * nat * string)) : gset (string * nat * string) :=
  match to with
  | Some recipient => g ∖ {[ ("Container", containerId container, recipient) ]}
  | None => g
  end.

(** The grants once the grant on a container is given to a recipient. *)
Definition granted (recipient : string) (container : Container)
  (g : gset (string * nat * string)) : gset (string * nat * string) :=
  g ∪ {[ ("Container", containerId container, recipient) ]}.

(** The runs of a list of computations, each from the state that the one
    before it has left. *)
Inductive Forall2_chain {S A B} (step : A → S → B → S → Prop)
  : list A → S → list B → S → Prop :=
  | Forall2_chain_nil s : Forall2_chain step [] s [] s
  | Forall2_chain_cons a l s b s1 bs s' :
      step a s b s1 → Forall2_chain step l s1 bs s' →
      Forall2_chain step (a :: l) s (b :: bs) s'.

(** The registry of containers once new containers are saved, each under an
    [objectId] that no container before it has. *)
Inductive created : gmap nat Container → list Container → gmap nat Container → Prop :=
  | created_nil m : created m [] m
  | created_cons m c cs m' :
      m !! containerId c = None →
      created (<[containerId c := c]> m) cs m' →
      created m (c :: cs) m'.

(** Everything of the world but its registry of containers and its master
    data. *)
Definition besides_containers (w : World) :=
  (db_Transaction w, db_TransactionDetail w, db_Stock w, grants w,
   notifications w, sequences w).

(** Everything of the world but its stock ledger and its master data. *)
Definition besides_stock (w : World) :=
  (db_Transaction w, db_TransactionDetail w, db_Container w, grants w,
   notifications w, sequences w).

(** The ledger of details refers to stored transactions only. *)
Definition referential (w : World) : Prop :=
  Forall (λ detail, is_Some (db_Transaction w !! detailTransaction detail))
    (db_TransactionDetail w).

(** Every container of a request is waiting for its recipient. *)
Definition pending (w : World) (transactionId : nat) : Prop :=
  Forall (λ container, status container = TRANSFER_PENDING)
    (containers_of w transactionId).

(** The party of a request that a terminal call is reserved to, the user who
    calls, and the reason for which the call is refused before it has
    written anything, in the order of the checks. *)
Definition party (request : Transaction) (c : TerminalCall) : option string :=
  match c with
  | Cancel _ => transaction_from request
  | Accept _ | Reject _ _ => transaction_to request
  end.

Definition caller (c : TerminalCall) : string :=
  match c with
  | Accept user | Reject _ user | Cancel user => user
  end.

Definition refusal (transactionId : nat) (request : option Transaction)
  (c : TerminalCall) : option Message :=
  match request with
  | None => Some (TransactionNotFound transactionId)
  | Some request =>
      if bool_decide (transaction_type request = Some TRANSFER_REQUEST) then
        match transaction_expiredAt request with
        | Some date => Some (TransactionExpiredAt transactionId date)
        | None =>
            match party request c with
            | None => Some (CannotReadProperty "equals")
            | Some user =>
                if bool_decide (user = caller c) then None
                else Some match c with
                          | Cancel _ => NotAllowedToCancel
                          | Accept _ | Reject _ _ => NotAllowedToAcceptReject
                          end
            end
        end
      else Some (NotInTransferRequestStatus transactionId)
  end.

(** ** Tactics *)

(** Unfold the combinators of a computation applied to a state. *)
Ltac run :=
  unfold declare, try_catch, bind, world, assign, read, lift, ret, throw, gets,
    modify, not_awaited; simpl.

(** ** Lemmas on computations *)

Section ComputationLemmas.
Context {S : Type}.

Lemma Promise_all_cons {A} (p : M S A) ps s :
  Promise_all (p :: ps) s
  = let '(r, s1) := p s in
    let '(rs, s2) := Promise_all ps s1 in
    (match r, rs with
     | Thrown e, _ => Thrown e
     | Returned _, Thrown e => Thrown e
     | Returned a, Returned l => Returned (a :: l)
     end, s2).
Proof. reflexivity. Qed.

(** What [Promise.all] does to a component of the state, whether or not it
    rejects. *)
Lemma Promise_all_fold {A B X} (f : A → M S B) (π : S → X) (h : A → X → X) l :
  (∀ a s r s', f a s = (r, s') → π s' = h a (π s)) →
  ∀ s r s', Promise_all (map f l) s = (r, s') →
  π s' = foldl (λ x a, h a x) (π s) l.
Proof.
  intros Hf. induction l as [|a l IH]; intros s r s' H.
  - by inversion H.
  - rewrite map_cons, Promise_all_cons in H.
    destruct (f a s) as [ra s1] eqn:Ha.
    destruct (Promise_all (map f l) s1) as [rs s2] eqn:Hl.
    inversion H; subst. simpl.
    rewrite (IH _ _ _ Hl), (Hf _ _ _ _ Ha). done.
Qed.

Lemma Promise_all_frame {A B X} (f : A → M S B) (π : S → X) l :
  (∀ a s r s', f a s = (r, s') → π s' = π s) →
  ∀ s r s', Promise_all (map f l) s = (r, s') → π s' = π s.
Proof.
  intros Hf s r s' H.
  rewrite (Promise_all_fold f π (λ _ x, x) l Hf _ _ _ H).
  clear. generalize (π s). induction l; simpl; auto.
Qed.

(** [Promise.all] over computations that all return, and a relation that
    every one of them keeps. *)
Lemma Promise_all_returns_rel {A B} (R : S → S → Prop) (f : A → M S B) l s :
  (∀ s, R s s) → (∀ s1 s2 s3, R s1 s2 → R s2 s3 → R s1 s3) →
  (∀ a, a ∈ l → ∀ s, ∃ b s', f a s = (Returned b, s') ∧ R s s') →
  ∃ bs s', Promise_all (map f l) s = (Returned bs, s') ∧ R s s'.
Proof.
  intros Hrefl Htrans. revert s. induction l as [|a l IH]; intros s Hf.
  - eexists _, _. split; [reflexivity|]. apply Hrefl.
  - rewrite map_cons, Promise_all_cons.
    destruct (Hf a ltac:(left) s) as (b & s1 & -> & H1).
    destruct (IH s1) as (bs & s2 & -> & H2).
    { intros a' Ha'. apply Hf. by right. }
    eexists _, _. split; [reflexivity|]. eauto.
Qed.

Lemma Promise_all_map_returns {A B} (f : A → M S B) (g : A → B)
    (h : A → S → S) l s :
  (∀ a, a ∈ l → ∀ s, f a s = (Returned (g a), h a s)) →
  Promise_all (map f l) s = (Returned (map g l), foldl (λ s a, h a s) s l).
Proof.
  revert s. induction l as [|a l IH]; intros s Hf.
  - reflexivity.
  - rewrite map_cons, Promise_all_cons, (Hf a ltac:(left) s).
    rewrite IH; [done|]. intros a' Ha'. apply Hf. by right.
Qed.


Lemma Array_map_Returned {A B} (f : A → M S B) l s bs s' :
  Array_map f l s = (Returned bs, s') →
  (∀ a s, ∃ e s1, f a s = (Thrown e, s1)) →
  l = [] ∧ bs = [] ∧ s' = s.
Proof.
  intros H Hf. destruct l as [|a l]; simpl in H.
  - by inversion H.
  - unfold bind in H. destruct (Hf a s) as (e & s1 & Ha). rewrite Ha in H. done.
Qed.
End ComputationLemmas.

Section Inversion.
Context {S : Type}.

Lemma always_throws_throw {A} e : always_throws (S := S) (throw (A := A) e).
Proof. intros s. by eexists _, _. Qed.

Lemma always_throws_bind {A B} (c : M S A) (k : A → M S B) :
  (∀ a, always_throws (k a)) → always_throws (bind c k).
Proof.
  intros Hk s. unfold bind. destruct (c s) as [[a|e] s1].
  - apply Hk.
  - by eexists _, _.
Qed.

Lemma try_catch_Returned {A} (body : M S A) handler s a s' :
  (∀ e, always_throws (handler e)) →
  try_catch body handler s = (Returned a, s') →
  body s = (Returned a, s').
Proof.
  intros Hh. unfold try_catch. destruct (body s) as [[b|e] s1]; [done|].
  destruct (Hh e s1) as (e' & s2 & ->). done.
Qed.

Lemma bind_Returned {A B} (c : M S A) (k : A → M S B) s b s' :
  bind c k s = (Returned b, s') →
  ∃ a s1, c s = (Returned a, s1) ∧ k a s1 = (Returned b, s').
Proof.
  unfold bind. destruct (c s) as [[a|e] s1]; [eauto|done].
Qed.
End Inversion.

Lemma declare_Returned {L W A} (l : L) (body : M (L * W) A) w a w' :
  declare l body w = (Returned a, w') →
  ∃ l', body (l, w) = (Returned a, (l', w')).
Proof.
  unfold declare. destruct (body (l, w)) as [r [l' w1]]. intros [= -> ->]. eauto.
Qed.

Lemma world_Returned {L W A} (c : M W A) (l : L) w a s' :
  world c (l, w) = (Returned a, s') →
  ∃ w', s' = (l, w') ∧ c w = (Returned a, w').
Proof.
  unfold world. destruct (c w) as [r w1]. intros [= -> <-]. eauto.
Qed.

(** A handler that ends in [throw]. *)
Ltac throws :=
  repeat first [apply always_throws_throw | apply always_throws_bind; intros].

(** One statement of a body that has returned. *)
Ltac inv_step H :=
  let a := fresh "a" in let s := fresh "s" in let H1 := fresh "Hstep" in
  apply bind_Returned in H as (a & s & H1 & H);
  first
    [ apply world_Returned in H1 as (? & -> & H1)
    | unfold assign in H1; injection H1 as <- <-
    | idtac ].

Ltac pure H := unfold ret, throw, lift in H; simplify_eq.

Section Secure.
Context {W P R : Type}.

(** C10: a function wrapped with [secure], called with neither the master
    flag nor a user, throws INVALID_SESSION_TOKEN and leaves the world as it
    was, whatever the callback is: the callback is not invoked.  Called with
    either, it does what the callback does on the request. *)
Theorem secure_spec (callback : CloudFunction W P R)
    (request : FunctionRequest P) (w : W) :
  (master request = false → user request = None →
     secure callback request w
     = (Thrown (ParseError INVALID_SESSION_TOKEN UserNeedsToBeAuthenticated), w)
     ∧ ∀ other : CloudFunction W P R,
         secure other request w = secure callback request w)
  ∧ (master request = true ∨ is_Some (user request) →
     secure callback request w = callback request w).
Proof.
  unfold secure, throw. split.
  - intros -> ->. done.
  - intros [-> | [u ->]]; [done|]. by destruct (master request).
Qed.
End Secure.

Lemma secure_spec_witness :
  secure counting anonymous 0
  = (Thrown (ParseError INVALID_SESSION_TOKEN UserNeedsToBeAuthenticated), 0)
  ∧ secure counting authenticated 0 = (Returned tt, 1).
Proof.
  split.
  - apply (proj1 (secure_spec counting anonymous 0)); reflexivity.
  - rewrite (proj2 (secure_spec counting authenticated 0)); [reflexivity|].
    right. eexists. reflexivity.
Defined.

Section Validate.
Variable env : Environment.

Lemma not_NoDup_lookup {A} `{EqDecision A} (l : list A) :
  ¬ NoDup l → ∃ i j x, i ≠ j ∧ l !! i = Some x ∧ l !! j = Some x.
Proof.
  induction l as [|x l IH]; intros Hnd.
  - destruct Hnd. constructor.
  - destruct (decide (x ∈ l)) as [Hin|Hnin].
    + apply list_elem_of_lookup in Hin as [k Hk].
      exists 0, (S k), x. done.
    + destruct IH as (i & j & y & Hij & Hi & Hj).
      { intros Hl. apply Hnd. by constructor. }
      exists (S i), (S j), y. split; [congruence|done].
Qed.

Lemma duplicated_NoDup items : duplicated items ↔ ¬ NoDup (map typeId items).
Proof.
  split.
  - intros (i & j & a & b & Hij & Hi & Hj & Hab). rewrite NoDup_alt. intros Hnd.
    apply Hij, (Hnd i j (typeId a)).
    + by rewrite list_lookup_fmap, Hi.
    + by rewrite list_lookup_fmap, Hj, Hab.
  - intros Hnd. apply not_NoDup_lookup in Hnd as (i & j & x & Hij & Hi & Hj).
    rewrite list_lookup_fmap in Hi, Hj.
    destruct (items !! i) as [a|] eqn:Ha; [|done].
    destruct (items !! j) as [b|] eqn:Hb; [|done].
    exists i, j, a, b. simpl in *. split_and!; [done..|congruence].
Qed.

Lemma exceeding_Forall items :
  exceeding env items
  ↔ ¬ Forall (λ a, (qty a ≤ MAX_CONTAINERS_QUANTITY_PER_REQUEST env)%Z) items.
Proof.
  rewrite <- Exists_Forall_neg by (intros a; lia).
  rewrite Exists_exists. unfold exceeding.
  split; intros (a & Ha & Hq); exists a; split; auto; lia.
Qed.

Lemma validateRegisterInput_forEach_outcome items typesMap :
  validateRegisterInput_forEach env typesMap items = Returned tt
  ∨ ∃ m, validateRegisterInput_forEach env typesMap items = Thrown (Error m)
         ∧ is_validation m = true.
Proof.
  revert typesMap. induction items as [|[t q] items IH]; intros typesMap; simpl.
  - by left.
  - case_bool_decide; [right; eauto|].
    destruct (q >? _)%Z; [right; eauto|]. apply IH.
Qed.

Lemma validateRegisterInput_forEach_returns items typesMap :
  validateRegisterInput_forEach env typesMap items = Returned tt
  ↔ (∀ a, a ∈ items → typesMap !! typeId a = None)
    ∧ NoDup (map typeId items)
    ∧ Forall (λ a, (qty a ≤ MAX_CONTAINERS_QUANTITY_PER_REQUEST env)%Z) items.
Proof.
  revert typesMap. induction items as [|[t q] items IH]; intros typesMap; simpl.
  - split; [intros _|done]. split_and!; [|constructor..].
    intros a Ha. by apply elem_of_nil in Ha.
  - case_bool_decide as Hseen.
    { split; [done|]. intros (Hfresh & _ & _).
      pose proof (Hfresh {| typeId := t; qty := q |} ltac:(left)) as Hfr.
      simpl in Hfr. rewrite Hfr in Hseen. by destruct Hseen. }
    destruct (Z.gtb_spec q (MAX_CONTAINERS_QUANTITY_PER_REQUEST env)) as [Hq|Hq].
    { split; [done|]. intros (_ & _ & Hall).
      apply Forall_cons in Hall as [Hle _]. simpl in Hle. lia. }
    rewrite IH. rewrite NoDup_cons, Forall_cons. simpl.
    apply eq_None_not_Some in Hseen.
    split.
    + intros (Hfresh & Hnd & Hall). split_and!; auto.
      * intros a [->|Ha]%elem_of_cons; [done|].
        specialize (Hfresh a Ha).
        rewrite lookup_insert_None in Hfresh. tauto.
      * intros (a & Hta & Ha)%list_elem_of_fmap.
        specialize (Hfresh a Ha). rewrite lookup_insert_None in Hfresh.
        destruct Hfresh as [_ Hne]. by apply Hne.
    + intros (Hfresh & (Hnin & Hnd) & _ & Hall). split_and!; auto.
      intros a Ha. rewrite lookup_insert_None. split.
      * apply Hfresh. by right.
      * intros Heq. apply Hnin, list_elem_of_fmap. eauto.
Qed.

Lemma validateRegisterInput_returns items :
  validateRegisterInput env items = Returned tt
  ↔ NoDup (map typeId items)
    ∧ Forall (λ a, (qty a ≤ MAX_CONTAINERS_QUANTITY_PER_REQUEST env)%Z) items.
Proof.
  unfold validateRegisterInput. rewrite validateRegisterInput_forEach_returns.
  split; [tauto|]. intros [? ?]. split_and!; auto.
Qed.

(** C8: [validateRegisterInput] throws, a validation error, if and only if
    two items of the input have the same waste-type id or the quantity of some
    item exceeds MAX_CONTAINERS_QUANTITY_PER_REQUEST; otherwise it returns. It
    is a function of its input alone. *)
Theorem validateRegisterInput_raises_iff items :
  ((∃ m, validateRegisterInput env items = Thrown (Error m)
         ∧ is_validation m = true)
   ↔ duplicated items ∨ exceeding env items)
  ∧ (validateRegisterInput env items = Returned tt
     ↔ ¬ (duplicated items ∨ exceeding env items)).
Proof.
  rewrite duplicated_NoDup, exceeding_Forall.
  pose proof (validateRegisterInput_returns items) as Hret.
  destruct (validateRegisterInput_forEach_outcome items ∅) as [Hok|(m & Hm & Hv)];
    fold (validateRegisterInput env items) in *.
  - split.
    + split; [intros (m & Hm & _); congruence|].
      apply Hret in Hok. tauto.
    + split; [|done]. apply Hret in Hok. tauto.
  - assert (¬ (NoDup (map typeId items)
        ∧ Forall (λ a, (qty a ≤ MAX_CONTAINERS_QUANTITY_PER_REQUEST env)%Z) items))
      as Hnot.
    { rewrite <- Hret. congruence. }
    split.
    + split; [|eauto]. intros _.
      destruct (decide (NoDup (map typeId items))); [|by left].
      right. tauto.
    + split; [congruence|]. tauto.
Qed.
End Validate.

Lemma validateRegisterInput_raises_iff_witness :
  ∃ m, validateRegisterInput example_env [two_plastic; two_plastic] = Thrown (Error m)
       ∧ is_validation m = true.
Proof.
  apply (proj1 (validateRegisterInput_raises_iff example_env
                  [two_plastic; two_plastic])).
  left. exists 0, 1, two_plastic, two_plastic. split_and!; [lia|reflexivity..].
Defined.

Section Recover.
Variable env : Environment.

Lemma getWasteTypesFromIds_returns (items : list RecoverInput) w :
  (∀ a, a ∈ items → is_Some (db_WasteType w !! typeId a)) →
  ∃ wasteTypes,
    getWasteTypesFromIds (map typeId items) w = (Returned wasteTypes, w)
    ∧ ∀ a, a ∈ items → wasteTypes !! typeId a = db_WasteType w !! typeId a.
Proof.
  intros Hall. unfold getWasteTypesFromIds.
  set (f := λ typeId : string,
    let* wasteType := gets (λ w, db_WasteType w !! typeId) in
    match wasteType with
    | Some wasteType => ret (typeId, wasteType)
    | None => throw (Error (WasteTypeNotFound typeId))
    end).
  assert (∃ found, Promise_all (map f (map typeId items)) w = (Returned found, w)
          ∧ ∀ k, list_to_map (M := gmap string WasteType) found !! k
                 = if decide (k ∈ map typeId items) then db_WasteType w !! k else None)
    as (found & Hfound & Hlookup).
  { clear -Hall. induction items as [|a items IH].
    - exists []. split; [done|]. intros k. simpl. by rewrite lookup_empty.
    - destruct IH as (found & Hfound & Hlookup).
      { intros a' Ha'. apply Hall. by right. }
      destruct (Hall a ltac:(left)) as [wt Hwt].
      exists ((typeId a, wt) :: found). split.
      + rewrite !map_cons, Promise_all_cons. unfold f at 1. run. rewrite Hwt.
        simpl. by rewrite Hfound.
      + intros k. simpl. rewrite lookup_insert, Hlookup.
        destruct (decide (typeId a = k)) as [<-|Hne].
        * rewrite decide_True by left. done.
        * destruct (decide (k ∈ map typeId items)) as [Hin|Hnin].
          -- rewrite decide_True by (by right). done.
          -- rewrite decide_False; [done|].
             intros [?|?]%elem_of_cons; congruence. }
  exists (list_to_map found). split.
  - run. by rewrite Hfound.
  - intros a Ha. rewrite Hlookup, decide_True; [done|].
    apply list_elem_of_fmap. eauto.
Qed.

Lemma createContainers_returns n wasteType s number user w :
  ∃ cs w', createContainers n wasteType s number user w = (Returned cs, w')
    ∧ db_Transaction w' = db_Transaction w ∧ db_Stock w' = db_Stock w
    ∧ sequences w' = sequences w.
Proof.
  revert w. induction n as [|n IH]; intros w; simpl.
  - eexists _, _. split; [reflexivity|]. done.
  - run.
    match goal with |- context [createContainers n _ _ _ _ ?w1] =>
      destruct (IH w1) as (cs & w' & -> & ? & ? & ?) end.
    eexists _, _. split; [reflexivity|]. done.
Qed.

Lemma stockOf_addStock w user typeId qty u t :
  stockOf (addStock user typeId qty w) u t
  = if decide ((user, typeId) = (u, t)) then (stockOf w u t + qty)%Z
    else stockOf w u t.
Proof.
  unfold stockOf, addStock. simpl. rewrite lookup_insert.
  destruct (decide ((user, typeId) = (u, t))) as [[= -> ->]|]; done.
Qed.

Lemma stockOf_addStocks (items : list RecoverInput) user w :
  NoDup (map typeId items) →
  (∀ a, a ∈ items →
     stockOf (addStocks user items w) user (typeId a)
     = (stockOf w user (typeId a) + qty a)%Z)
  ∧ (∀ u t, u ≠ user ∨ t ∉ map typeId items →
       stockOf (addStocks user items w) u t = stockOf w u t).
Proof.
  unfold addStocks.
  revert w. induction items as [|a items IH]; intros w Hnd; simpl.
  - split; [|done]. intros a Ha. by apply elem_of_nil in Ha.
  - apply NoDup_cons in Hnd as [Hnin Hnd].
    destruct (IH (addStock user (typeId a) (qty a) w) Hnd) as (Hin & Hout).
    split.
    + intros a' [->|Ha']%elem_of_cons.
      * rewrite Hout by (by right). rewrite stockOf_addStock, decide_True; done.
      * rewrite (Hin a' Ha'), stockOf_addStock, decide_False; [done|].
        intros [= Heq]. apply Hnin. rewrite Heq. apply list_elem_of_fmap. eauto.
    + intros u t Hut. rewrite Hout.
      * rewrite stockOf_addStock, decide_False; [done|].
        intros [= <- <-]. destruct Hut as [?|Hut]; [done|]. apply Hut. left.
      * destruct Hut as [?|Hut]; [by left|]. right. intros ?. apply Hut. by right.
Qed.

Lemma addStocks_frame (items : list RecoverInput) user w :
  db_Transaction (addStocks user items w) = db_Transaction w
  ∧ sequences (addStocks user items w) = sequences w
  ∧ db_Container (addStocks user items w) = db_Container w.
Proof.
  unfold addStocks. revert w. induction items as [|a items IH]; intros w; simpl.
  - done.
  - destruct (IH (addStock user (typeId a) (qty a) w)) as (-> & -> & ->). done.
Qed.

Lemma ledger_untouched_refl w : ledger_untouched w w.
Proof. done. Qed.

Lemma ledger_untouched_trans w1 w2 w3 :
  ledger_untouched w1 w2 → ledger_untouched w2 w3 → ledger_untouched w1 w3.
Proof. intros (? & ? & ?) (? & ? & ?). split_and!; congruence. Qed.

Lemma createContainersOfType_all (items : list RecoverInput)
    (wasteTypes : gmap string WasteType) number user w :
  (∀ a, a ∈ items → is_Some (wasteTypes !! typeId a)) →
  ∃ containers w',
    Promise_all (map (λ '{| typeId := typeId; qty := qty |},
      createContainersOfType (wasteTypes !! typeId) qty RECOVERED number user)
      items) w = (Returned containers, w')
    ∧ ledger_untouched w w'.
Proof.
  intros Hall. apply Promise_all_returns_rel.
  - apply ledger_untouched_refl.
  - apply ledger_untouched_trans.
  - intros [t q] Ha s. destruct (Hall _ Ha) as [wt Hwt]. simpl in Hwt.
    rewrite Hwt. simpl.
    destruct (createContainers_returns (Z.to_nat q) wt RECOVERED number user s)
      as (cs & s' & -> & ? & ? & ?).
    eexists _, _. split; [reflexivity|]. done.
Qed.

Lemma createTransactionDetail_all transaction user (containers : list Container) w :
  (∀ d, acceptsDetail env d = true) →
  ∃ details w',
    Promise_all (map (λ container,
      createTransactionDetail env transaction container user) containers) w
    = (Returned details, w')
    ∧ ledger_untouched w w'.
Proof.
  intros Hall. apply Promise_all_returns_rel.
  - apply ledger_untouched_refl.
  - apply ledger_untouched_trans.
  - intros c _ s. unfold createTransactionDetail, TransactionDetail_save.
    run. rewrite Hall. simpl. eexists _, _. split; [reflexivity|]. done.
Qed.

Lemma incrementStock_all (items : list RecoverInput)
    (wasteTypes : gmap string WasteType) user w :
  (∀ a, a ∈ items →
     ∃ wasteType, wasteTypes !! typeId a = Some wasteType
                  ∧ wasteTypeId wasteType = typeId a) →
  Promise_all (map (λ input,
    incrementStock (wasteTypes !! typeId input) user (qty input)) items) w
  = (Returned (map (λ _, tt) items), addStocks user items w).
Proof.
  intros Hall. unfold addStocks.
  apply (Promise_all_map_returns _ (λ _, tt)
           (λ a w, addStock user (typeId a) (qty a) w)).
  intros a Ha s. destruct (Hall a Ha) as (wt & -> & <-). done.
Qed.

(** C7: a valid request of [registerRecover] (no duplicate waste-type id,
    every quantity within the maximum, every waste type known, a store that
    accepts the saves) returns a transaction of type RECOVER whose number no
    other transaction of the ledger has, and the stock counter of the requester
    for the waste type of each line has grown by the quantity of that line; no
    other counter has changed. *)
Theorem registerRecover_valid (items : list RecoverInput) (user : string) (w : World) :
  NoDup (map typeId items) →
  Forall (λ a, (qty a ≤ MAX_CONTAINERS_QUANTITY_PER_REQUEST env)%Z) items →
  (∀ a, a ∈ items →
     ∃ wasteType, db_WasteType w !! typeId a = Some wasteType
                  ∧ wasteTypeId wasteType = typeId a) →
  (∀ t, acceptsTransaction env t (JsString (getSessionToken user)) = true) →
  (∀ d, acceptsDetail env d = true) →
  numbered w →
  ∃ transaction w',
    registerRecover env (Some items) user w = (Returned transaction, w')
    ∧ transaction_type transaction = Some RECOVER
    ∧ db_Transaction w' !! transaction_id transaction
      = Some (set_details [] transaction)
    ∧ (∀ k t, db_Transaction w' !! k = Some t → k ≠ transaction_id transaction →
         transaction_number t ≠ transaction_number transaction)
    ∧ numbered w'
    ∧ (∀ a, a ∈ items →
         stockOf w' user (typeId a) = (stockOf w user (typeId a) + qty a)%Z)
    ∧ (∀ u t, u ≠ user ∨ t ∉ map typeId items → stockOf w' u t = stockOf w u t).
Proof.
  intros Hnd Hmax Htypes Htx Hdetail Hnum.
  destruct (getWasteTypesFromIds_returns items w) as (wasteTypes & HwasteTypes & Hget).
  { intros a Ha. destruct (Htypes a Ha) as (wt & -> & _). eauto. }
  unfold registerRecover. simpl default.
  unfold createTransaction, getValueForNextSequence, Transaction_save_new, getUserStock.
  run.
  rewrite (proj2 (validateRegisterInput_returns env items)) by done.
  rewrite HwasteTypes. rewrite Htx. simpl.
  set (transaction := {| transaction_id := fresh (dom (db_Transaction w)) |}).
  set (w1 := with_db_Transaction _ _).
  destruct (createContainersOfType_all items wasteTypes
              (default 0 (sequences w !! "Transaction") + 1)%Z user w1)
    as (containers & w2 & -> & Ht2 & Hs2 & Hq2).
  { intros a Ha. rewrite (Hget a Ha). destruct (Htypes a Ha) as (wt & -> & _). eauto. }
  destruct (createTransactionDetail_all transaction user (concat containers) w2 Hdetail)
    as (details & w3 & -> & Ht3 & Hs3 & Hq3).
  rewrite incrementStock_all.
  2:{ intros a Ha. rewrite (Hget a Ha). auto. }
  destruct (addStocks_frame items user w3) as (Ht4 & Hq4 & _).
  destruct (stockOf_addStocks items user w3 Hnd) as (Hin & Hout).
  assert (∀ u t, stockOf w3 u t = stockOf w u t) as Hstock.
  { intros u t. unfold stockOf. by rewrite Hs3, Hs2. }
  assert (db_Transaction (addStocks user items w3)
          = <[transaction_id transaction := transaction]> (db_Transaction w)) as Hledger.
  { by rewrite Ht4, Ht3, Ht2. }
  assert (sequences (addStocks user items w3)
          = <["Transaction" := (default 0 (sequences w !! "Transaction") + 1)%Z]>
              (sequences w)) as Hseq.
  { by rewrite Hq4, Hq3, Hq2. }
  eexists _, _. split; [reflexivity|]. simpl.
  split_and!.
  - done.
  - rewrite Hledger. apply lookup_insert_eq.
  - intros k t. rewrite Hledger. intros Hk Hne.
    rewrite lookup_insert_ne in Hk by done.
    apply Hnum in Hk. lia.
  - intros k t. rewrite Hledger, Hseq, lookup_insert_eq. simpl.
    rewrite lookup_insert. case_decide as Hk.
    + intros [= <-]. simpl. lia.
    + intros Ht%Hnum. lia.
  - intros a Ha. by rewrite Hin, Hstock.
  - intros u t Hut. by rewrite Hout, Hstock.
Qed.

(** C9: [registerRecover] called with the empty list, or without its first
    argument, returns a transaction of type RECOVER addressed to the requester,
    with no details; it creates no container and no detail and changes no stock
    counter. *)
Theorem registerRecover_empty (containersInput : option (list RecoverInput))
    (user : string) (w : World) :
  containersInput = None ∨ containersInput = Some [] →
  (∀ t, acceptsTransaction env t (JsString (getSessionToken user)) = true) →
  ∃ transaction w',
    registerRecover env containersInput user w = (Returned transaction, w')
    ∧ transaction_type transaction = Some RECOVER
    ∧ transaction_to transaction = Some user
    ∧ transaction_details transaction = []
    ∧ db_Transaction w'
      = <[transaction_id transaction := transaction]> (db_Transaction w)
    ∧ db_Container w' = db_Container w
    ∧ db_TransactionDetail w' = db_TransactionDetail w
    ∧ db_Stock w' = db_Stock w.
Proof.
  intros Hinput Haccepts.
  assert (default [] containersInput = []) as Hdefault
    by (by destruct Hinput as [-> | ->]).
  unfold registerRecover. rewrite Hdefault.
  unfold createTransaction, getValueForNextSequence, Transaction_save_new,
    getWasteTypesFromIds, getUserStock, validateRegisterInput.
  run. rewrite Haccepts. simpl.
  eexists _, _. split; [reflexivity|]. simpl. done.
Qed.
End Recover.

Lemma numbered_empty_world : numbered empty_world.
Proof. unfold numbered. apply (bool_decide_unpack _). vm_compute. exact I. Defined.

Lemma registerRecover_valid_witness :
  ∃ transaction w',
    registerRecover example_env (Some [two_plastic]) "A" empty_world
    = (Returned transaction, w')
    ∧ transaction_type transaction = Some RECOVER
    ∧ db_Transaction w' !! transaction_id transaction
      = Some (set_details [] transaction)
    ∧ (∀ k t, db_Transaction w' !! k = Some t → k ≠ transaction_id transaction →
         transaction_number t ≠ transaction_number transaction)
    ∧ numbered w'
    ∧ (∀ a, a ∈ [two_plastic] →
         stockOf w' "A" (typeId a) = (stockOf empty_world "A" (typeId a) + qty a)%Z)
    ∧ (∀ u t, u ≠ "A" ∨ t ∉ map typeId [two_plastic] →
         stockOf w' u t = stockOf empty_world u t).
Proof.
  apply (registerRecover_valid example_env [two_plastic] "A" empty_world).
  - apply (bool_decide_unpack _). vm_compute. exact I.
  - repeat constructor. simpl. lia.
  - intros a Ha. apply list_elem_of_singleton in Ha as ->.
    exists plastic. split; reflexivity.
  - intros t. reflexivity.
  - intros d. reflexivity.
  - exact numbered_empty_world.
Defined.

Lemma registerRecover_empty_witness :
  ∃ transaction w',
    registerRecover example_env None "A" empty_world = (Returned transaction, w')
    ∧ transaction_type transaction = Some RECOVER
    ∧ transaction_to transaction = Some "A"
    ∧ transaction_details transaction = []
    ∧ db_Transaction w'
      = <[transaction_id transaction := transaction]> (db_Transaction empty_world)
    ∧ db_Container w' = db_Container empty_world
    ∧ db_TransactionDetail w' = db_TransactionDetail empty_world
    ∧ db_Stock w' = db_Stock empty_world.
Proof.
  apply (registerRecover_empty example_env None "A" empty_world).
  - left. reflexivity.
  - intros t. reflexivity.
Defined.

Section Transfer.
Variable env : Environment.

Lemma findContainerById_all (ids : list nat) user w :
  ∃ r, Promise_all (map (λ containerId, findContainerById containerId user) ids) w
       = (r, w)
    ∧ match r with
      | Returned containers =>
          Forall2 (λ id container, db_Container w !! id = Some container)
            ids containers
      | Thrown e =>
          ∃ id, id ∈ ids ∧ db_Container w !! id = None
                ∧ e = Error (ContainerNotFound id)
      end.
Proof.
  induction ids as [|id ids (r & Hr & IH)].
  - exists (Returned []). split; [done|]. constructor.
  - rewrite map_cons, Promise_all_cons.
    assert (findContainerById id user w
            = (match db_Container w !! id with
               | Some c => Returned c
               | None => Thrown (Error (ContainerNotFound id))
               end, w)) as ->.
    { unfold findContainerById. run. by destruct (db_Container w !! id). }
    rewrite Hr. destruct (db_Container w !! id) as [c|] eqn:Hid; simpl.
    + destruct r as [cs|e].
      * eexists. split; [reflexivity|]. by constructor.
      * eexists. split; [reflexivity|]. destruct IH as (id' & ? & ? & ?).
        exists id'. split_and!; auto. by right.
    + eexists. split; [reflexivity|]. exists id. split_and!; auto. left.
Qed.



Lemma findRawTransaction_Returned id user master w transaction w' :
  findRawTransaction id user master w = (Returned transaction, w') →
  w' = w ∧ db_Transaction w !! id = Some transaction.
Proof.
  unfold findRawTransaction, Query_get_Transaction. run.
  destruct (db_Transaction w !! id); simpl; [|done]. by intros [= -> ->].
Qed.

Lemma validateTransferAcceptRejectRequest_Returned request user u :
  validateTransferAcceptRejectRequest request user = Returned u →
  transaction_type request = Some TRANSFER_REQUEST
  ∧ transaction_expiredAt request = None
  ∧ transaction_to request = Some user.
Proof.
  unfold validateTransferAcceptRejectRequest.
  case_bool_decide as Htype; [done|].
  destruct (transaction_expiredAt request); [done|].
  destruct (transaction_to request) as [to|]; [|done].
  case_bool_decide as Hto; [done|]. intros _.
  split_and!; [|done|].
  - by destruct (decide (transaction_type request = Some TRANSFER_REQUEST)).
  - by destruct (decide (to = user)) as [->|].
Qed.

(** What [createTransaction] has done when it returns. *)
Lemma createTransaction_Returned attributes sessionToken w transaction w' :
  createTransaction env attributes sessionToken w = (Returned transaction, w') →
  ∃ a,
    destructure attributes = Returned a
    ∧ transaction
      = {| transaction_id := fresh (dom (db_Transaction w));
           transaction_type := attr_type a;
           transaction_from := attr_from a;
           transaction_to := attr_to a;
           transaction_number := default 0%Z (sequences w !! "Transaction") + 1;
           transaction_recyclingCenter := attr_recyclingCenter a;
           transaction_reason := attr_reason a;
           transaction_relatedTo := None;
           transaction_expiredAt := None;
           transaction_details := [] |}
    ∧ w' = with_db_Transaction
             <[fresh (dom (db_Transaction w)) := transaction]>
             (with_sequences
                <["Transaction" := (default 0 (sequences w !! "Transaction") + 1)%Z]>
                w).
Proof.
  unfold createTransaction, getValueForNextSequence, Transaction_save_new. run.
  destruct (destructure attributes) as [a|]; simpl; [|done].
  destruct (acceptsTransaction env _ sessionToken); simpl; [|done].
  intros [= <- <-]. eauto.
Qed.

Lemma fresh_transaction (w : World) :
  db_Transaction w !! fresh (dom (db_Transaction w)) = None.
Proof. apply not_elem_of_dom, is_fresh. Qed.

(** The callbacks of the three terminal workflows leave the ledger alone. *)
Lemma createTransactionDetail_ledger transaction container user w r w' :
  createTransactionDetail env transaction container user w = (r, w') →
  db_Transaction w' = db_Transaction w.
Proof.
  unfold createTransactionDetail, TransactionDetail_save. run.
  destruct (acceptsDetail env _); simpl; by intros [= <- <-].
Qed.


Lemma cancel_callback_ledger transaction user to container w r w' :
  (let* container := Container_set_status container RECOVERED in
   Promise_call
     (revokeReadAndWritePermissionsToUser "Container" (containerId container) to)
     "then" (createTransactionDetail env transaction container user)) w = (r, w') →
  db_Transaction w' = db_Transaction w.
Proof.
  unfold Container_set_status, Promise_call, revokeReadAndWritePermissionsToUser.
  rewrite bool_decide_eq_true_2 by done. run.
  destruct to; simpl.
  - destruct (createTransactionDetail _ _ _ _ _) as [r1 w1] eqn:Hd.
    apply createTransactionDetail_ledger in Hd.
    destruct r1; intros [= <- <-]; by rewrite Hd.
  - by intros [= <- <-].
Qed.

Lemma accept_callback_throws transaction user from to container w :
  ∃ e w',
    (let* container := Container_set_status container TRANSFERRED in
     Promise_call (moveStock (containerType container) from to 1)
       "createTransactionDetail"
       (createTransactionDetail env transaction container user)) w
    = (Thrown e, w')
    ∧ e = TypeError (IsNotAFunction "createTransactionDetail")
    ∧ db_Transaction w' = db_Transaction w
    ∧ db_TransactionDetail w' = db_TransactionDetail w.
Proof.
  unfold Container_set_status, Promise_call, moveStock.
  rewrite bool_decide_eq_false_2 by done. run.
  destruct from, to; simpl; eexists _, _; split_and!; reflexivity.
Qed.

Lemma consumed transactionId request (m : gmap nat Transaction) (k : nat) t :
  m !! transactionId = Some request →
  transaction_id request = transactionId →
  m !! k = None →
  alter (set_expiredAt (Some (now env))) (transaction_id request)
    (alter (set_relatedTo (Some (transaction_id request))) k (<[k := t]> m))
  !! transactionId
  = Some (set_expiredAt (Some (now env)) request).
Proof.
  intros Hrequest Hid Hk. rewrite Hid.
  assert (k ≠ transactionId) by congruence.
  rewrite lookup_alter_eq, lookup_alter_ne, lookup_insert_ne, Hrequest by done.
  done.
Qed.



(** [registerTransferAccept] returns for a request without containers only:
    it has then created no detail, flipped no container and moved no stock. *)
Lemma registerTransferAccept_Returned transactionId user w tx w' :
  registerTransferAccept env transactionId user w = (Returned tx, w') →
  transaction_details tx = []
  ∧ db_Container w' = db_Container w
  ∧ db_TransactionDetail w' = db_TransactionDetail w
  ∧ db_Stock w' = db_Stock w.
Proof.
  intros H. unfold registerTransferAccept in H.
  apply declare_Returned in H as [l' H].
  apply try_catch_Returned in H; [|intros; throws].
  inv_step H. apply findRawTransaction_Returned in Hstep as [-> Hrequest].
  inv_step H. inv_step H.
  unfold lift in Hstep. injection Hstep as _ <-.
  inv_step H. apply createTransaction_Returned in Hstep as (attrs & _ & -> & ->).
  inv_step H. inv_step H. inv_step H. inv_step H. inv_step H. inv_step H.
  unfold Transaction_set in Hstep, Hstep0. unfold findContainersByTransaction in Hstep1.
  revert Hstep Hstep0 Hstep1. run. intros [= <- <-] [= <- <-] [= <- <-].
  apply Array_map_Returned in Hstep2 as (_ & -> & ->).
  2:{ intros c s. edestruct accept_callback_throws as (e & s1 & Heq & _). eauto. }
  injection H as <- <- <-. done.
Qed.

(** What [registerTransferCancel] has done when it returns: the transaction
    it created and returns was built from a [Parse.User], the request is
    consumed. *)
Lemma registerTransferCancel_Returned transactionId user w tx w' :
  keyed w →
  registerTransferCancel env transactionId user w = (Returned tx, w') →
  (∃ request, db_Transaction w' !! transactionId = Some request
     ∧ transaction_id request = transactionId
     ∧ transaction_type request = Some TRANSFER_REQUEST
     ∧ transaction_expiredAt request = Some (now env))
  ∧ transaction_type tx = None
  ∧ transaction_from tx = None
  ∧ transaction_to tx = None
  ∧ transaction_relatedTo tx = Some transactionId.
Proof.
  intros Hkeyed H. unfold registerTransferCancel in H.
  apply declare_Returned in H as [l' H].
  apply try_catch_Returned in H; [|intros; throws].
  inv_step H. apply findRawTransaction_Returned in Hstep as [-> Hrequest].
  inv_step H. inv_step H.
  case_bool_decide as Htype; [done|]. injection Hstep as <- <-.
  assert (transaction_type a = Some TRANSFER_REQUEST) as Htype'
    by (by destruct (decide (transaction_type a = Some TRANSFER_REQUEST))).
  inv_step H. destruct (transaction_expiredAt a) eqn:Hexpired; [done|].
  injection Hstep as <- <-.
  inv_step H. destruct (transaction_from a) as [from|] eqn:Hfrom; [|done].
  case_bool_decide; [done|]. injection Hstep as <- <-.
  inv_step H. apply createTransaction_Returned in Hstep as (attrs & Hattrs & -> & ->).
  simpl in Hattrs. injection Hattrs as <-.
  inv_step H. inv_step H. inv_step H. inv_step H. inv_step H. inv_step H.
  unfold Transaction_set in Hstep, Hstep0. unfold findContainersByTransaction in Hstep1.
  revert Hstep Hstep0 Hstep1. run. intros [= <- <-] [= <- <-] [= <- <-].
  eapply (Promise_all_frame _ db_Transaction) in Hstep2;
    [|intros ????; apply cancel_callback_ledger].
  injection H as <- <- <-.
  pose proof (Hkeyed _ _ Hrequest) as Hid.
  split; [|simpl; split_and!; congruence].
  exists (set_expiredAt (Some (now env)) a).
  rewrite Hstep2. simpl. split_and!; simpl; auto.
  apply consumed; auto using fresh_transaction.
Qed.


(** C3, what the code does: the transaction that [registerTransferCancel]
    creates and returns has no type, no [from] and no [to]; only [relatedTo]
    is as the claim has it. *)
Theorem registerTransferCancel_not_a_cancel (transactionId : nat) (user : string)
    (w w' : World) (transaction : Transaction) :
  keyed w →
  registerTransferCancel env transactionId user w = (Returned transaction, w') →
  transaction_type transaction = None
  ∧ transaction_from transaction = None
  ∧ transaction_to transaction = None
  ∧ transaction_relatedTo transaction = Some transactionId.
Proof. intros Hkeyed H. eapply registerTransferCancel_Returned; eauto. Qed.

Lemma set_expiredAt_unset date request :
  transaction_expiredAt request = None →
  set_expiredAt None (set_expiredAt date request) = request.
Proof. destruct request. simpl. by intros ->. Qed.

(** The compensation of a terminal workflow gives the ledger back. *)
Lemma ledger_restored (m : gmap nat Transaction) k t request date f :
  m !! k = None →
  m !! transaction_id request = Some request →
  transaction_expiredAt request = None →
  alter (λ _, set_expiredAt None (set_expiredAt date request))
    (transaction_id request)
    (alter (set_expiredAt None) (transaction_id request)
       (delete k
          (alter (set_expiredAt date) (transaction_id request)
             (alter f k (<[k := t]> m)))))
  = m.
Proof.
  intros Hk Hrequest Hexpired.
  assert (k ≠ transaction_id request) as Hne by congruence.
  rewrite set_expiredAt_unset by done.
  apply map_eq. intros i.
  destruct (decide (i = transaction_id request)) as [->|Hi].
  - rewrite lookup_alter_eq, lookup_alter_eq, lookup_delete_ne, lookup_alter_eq,
      lookup_alter_ne, lookup_insert_ne, Hrequest by done. done.
  - rewrite !lookup_alter_ne by done.
    destruct (decide (i = k)) as [->|Hik].
    + by rewrite lookup_delete_eq.
    + rewrite lookup_delete_ne, !lookup_alter_ne, lookup_insert_ne by done. done.
Qed.

Lemma rollbackContainersToStatus_returns containers s w :
  rollbackContainersToStatus containers s None w
  = (Returned tt, with_db_Container (rolled_back s containers) w).
Proof.
  unfold rollbackContainersToStatus, bind.
  rewrite (Promise_all_map_returns _ (λ _, tt)
             (λ c, with_db_Container
                     (λ m, alter (λ _, set_status s c) (containerId c)
                             (alter (set_status s) (containerId c) m)))).
  2:{ intros c _ s0. reflexivity. }
  unfold ret. f_equal. unfold rolled_back.
  revert w. induction containers as [|c cs IH]; intros w; simpl.
  - by destruct w.
  - rewrite IH. reflexivity.
Qed.

Lemma Promise_call_not_then {A} (promise : M World unit) member
    (callback : M World A) s :
  member ≠ "then" →
  Promise_call promise member callback s
  = (Thrown (TypeError (IsNotAFunction member)), (promise s).2).
Proof.
  intros Hne. unfold Promise_call. rewrite bool_decide_eq_false_2 by done.
  by destruct (promise s).
Qed.

Lemma moveStock_frame wasteType from to qty w :
  db_Transaction (moveStock wasteType from to qty w).2 = db_Transaction w
  ∧ db_TransactionDetail (moveStock wasteType from to qty w).2
    = db_TransactionDetail w
  ∧ db_Container (moveStock wasteType from to qty w).2 = db_Container w.
Proof. by destruct from, to. Qed.

(** C2, what the code does: a valid [registerTransferAccept] on a request
    with a container throws the [TypeError] of the missing member, creates no
    detail, and leaves the ledger as it was: no TRANSFER_ACCEPT transaction
    remains and the request is not consumed. *)
Theorem registerTransferAccept_throws (transactionId : nat) (user : string)
    (w : World) (request : Transaction) :
  db_Transaction w !! transactionId = Some request →
  transaction_id request = transactionId →
  transaction_type request = Some TRANSFER_REQUEST →
  transaction_expiredAt request = None →
  transaction_to request = Some user →
  (∀ t, acceptsTransaction env t (JsString (getSessionToken user)) = true) →
  (∃ detail container,
      detail ∈ db_TransactionDetail w
      ∧ detailTransaction detail = transactionId
      ∧ db_Container w !! detailContainer detail = Some container) →
  ∃ w',
    registerTransferAccept env transactionId user w
    = (Thrown (Error (TransactionCouldNotBeRegistered
                        (IsNotAFunction "createTransactionDetail"))), w')
    ∧ db_Transaction w' = db_Transaction w
    ∧ db_TransactionDetail w' = db_TransactionDetail w.
Proof.
  intros Hrequest Hid Htype Hexpired Hto Haccepts (detail & container & Hin & Hd & Hc).
  unfold registerTransferAccept, findRawTransaction, Query_get_Transaction,
    validateTransferAcceptRejectRequest, createTransaction,
    getValueForNextSequence, Transaction_save_new, Transaction_set,
    findContainersByTransaction.
  run. rewrite Hrequest. simpl. rewrite Htype, Hexpired, Hto. simpl.
  rewrite bool_decide_eq_false_2 by (intros ?; done).
  simpl. rewrite Haccepts. simpl.
  destruct (omap _ (filter _ (db_TransactionDetail w))) as [|c cs] eqn:Hcs.
  { exfalso. eapply (elem_of_nil container). rewrite <- Hcs.
    apply list_elem_of_omap. exists detail. split; [|done].
    apply list_elem_of_filter. split; [|done]. congruence. }
  simpl. unfold bind. simpl.
  rewrite Promise_call_not_then by done. simpl.
  rewrite rollbackContainersToStatus_returns. simpl.
  eexists. split; [reflexivity|]. simpl.
  match goal with |- context [moveStock ?a ?b ?c ?d ?s] =>
    destruct (moveStock_frame a b c d s) as (-> & -> & _) end.
  simpl. split; [|done].
  apply ledger_restored; auto using fresh_transaction. congruence.
Qed.
End Transfer.

Lemma keyed_requested_world : keyed requested_world.
Proof. unfold keyed. apply (bool_decide_unpack _). vm_compute. exact I. Defined.



Lemma registerTransferCancel_not_a_cancel_witness :
  ∃ transaction,
    (registerTransferCancel example_env 1 "A" requested_world).1
    = Returned transaction
    ∧ transaction_type transaction = None
    ∧ transaction_from transaction = None
    ∧ transaction_to transaction = None
    ∧ transaction_relatedTo transaction = Some 1.
Proof.
  eexists. split; [vm_compute; reflexivity|].
  eapply (registerTransferCancel_not_a_cancel example_env 1 "A" requested_world).
  - exact keyed_requested_world.
  - vm_compute. reflexivity.
Defined.

Lemma registerTransferAccept_throws_witness :
  ∃ w',
    registerTransferAccept example_env 1 "B" requested_world
    = (Thrown (Error (TransactionCouldNotBeRegistered
                        (IsNotAFunction "createTransactionDetail"))), w')
    ∧ db_Transaction w' = db_Transaction requested_world
    ∧ db_TransactionDetail w' = db_TransactionDetail requested_world.
Proof.
  eapply (registerTransferAccept_throws example_env 1 "B" requested_world).
  - vm_compute. reflexivity.
  - reflexivity.
  - reflexivity.
  - reflexivity.
  - reflexivity.
  - intros t. reflexivity.
  - eexists {| detailTransaction := 1; detailQty := 10; detailUnit := "kg";
               detailContainer := 0 |}, _.
    split_and!.
    + vm_compute. do 2 right. left.
    + reflexivity.
    + vm_compute. reflexivity.
Defined.

Section Transport.
Variable env : Environment.

Lemma findRecyclingCenterById_unchanged id w r w' :
  findRecyclingCenterById id w = (r, w') → w' = w.
Proof.
  unfold findRecyclingCenterById. run. case_bool_decide; by intros [= <- <-].
Qed.

Lemma canTransportContainer_all (containers : list Container) user w r w' :
  Promise_all (map (λ container, canTransportContainer env container user)
                 containers) w = (r, w') →
  w' = w.
Proof.
  apply (Promise_all_frame _ (λ w, w)).
  intros c s r0 s'. unfold canTransportContainer.
  destruct (canTransport env c user); by intros [= <- <-].
Qed.

Lemma flip_callback transaction user container w r w' :
  (let* container := Container_set_status container IN_TRANSIT in
   createTransactionDetail env transaction container user) w = (r, w') →
  db_Container w'
  = alter (set_status IN_TRANSIT) (containerId container) (db_Container w)
  ∧ db_Transaction w' = db_Transaction w
  ∧ notifications w' = notifications w.
Proof.
  unfold Container_set_status, createTransactionDetail, TransactionDetail_save. run.
  destruct (acceptsDetail env _); simpl; by intros [= <- <-].
Qed.

Lemma flip_all transaction user (containers : list Container) w r w' :
  Promise_all (map (λ container,
    let* container := Container_set_status container IN_TRANSIT in
    createTransactionDetail env transaction container user) containers) w = (r, w') →
  db_Container w' = in_transit containers (db_Container w)
  ∧ db_Transaction w' = db_Transaction w
  ∧ notifications w' = notifications w.
Proof.
  intros H. split_and!.
  - eapply (Promise_all_fold _ db_Container
              (λ c m, alter (set_status IN_TRANSIT) (containerId c) m)); [|exact H].
    intros ???? Hc. by apply flip_callback in Hc as (? & ? & ?).
  - eapply (Promise_all_frame _ db_Transaction); [|exact H].
    intros ???? Hc. by apply flip_callback in Hc as (? & ? & ?).
  - eapply (Promise_all_frame _ notifications); [|exact H].
    intros ???? Hc. by apply flip_callback in Hc as (? & ? & ?).
Qed.

(** C6, as the code has it: a [registerTransport] that returns has notified
    once, and the list of users it passed to the notifier is the list of the
    owners of the listed containers, in the order of the input, without the
    entries equal to the requester: an owner is in the list if and only if it
    is not the requester and owns a listed container. *)
Theorem registerTransport_notifies (containersInput : list nat) (to : option string)
    (user : string) (w w' : World) (transaction : Transaction) :
  registerTransport env containersInput to user w = (Returned transaction, w') →
  ∃ containers,
    Forall2 (λ id container, db_Container w !! id = Some container)
      containersInput containers
    ∧ notifications w'
      = notifications w
        ++ [ {| notifiedTransaction := transaction_id transaction;
                notifiedBy := user;
                notifiedUsers := filter (λ u, u ≠ user) (map createdBy containers) |} ]
    ∧ ∀ u, u ∈ filter (λ u, u ≠ user) (map createdBy containers)
           ↔ u ≠ user
             ∧ ∃ id container, id ∈ containersInput
                 ∧ db_Container w !! id = Some container
                 ∧ createdBy container = u.
Proof.
  intros H. unfold registerTransport in H.
  apply declare_Returned in H as [l' H].
  apply try_catch_Returned in H; [|intros; throws].
  inv_step H. destruct (falsy to); [done|]. pure Hstep.
  inv_step H. pose proof (findRecyclingCenterById_unchanged _ _ _ _ Hstep) as ->.
  inv_step H.
  destruct (findContainerById_all containersInput user w) as (r & Hr & Hall).
  rewrite Hr in Hstep0. injection Hstep0 as -> <-.
  inv_step H. inv_step H. inv_step H.
  destruct (negb _); [done|]. pure Hstep0.
  inv_step H. apply canTransportContainer_all in Hstep0 as ->.
  inv_step H. apply createTransaction_Returned in Hstep0 as (attrs & _ & -> & ->).
  inv_step H. inv_step H. apply flip_all in Hstep0 as (_ & _ & Hn).
  inv_step H. injection H as <- <- <-.
  unfold notifyTransport, notify in Hstep0.
  destruct (delivers env _); [|done]. injection Hstep0 as <- <-.
  eexists. split; [exact Hall|]. simpl. rewrite Hn. simpl. split; [done|].
  intros u. rewrite list_elem_of_filter, list_elem_of_fmap.
  split; intros [Hu Hc]; (split; [done|]).
  - destruct Hc as (c & -> & Hc). apply list_elem_of_lookup in Hc as [i Hi].
    destruct (Forall2_lookup_r _ _ _ _ _ Hall Hi) as (id & Hid & Hlookup).
    exists id, c. split_and!; auto. apply list_elem_of_lookup. eauto.
  - destruct Hc as (id & c & Hid & Hlookup & <-).
    apply list_elem_of_lookup in Hid as [i Hi].
    destruct (Forall2_lookup_l _ _ _ _ _ Hall Hi) as (c' & Hc' & Hlookup').
    exists c. split; [done|]. apply list_elem_of_lookup. exists i. congruence.
Qed.

Lemma set_status_same (c : Container) : set_status (status c) c = c.
Proof. by destruct c. Qed.

Lemma in_transit_lookup (containers : list Container) (m : gmap nat Container) k :
  in_transit containers m !! k
  = if decide (k ∈ map containerId containers)
    then set_status IN_TRANSIT <$> m !! k else m !! k.
Proof.
  unfold in_transit. revert m.
  induction containers as [|c cs IH]; intros m; cbn [foldl].
  - destruct (decide _) as [Hk|]; [by apply elem_of_nil in Hk|done].
  - rewrite IH. rewrite lookup_alter.
    destruct (decide (k ∈ map containerId cs)) as [Hin|Hnin];
      destruct (decide (containerId c = k)) as [Hk|Hk];
      destruct (decide (k ∈ map containerId (c :: cs))) as [Hin'|Hnin'];
      try done;
      try (by destruct Hnin'; simpl; subst; first [left | by right]);
      try (simpl in Hin'; apply elem_of_cons in Hin' as [?|?]; congruence).
    all: subst k; by destruct (m !! containerId c) as [[]|].
Qed.

Lemma rolled_back_cons s c (containers : list Container) (m : gmap nat Container) :
  rolled_back s (c :: containers) m
  = rolled_back s containers
      (alter (λ _, set_status s c) (containerId c)
         (alter (set_status s) (containerId c) m)).
Proof. reflexivity. Qed.

Lemma rolled_back_lookup_ne s (containers : list Container) (m : gmap nat Container) k :
  k ∉ map containerId containers → rolled_back s containers m !! k = m !! k.
Proof.
  revert m. induction containers as [|c cs IH]; intros m Hk; [done|].
  simpl in Hk. apply not_elem_of_cons in Hk as [Hne Hk].
  rewrite rolled_back_cons, IH by done. by rewrite !lookup_alter_ne.
Qed.

Lemma rolled_back_lookup s (containers : list Container) (m : gmap nat Container) k c0 :
  (∀ c, c ∈ containers → containerId c = k → c = c0) →
  k ∈ map containerId containers →
  rolled_back s containers m !! k = (λ _, set_status s c0) <$> m !! k.
Proof.
  revert m. induction containers as [|c cs IH]; intros m Hsame Hk.
  - by apply elem_of_nil in Hk.
  - rewrite rolled_back_cons.
    destruct (decide (k ∈ map containerId cs)) as [Hin|Hnin].
    + rewrite IH; [|intros c' Hc'; apply Hsame; by right|done].
      rewrite !lookup_alter.
      repeat case_decide; try subst k;
        first [by destruct (m !! containerId c) | by destruct (m !! k)].
    + rewrite rolled_back_lookup_ne by done.
      simpl in Hk. apply elem_of_cons in Hk as [->|?]; [|done].
      rewrite !lookup_alter_eq, (Hsame c) by (done || left).
      by destruct (m !! containerId c0).
Qed.

(** The two rollbacks of [registerTransport] undo its flips. *)
Lemma transport_rolled_back (containers : list Container) (m : gmap nat Container) :
  (∀ c, c ∈ containers → m !! containerId c = Some c) →
  (∀ c, c ∈ containers → status c = RECOVERED ∨ status c = TRANSFERRED) →
  rolled_back TRANSFERRED
    (filter (λ c, containerId c
                  ∈ map containerId (filter (λ c, status c = TRANSFERRED) containers))
       containers)
    (rolled_back RECOVERED
       (filter (λ c, containerId c
                     ∈ map containerId (filter (λ c, status c = RECOVERED) containers))
          containers)
       (in_transit containers m))
  = m.
Proof.
  intros Hstored Hstatus. apply map_eq. intros k.
  set (recovered := filter (λ c, containerId c ∈ map containerId
                              (filter (λ c, status c = RECOVERED) containers)) containers).
  set (transferred := filter (λ c, containerId c ∈ map containerId
                              (filter (λ c, status c = TRANSFERRED) containers)) containers).
  destruct (decide (k ∈ map containerId containers)) as [Hk|Hk].
  2:{ rewrite !rolled_back_lookup_ne, in_transit_lookup, decide_False; [done..| |].
      - intros (c & -> & [_ Hc]%list_elem_of_filter)%list_elem_of_fmap.
        apply Hk, list_elem_of_fmap. eauto.
      - intros (c & -> & [_ Hc]%list_elem_of_filter)%list_elem_of_fmap.
        apply Hk, list_elem_of_fmap. eauto. }
  apply list_elem_of_fmap in Hk as (c0 & -> & Hc0).
  assert (∀ c, c ∈ containers → containerId c = containerId c0 → c = c0) as Hsame.
  { intros c Hc Heq. apply Hstored in Hc. rewrite Heq, (Hstored c0 Hc0) in Hc.
    congruence. }
  assert (∀ s, status c0 = s →
            containerId c0 ∈ map containerId
              (filter (λ c, containerId c ∈ map containerId
                         (filter (λ c, status c = s) containers)) containers)) as Hin.
  { intros s Hs. apply list_elem_of_fmap. exists c0. split; [done|].
    apply list_elem_of_filter. split; [|done].
    apply list_elem_of_fmap. exists c0. split; [done|].
    apply list_elem_of_filter. done. }
  assert (∀ s, status c0 ≠ s →
            containerId c0 ∉ map containerId
              (filter (λ c, containerId c ∈ map containerId
                         (filter (λ c, status c = s) containers)) containers)) as Hout.
  { intros s Hs (c & Heq & [Hc Hc']%list_elem_of_filter)%list_elem_of_fmap.
    apply list_elem_of_fmap in Hc as (c' & Heq' & [Hs' Hc'']%list_elem_of_filter).
    rewrite (Hsame c' Hc'') in Hs' by congruence. done. }
  rewrite (Hstored c0 Hc0).
  destruct (Hstatus c0 Hc0) as [Hs|Hs].
  - rewrite rolled_back_lookup_ne by (apply Hout; congruence).
    rewrite (rolled_back_lookup _ _ _ _ c0).
    + rewrite in_transit_lookup, (Hstored c0 Hc0). case_decide; simpl;
        by rewrite <- Hs, set_status_same.
    + intros c [_ Hc]%list_elem_of_filter. by apply Hsame.
    + by apply Hin.
  - rewrite (rolled_back_lookup _ _ _ _ c0).
    + rewrite rolled_back_lookup_ne by (apply Hout; congruence).
      rewrite in_transit_lookup, (Hstored c0 Hc0). case_decide; simpl;
        by rewrite <- Hs, set_status_same.
    + intros c [_ Hc]%list_elem_of_filter. by apply Hsame.
    + by apply Hin.
Qed.

(** C5: whenever [registerTransport] throws, the registry of containers and
    the ledger are as they were before the call: a failure after the creation
    of the transaction and the flips has destroyed the transaction and put
    every container back in the status it had. *)
Theorem registerTransport_compensates (containersInput : list nat)
    (to : option string) (user : string) (w w' : World) (e : Exception) :
  keyed_containers w →
  registerTransport env containersInput to user w = (Thrown e, w') →
  db_Container w' = db_Container w
  ∧ db_Transaction w' = db_Transaction w
  ∧ ∃ detail, e = Error (TransactionCouldNotBeRegistered detail).
Proof.
  intros Hkeyed. unfold registerTransport. run.
  destruct (falsy to); simpl.
  { intros [= <- <-]. eauto. }
  destruct (findRecyclingCenterById _ w) as [[center|e0] w0] eqn:Hcenter;
    apply findRecyclingCenterById_unchanged in Hcenter as ->; simpl.
  2:{ intros [= <- <-]. eauto. }
  destruct (findContainerById_all containersInput user w) as (r & -> & Hall).
  destruct r as [containers|e0]; simpl.
  2:{ intros [= <- <-]. eauto. }
  destruct (forallb _ containers) eqn:Hcheck; simpl.
  2:{ intros [= <- <-]. eauto. }
  destruct (Promise_all (map (λ container, canTransportContainer env container user)
                           containers) w) as [[?|e0] w0] eqn:Hcan;
    apply canTransportContainer_all in Hcan as ->; simpl.
  2:{ intros [= <- <-]. eauto. }
  unfold createTransaction, getValueForNextSequence, Transaction_save_new. run.
  destruct (acceptsTransaction env _ _); simpl.
  2:{ intros [= <- <-]. eauto. }
  assert (∀ c, c ∈ containers → db_Container w !! containerId c = Some c) as Hstored.
  { intros c [i Hi]%list_elem_of_lookup.
    destruct (Forall2_lookup_r _ _ _ _ _ Hall Hi) as (k & _ & Hk).
    by rewrite (Hkeyed _ _ Hk). }
  assert (∀ c, c ∈ containers → status c = RECOVERED ∨ status c = TRANSFERRED)
    as Hstatus.
  { intros c Hc%list_elem_of_In. rewrite forallb_forall in Hcheck.
    apply Hcheck, bool_decide_eq_true in Hc.
    apply elem_of_cons in Hc as [?|Hc]; [by left|].
    apply elem_of_cons in Hc as [?|Hc]; [by right|]. by apply elem_of_nil in Hc. }
  match goal with |- context [Promise_all ?ps ?s] =>
    destruct (Promise_all ps s) as [[details|e0] w1] eqn:Hflip;
      apply flip_all in Hflip as (Hc & Ht & _)
  end; simpl.
  - unfold notifyTransport, notify. destruct (delivers env _); simpl; [done|].
    rewrite !rollbackContainersToStatus_returns. simpl.
    intros [= <- <-]. simpl. rewrite Hc, Ht. simpl.
    split_and!; [|apply delete_insert_id, fresh_transaction|eauto].
    by apply transport_rolled_back.
  - rewrite !rollbackContainersToStatus_returns. simpl.
    intros [= <- <-]. simpl. rewrite Hc, Ht. simpl.
    split_and!; [|apply delete_insert_id, fresh_transaction|eauto].
    by apply transport_rolled_back.
Qed.
End Transport.

Lemma keyed_containers_recovered_world : keyed_containers recovered_world.
Proof.
  unfold keyed_containers. apply (bool_decide_unpack _). vm_compute. exact I.
Defined.

Lemma registerTransport_notifies_witness :
  ∃ transaction w' containers,
    registerTransport example_env [0; 1] (Some "RC") "B" recovered_world
    = (Returned transaction, w')
    ∧ Forall2 (λ id container, db_Container recovered_world !! id = Some container)
        [0; 1] containers
    ∧ notifications w'
      = notifications recovered_world
        ++ [ {| notifiedTransaction := transaction_id transaction;
                notifiedBy := "B";
                notifiedUsers := filter (λ u, u ≠ "B") (map createdBy containers) |} ].
Proof.
  eexists _, _.
  assert (registerTransport example_env [0; 1] (Some "RC") "B" recovered_world
          = (Returned _, _)) as Hrun by (vm_compute; reflexivity).
  destruct (registerTransport_notifies example_env [0; 1] (Some "RC") "B"
              recovered_world _ _ Hrun) as (containers & Hall & Hnotified & _).
  exists containers. split_and!; [exact Hrun|exact Hall|exact Hnotified].
Defined.

(** C6, as the claim has it, fails when a user other than the requester owns
    two of the containers: user A is notified twice of the transport of its
    two containers by user B. *)
Lemma notified_twice :
  ¬ notifies_distinct_owners example_env [0; 1] (Some "RC") "B" recovered_world.
Proof.
  intros Hclaim.
  edestruct Hclaim as (notification & Hlast & Hnodup & _).
  { vm_compute. reflexivity. }
  vm_compute in Hlast. injection Hlast as <-. simpl in Hnodup.
  apply NoDup_cons in Hnodup as [Hnotin _]. apply Hnotin. left.
Qed.

Lemma registerTransport_compensates_witness :
  ∃ e w',
    registerTransport refusing_env [0; 1] (Some "RC") "A" recovered_world
    = (Thrown e, w')
    ∧ sequences w' !! "Transaction" = Some 2%Z
    ∧ db_Container w' = db_Container recovered_world
    ∧ db_Transaction w' = db_Transaction recovered_world
    ∧ ∃ detail, e = Error (TransactionCouldNotBeRegistered detail).
Proof.
  eexists _, _. split; [vm_compute; reflexivity|].
  split; [vm_compute; reflexivity|].
  eapply (registerTransport_compensates refusing_env [0; 1] (Some "RC") "A"
            recovered_world).
  - exact keyed_containers_recovered_world.
  - vm_compute. reflexivity.
Defined.

(** * Further properties of the code *)

(** ** Computations that keep an invariant *)

Section Keeps.
Context {S : Type} (I : S → Prop).

Lemma keeps_ret {A} (a : A) : keeps I (ret a).
Proof. by intros s r s' HI [= <- <-]. Qed.

Lemma keeps_throw {A} e : keeps I (throw (A := A) e).
Proof. by intros s r s' HI [= <- <-]. Qed.

Lemma keeps_lift {A} (o : Outcome A) : keeps I (lift o).
Proof. by intros s r s' HI [= <- <-]. Qed.

Lemma keeps_gets {A} (f : S → A) : keeps I (gets f).
Proof. by intros s r s' HI [= <- <-]. Qed.

Lemma keeps_modify (f : S → S) : (∀ s, I s → I (f s)) → keeps I (modify f).
Proof. intros Hf s r s' HI [= <- <-]. auto. Qed.

Lemma keeps_bind {A B} (c : M S A) (k : A → M S B) :
  keeps I c → (∀ a, keeps I (k a)) → keeps I (bind c k).
Proof.
  intros Hc Hk s r s' HI. unfold bind.
  destruct (c s) as [[a|e] s1] eqn:Hs.
  - apply (Hk a). eauto.
  - intros [= <- <-]. eauto.
Qed.

Lemma keeps_try_catch {A} (body : M S A) handler :
  keeps I body → (∀ e, keeps I (handler e)) → keeps I (try_catch body handler).
Proof.
  intros Hb Hh s r s' HI. unfold try_catch.
  destruct (body s) as [[a|e] s1] eqn:Hs.
  - intros [= <- <-]. eauto.
  - apply (Hh e). eauto.
Qed.

Lemma keeps_Promise_all {A} (ps : list (M S A)) :
  Forall (keeps I) ps → keeps I (Promise_all ps).
Proof.
  induction 1 as [|p ps Hp Hps IH]; intros s r s' HI.
  - by intros [= <- <-].
  - cbn [Promise_all]. destruct (p s) as [r1 s1] eqn:H1.
    destruct (Promise_all ps s1) as [r2 s2] eqn:H2.
    intros [= <- <-]. eapply IH; [|exact H2]. eauto.
Qed.

Lemma keeps_Promise_all_nil {A} : keeps I (Promise_all (A := A) []).
Proof. by apply keeps_Promise_all. Qed.

Lemma keeps_Promise_all_cons {A} (p : M S A) ps :
  keeps I p → keeps I (Promise_all ps) → keeps I (Promise_all (p :: ps)).
Proof.
  intros Hp Hps s r s' HI. cbn [Promise_all]. destruct (p s) as [r1 s1] eqn:H1.
  destruct (Promise_all ps s1) as [r2 s2] eqn:H2.
  intros [= <- <-]. eapply Hps; [|exact H2]. eauto.
Qed.

Lemma keeps_Promise_all_map {A B} (f : A → M S B) l :
  (∀ a, keeps I (f a)) → keeps I (Promise_all (map f l)).
Proof. intros Hf. apply keeps_Promise_all, Forall_fmap, Forall_forall. auto. Qed.

Lemma keeps_Array_map {A B} (f : A → M S B) l :
  (∀ a, keeps I (f a)) → keeps I (Array_map f l).
Proof.
  intros Hf. induction l as [|a l IH]; cbn [Array_map].
  - apply keeps_ret.
  - apply keeps_bind; [done|]. intros b. apply keeps_bind; [done|].
    intros bs. apply keeps_ret.
Qed.

Lemma keeps_Promise_call {A} (promise : M S unit) member (callback : M S A) :
  keeps I promise → keeps I callback → keeps I (Promise_call promise member callback).
Proof.
  intros Hp Hc. unfold Promise_call. case_bool_decide.
  - apply keeps_bind; auto.
  - intros s r s' HI. destruct (promise s) as [r1 s1] eqn:H1.
    intros [= <- <-]. eauto.
Qed.
End Keeps.

Section KeepsLocals.
Context {L : Type} (I : World → Prop).

Lemma keeps_world {A} (c : M World A) : keeps I c → keeps (on_world (L := L) I) (world c).
Proof.
  intros Hc [l w] r [l' w'] HI. unfold world.
  destruct (c w) as [r1 w1] eqn:H1. intros [= <- <- <-]. unfold on_world in *. eauto.
Qed.

Lemma keeps_assign (f : L → L) : keeps (on_world I) (assign (W := World) f).
Proof. by intros [l w] r s' HI [= <- <-]. Qed.

Lemma keeps_read {A} (f : L → A) : keeps (on_world I) (read (W := World) f).
Proof. by intros [l w] r s' HI [= <- <-]. Qed.

Lemma keeps_declare {A} (l : L) (body : M (L * World) A) :
  keeps (on_world I) body → keeps I (declare l body).
Proof.
  intros Hb w r w' HI. unfold declare.
  destruct (body (l, w)) as [r1 [l1 w1]] eqn:H1. intros [= <- <-].
  apply (Hb (l, w) _ _ HI H1).
Qed.
End KeepsLocals.

Ltac unfold_workflows :=
  unfold register, call, registerRecover, registerTransferRequest, registerTransferAccept,
    registerTransferReject, registerTransferCancel, registerTransport,
    rollbackContainersToStatus, rollbackUserStockTo, destroyTransaction,
    createTransactionDetail, createTransaction, findRawTransaction,
    findTransactionWithDetailsById, not_awaited,
    Transaction_set, Transaction_save, Transaction_destroy,
    Query_get_Transaction, Container_set_status, Container_save,
    TransactionDetail_save, getWasteTypesFromIds,
    getUserStock, incrementStock, moveStock, createContainersOfType,
    findContainerById, findContainersByTransaction, findUserById,
    findRecyclingCenterById, grantReadAndWritePermissionsToUser,
    revokeReadAndWritePermissionsToUser, canTransportContainer,
    notifyTransferRequest, notifyTransport, notify.

Lemma getValueForNextSequence_keeps (I : World → Prop) name :
  (∀ w, I w →
     I (with_sequences <[name := (default 0 (sequences w !! name) + 1)%Z]> w)) →
  keeps I (getValueForNextSequence name).
Proof. intros HI w r w' Hw [= <- <-]. by apply HI. Qed.

Lemma Transaction_save_new_keeps env (I : World → Prop) transaction sessionToken :
  (∀ w, I w →
     I (with_db_Transaction
          <[fresh (dom (db_Transaction w))
            := transaction (fresh (dom (db_Transaction w)))]> w)) →
  keeps I (Transaction_save_new env transaction sessionToken).
Proof.
  intros HI w r w' Hw. unfold Transaction_save_new. run.
  destruct (acceptsTransaction _ _ _); intros [= <- <-]; [by apply HI|done].
Qed.

Lemma createContainers_keeps (I : World → Prop) n wasteType s number user :
  (∀ w c, I w → containerId c = fresh (dom (db_Container w)) →
     I (with_db_Container <[containerId c := c]> w)) →
  keeps I (createContainers n wasteType s number user).
Proof.
  intros HI. induction n as [|n IH]; cbn [createContainers].
  - apply keeps_ret.
  - intros w r w' Hw. run.
    set (c := Build_Container _ _ _ _ _).
    destruct (createContainers n _ _ _ _ _) as [[cs|e] w1] eqn:Hn;
      intros [= <- <-]; eapply IH; try exact Hn; by apply (HI w c).
Qed.

Ltac keeping_step :=
  lazymatch goal with
  | |- keeps _ (ret _) => apply keeps_ret
  | |- keeps _ (throw _) => apply keeps_throw
  | |- keeps _ (lift _) => apply keeps_lift
  | |- keeps _ (gets _) => apply keeps_gets
  | |- keeps _ (read _) => apply keeps_read
  | |- keeps _ (assign _) => apply keeps_assign
  | |- keeps _ (modify _) => apply keeps_modify
  | |- keeps _ (declare _ _) => apply keeps_declare
  | |- keeps _ (world _) => apply keeps_world
  | |- keeps _ (Promise_all (map _ _)) => apply keeps_Promise_all_map; intros ?
  | |- keeps _ (Promise_all (_ :: _)) => apply keeps_Promise_all_cons
  | |- keeps _ (Promise_all []) => apply keeps_Promise_all_nil
  | |- keeps _ (Array_map _ _) => apply keeps_Array_map; intros ?
  | |- keeps _ (Promise_call _ _ _) => apply keeps_Promise_call
  | |- keeps _ (try_catch _ _) => apply keeps_try_catch; [|intros ?]
  | |- keeps _ (bind _ _) => apply keeps_bind; [|intros ?]
  | |- keeps _ (createContainers _ _ _ _ _) => apply createContainers_keeps
  | |- keeps _ (getValueForNextSequence _) => apply getValueForNextSequence_keeps
  | |- keeps _ (Transaction_save_new _ _ _) => apply Transaction_save_new_keeps
  | |- keeps _ (match ?x with _ => _ end) => destruct x
  end; cbv beta.

Ltac keeping := unfold_workflows; repeat keeping_step.

Lemma map_Forall_alter_2 `{Countable K} {A} (P : K → A → Prop) (f : A → A)
    (m : gmap K A) k :
  map_Forall P m → (∀ x, m !! k = Some x → P k x → P k (f x)) →
  map_Forall P (alter f k m).
Proof.
  intros Hm Hf i x. rewrite lookup_alter.
  destruct (decide (k = i)) as [->|]; [|by apply Hm].
  destruct (m !! i) as [y|] eqn:Hy; [|done]. intros [= <-]. by apply Hf, Hm.
Qed.

Ltac stored :=
  let w := fresh "w" in
  let Ht := fresh "Ht" in
  let Hc := fresh "Hc" in
  intros;
  match goal with H : stored_by_id _ |- _ => destruct H as [Ht Hc] end;
  split; unfold keyed, keyed_containers, addStock in *; simpl;
  try done;
  first
    [ by apply map_Forall_insert_2
    | by apply map_Forall_delete
    | apply map_Forall_alter_2; [done|]; simpl; by intros ].

Section Invariants.
Variable env : Environment.

Lemma register_stored r : keeps stored_by_id (register env r).
Proof.
  destruct r as [? ?|? ? ?|? []|? ? ?]; keeping; stored.
Qed.

Lemma register_master x r : keeps (λ w, master_data w = x) (register env r).
Proof.
  destruct r as [? ?|? ? ?|? []|? ? ?]; keeping; by intros.
Qed.

Lemma register_sequence n r : keeps (λ w, (n ≤ sequence w)%Z) (register env r).
Proof.
  destruct r as [? ?|? ? ?|? []|? ? ?]; keeping;
    unfold sequence, addStock; intros; simpl; try done.
  all: rewrite lookup_insert_eq; simpl; lia.
Qed.

Lemma register_details l r :
  keeps (λ w, l `prefix_of` db_TransactionDetail w) (register env r).
Proof.
  destruct r as [? ?|? ? ?|? []|? ? ?]; keeping;
    unfold addStock; intros; simpl; try done.
  all: by apply prefix_app_r.
Qed.

Lemma register_notified l r :
  keeps (λ w, l `prefix_of` notifications w) (register env r).
Proof.
  destruct r as [? ?|? ? ?|? []|? ? ?]; keeping;
    unfold addStock; intros; simpl; try done.
  all: by apply prefix_app_r.
Qed.

Lemma register_registry (d : gset nat) r :
  keeps (λ w, d ⊆ dom (db_Container w)) (register env r).
Proof.
  destruct r as [? ?|? ? ?|? []|? ? ?]; keeping;
    unfold addStock; intros; simpl; try done.
  all: first [by rewrite dom_alter_L | rewrite dom_insert_L; set_solver].
Qed.

Lemma register_stock m r :
  moves_stock r = false → keeps (λ w, db_Stock w = m) (register env r).
Proof.
  destruct r as [? ?|? ? ?|? []|? ? ?]; try done; intros _; keeping; done.
Qed.

Lemma register_notifications l r :
  notifier r = false → keeps (λ w, notifications w = l) (register env r).
Proof.
  destruct r as [? ?|? ? ?|? []|? ? ?]; try done; intros _; keeping;
    unfold addStock; by intros.
Qed.

Lemma register_grants g r :
  changes_grants r = false → keeps (λ w, grants w = g) (register env r).
Proof.
  destruct r as [? ?|? ? ?|? []|? ? ?]; try done; intros _; keeping;
    unfold addStock; by intros.
Qed.

Lemma register_containers (d : gset nat) r :
  creates_containers r = false → keeps (λ w, dom (db_Container w) = d) (register env r).
Proof.
  destruct r as [? ?|? ? ?|? []|? ? ?]; try done; intros _; keeping;
    unfold addStock; intros; simpl; try done.
  all: by rewrite dom_alter_L.
Qed.
End Invariants.

(** ** [replaceInTemplate] *)

Lemma span_app (p : N → bool) (l s : list N) :
  Forall (λ c, p c = true) l →
  (∀ c s', s = c :: s' → p c = false) →
  span p (l ++ s) = (l, s).
Proof.
  intros Hl Hs. induction Hl as [|c l Hc Hl IH]; simpl.
  - destruct s as [|c s']; [done|]. simpl. by rewrite (Hs c s').
  - by rewrite Hc, IH.
Qed.

Lemma is_word_not_space c : is_word c = true → is_space c = false.
Proof.
  unfold is_word, is_space. intros H.
  repeat match goal with
  | H : (_ || _)%bool = true |- _ => apply orb_true_iff in H as [H|H]
  | H : (_ && _)%bool = true |- _ => apply andb_true_iff in H as [? ?]
  end;
  repeat match goal with
  | H : (_ <=? _)%N = true |- _ => apply N.leb_le in H
  | H : (_ =? _)%N = true |- _ => apply N.eqb_eq in H
  end;
  repeat (apply orb_false_iff; split);
  try (apply andb_false_iff);
  rewrite ?N.eqb_neq, ?N.leb_gt; lia.
Qed.

Lemma replace_pattern_skip callback (l s : list N) :
  replace_pattern callback (length l) (l ++ s) = replace_pattern callback 0 s.
Proof. induction l as [|c l IH]; simpl; [by destruct s|done]. Qed.

Lemma match_pattern_no_brace c s : c ≠ 123%N → match_pattern (c :: s) = None.
Proof.
  intros Hc. unfold match_pattern.
  destruct c as [|p]; [done|].
  do 7 (destruct p as [p|p|]; try done).
Qed.

Lemma span_eq (p : N → bool) (s prefix rest : list N) :
  span p s = (prefix, rest) → s = prefix ++ rest.
Proof.
  revert prefix rest. induction s as [|c s IH]; intros prefix rest; simpl.
  - by intros [= <- <-].
  - destruct (p c); [|by intros [= <- <-]].
    destruct (span p s) as [prefix' rest']. intros [= <- <-].
    by rewrite (IH prefix' rest').
Qed.

Lemma match_pattern_closed (s token : list N) n :
  match_pattern s = Some (token, n) → 125%N ∈ s.
Proof.
  destruct s as [|c s]; [done|].
  destruct (decide (c = 123%N)) as [->|Hc]; [|by rewrite match_pattern_no_brace].
  unfold match_pattern.
  destruct (span is_space s) as [before s1] eqn:H1.
  destruct (span is_word s1) as [tok s2] eqn:H2.
  destruct (span is_space s2) as [after s3] eqn:H3.
  apply span_eq in H1 as ->. apply span_eq in H2 as ->. apply span_eq in H3 as ->.
  destruct tok as [|t tok]; [done|]. destruct s3 as [|c s3]; [done|].
  destruct (decide (c = 125%N)) as [->|Hc].
  - intros _. right. rewrite !elem_of_app. do 3 right. left.
  - destruct c as [|p]; [done|]. do 7 (destruct p as [p|p|]; try done).
Qed.

(** X1: a template without an opening brace, or without a closing brace, is
    returned as it is, whatever the data. *)
Theorem replaceInTemplate_no_brace (template : list N) data :
  123%N ∉ template ∨ 125%N ∉ template →
  replaceInTemplate template data = template.
Proof.
  unfold replaceInTemplate. induction template as [|c s IH]; intros Hno; [done|].
  cbn [replace_pattern].
  assert (match_pattern (c :: s) = None) as ->.
  { destruct Hno as [Hno|Hno].
    - apply match_pattern_no_brace. intros ->. apply Hno. left.
    - destruct (match_pattern (c :: s)) as [[token n]|] eqn:Hm; [|done].
      by apply match_pattern_closed in Hm. }
  rewrite IH; [done|].
  destruct Hno as [Hno|Hno]; [left|right]; intros ?; apply Hno; by right.
Qed.

Lemma match_pattern_placeholder (before token after rest : list N) :
  Forall (λ c, is_space c = true) before →
  Forall (λ c, is_word c = true) token →
  Forall (λ c, is_space c = true) after →
  token ≠ [] →
  match_pattern (123%N :: before ++ token ++ after ++ 125%N :: rest)
  = Some (token, S (length before + length token + length after + 1)).
Proof.
  intros Hbefore Htoken Hafter Hne. unfold match_pattern.
  rewrite (span_app is_space before).
  2: done.
  2:{ intros c s' Heq. destruct token as [|t token]; [done|].
      injection Heq as <- _. apply is_word_not_space.
      by apply Forall_cons in Htoken as [? _]. }
  rewrite (span_app is_word token).
  2: done.
  2:{ intros c s' Heq. destruct after as [|a after].
      - by injection Heq as <- _.
      - injection Heq as <- _. apply Forall_cons in Hafter as [Ha _].
        destruct (is_word a) eqn:Hw; [|done].
        apply is_word_not_space in Hw. congruence. }
  rewrite (span_app is_space after).
  2: done.
  2:{ intros c s' [= <- _]. done. }
  by destruct token.
Qed.

(** X2: the first placeholder of a template, an opening brace, white space, a
    token of word characters, white space and a closing brace, after a text
    without an opening brace: the text is kept, the placeholder is replaced
    by the value of the token in the data, or by nothing when the data has no
    value for the token, and the replacement goes on after the closing
    brace. *)
Theorem replaceInTemplate_placeholder (text before token after rest : list N) data :
  123%N ∉ text →
  Forall (λ c, is_space c = true) before →
  Forall (λ c, is_word c = true) token →
  Forall (λ c, is_space c = true) after →
  token ≠ [] →
  replaceInTemplate (text ++ 123%N :: before ++ token ++ after ++ 125%N :: rest) data
  = text ++ default [] (data token) ++ replaceInTemplate rest data.
Proof.
  intros Htext Hbefore Htoken Hafter Hne. unfold replaceInTemplate.
  induction text as [|c text IH].
  - cbn [app]. cbn [replace_pattern].
    rewrite match_pattern_placeholder by done.
    f_equal.
    replace (S (length before + length token + length after + 1) - 1)
      with (length (before ++ token ++ after ++ [125%N]))
      by (rewrite !length_app; simpl; lia).
    rewrite <- (replace_pattern_skip _ (before ++ token ++ after ++ [125%N]) rest).
    f_equal. by rewrite <- !app_assoc.
  - apply not_elem_of_cons in Htext as [Hc Htext].
    cbn [app replace_pattern]. rewrite match_pattern_no_brace by done.
    by rewrite IH.
Qed.

(** ** What a workflow has done when it returns *)

Section Success.
Variable env : Environment.

Lemma Promise_all_Returned {S A B} (f : A → M S B) (g : A → B) (h : A → S → S)
    l s bs s' :
  (∀ a s b s', f a s = (Returned b, s') → b = g a ∧ s' = h a s) →
  Promise_all (map f l) s = (Returned bs, s') →
  bs = map g l ∧ s' = foldl (λ s a, h a s) s l.
Proof.
  intros Hf. revert s bs s'. induction l as [|a l IH]; intros s bs s' H.
  - by injection H as <- <-.
  - rewrite map_cons, Promise_all_cons in H.
    destruct (f a s) as [[b|e] s1] eqn:Ha;
      destruct (Promise_all (map f l) s1) as [[bs'|e'] s2] eqn:Hl; try done.
    injection H as <- <-.
    apply Hf in Ha as [-> ->]. apply IH in Hl as [-> ->]. done.
Qed.

Lemma foldl_same {A B} (x : A) (l : list B) : foldl (λ x _, x) x l = x.
Proof. by induction l. Qed.

Lemma flip_all_fields s grant transaction containers w :
  db_Transaction (flip_each s grant transaction containers w) = db_Transaction w
  ∧ db_TransactionDetail (flip_each s grant transaction containers w)
    = db_TransactionDetail w ++ map (detail_of transaction) containers
  ∧ db_Container (flip_each s grant transaction containers w)
    = flipped s containers (db_Container w)
  ∧ db_Stock (flip_each s grant transaction containers w) = db_Stock w
  ∧ grants (flip_each s grant transaction containers w)
    = foldl (λ g container, grant container g) (grants w) containers
  ∧ notifications (flip_each s grant transaction containers w) = notifications w
  ∧ sequences (flip_each s grant transaction containers w) = sequences w.
Proof.
  unfold flip_each, flipped. revert w.
  induction containers as [|c cs IH]; intros w; simpl.
  - by rewrite app_nil_r.
  - destruct (IH (flip_one s grant transaction c w)) as (-> & -> & -> & -> & -> & -> & ->).
    simpl. by rewrite <- app_assoc.
Qed.

Lemma flipped_lookup s (containers : list Container) (m : gmap nat Container) k :
  flipped s containers m !! k
  = if decide (k ∈ map containerId containers)
    then set_status s <$> m !! k else m !! k.
Proof.
  unfold flipped. revert m. induction containers as [|c cs IH]; intros m; simpl.
  - done.
  - rewrite IH. destruct (decide (containerId c = k)) as [<-|Hne].
    + rewrite lookup_alter_eq.
      rewrite (decide_True (P := containerId c ∈ containerId c :: map containerId cs));
        [|left].
      destruct (decide (containerId c ∈ map containerId cs)); [|done].
      destruct (m !! containerId c) as [[]|]; done.
    + rewrite lookup_alter_ne by done.
      destruct (decide (k ∈ map containerId cs)).
      * rewrite decide_True; [done|by right].
      * rewrite decide_False; [done|]. rewrite elem_of_cons. by intros [?|?].
Qed.

Lemma createTransactionDetail_Returned transaction container user w d w' :
  createTransactionDetail env transaction container user w = (Returned d, w') →
  d = detail_of transaction container
  ∧ w' = with_db_TransactionDetail
           (λ rows, rows ++ [detail_of transaction container]) w.
Proof.
  unfold createTransactionDetail, TransactionDetail_save. run.
  destruct (acceptsDetail env _); simpl; [|done]. by intros [= <- <-].
Qed.

Lemma flip_Returned s transaction user container w d w' :
  (let* container := Container_set_status container s in
   createTransactionDetail env transaction container user) w = (Returned d, w') →
  d = detail_of transaction container
  ∧ w' = flip_one s (λ _ g, g) transaction container w.
Proof.
  intros H. apply bind_Returned in H as (c & w1 & H1 & H).
  unfold Container_set_status in H1. revert H1. run. intros [= <- <-].
  apply createTransactionDetail_Returned in H as [-> ->]. done.
Qed.

(** The containers of a transaction: those that its details refer to. *)
Lemma findContainersByTransaction_Returned transaction w containers w' :
  findContainersByTransaction transaction w = (Returned containers, w') →
  containers = containers_of w (transaction_id transaction) ∧ w' = w.
Proof. by intros [= <- <-]. Qed.

Lemma registerTransferReject_success transactionId reason user w tx w' :
  keyed w →
  registerTransferReject env transactionId reason user w = (Returned tx, w') →
  ∃ request tx0,
    db_Transaction w !! transactionId = Some request
    ∧ transaction_type request = Some TRANSFER_REQUEST
    ∧ transaction_expiredAt request = None
    ∧ transaction_to request = Some user
    ∧ tx0 = {| transaction_id := fresh (dom (db_Transaction w));
               transaction_type := Some TRANSFER_REJECT;
               transaction_from := transaction_from request;
               transaction_to := transaction_to request;
               transaction_number := sequence w + 1;
               transaction_recyclingCenter := None;
               transaction_reason := reason;
               transaction_relatedTo := Some transactionId;
               transaction_expiredAt := None;
               transaction_details := [] |}
    ∧ tx = set_details (map (detail_of tx0) (containers_of w transactionId)) tx0
    ∧ db_Transaction w'
      = alter (set_expiredAt (Some (now env))) transactionId
          (<[transaction_id tx0 := tx0]> (db_Transaction w))
    ∧ db_TransactionDetail w'
      = db_TransactionDetail w ++ map (detail_of tx0) (containers_of w transactionId)
    ∧ db_Container w' = flipped RECOVERED (containers_of w transactionId) (db_Container w)
    ∧ db_Stock w' = db_Stock w
    ∧ grants w' = grants w
    ∧ notifications w' = notifications w
    ∧ sequences w' = <["Transaction" := (sequence w + 1)%Z]> (sequences w).
Proof.
  intros Hkeyed H. unfold registerTransferReject in H.
  apply declare_Returned in H as [l' H].
  apply try_catch_Returned in H; [|intros; throws].
  inv_step H. apply findRawTransaction_Returned in Hstep as [-> Hrequest].
  pose proof (Hkeyed _ _ Hrequest) as Hid. simpl in Hid.
  inv_step H. inv_step H.
  unfold lift in Hstep. injection Hstep as Hvalid <-.
  apply validateTransferAcceptRejectRequest_Returned in Hvalid as (Htype & Hexpired & Hto).
  inv_step H. apply createTransaction_Returned in Hstep as (attrs & Hattrs & -> & ->).
  injection Hattrs as <-.
  inv_step H. inv_step H. inv_step H. inv_step H. inv_step H. inv_step H.
  unfold Transaction_set in Hstep, Hstep0.
  revert Hstep Hstep0. run. intros [= <- <-] [= <- <-].
  apply findContainersByTransaction_Returned in Hstep1 as [Hcs Hw]. subst.
  eapply Promise_all_Returned in Hstep2 as [Hds Hw];
    [|intros c s b s'; apply flip_Returned]. subst.
  injection H as <- <- <-.
  match goal with
  | |- context [foldl (λ s a, flip_one ?st ?g ?t a s) ?w1 ?l] =>
      destruct (flip_all_fields st g t l w1) as (H1 & H2 & H3 & H4 & H5 & H6 & H7);
      unfold flip_each in *
  end.
  eexists a, _. split_and!; [done|done|done|done|reflexivity|..].
  - reflexivity.
  - rewrite H1. simpl. by rewrite alter_insert_eq.
  - rewrite H2. reflexivity.
  - rewrite H3. reflexivity.
  - by rewrite H4.
  - rewrite H5. apply foldl_same.
  - by rewrite H6.
  - by rewrite H7.
Qed.

(** What [revokeReadAndWritePermissionsToUser] does to the grants for the
    recipient of a request. *)
Lemma cancel_Returned transaction user to container w d w' :
  (let* container := Container_set_status container RECOVERED in
   Promise_call
     (revokeReadAndWritePermissionsToUser "Container" (containerId container) to)
     "then" (createTransactionDetail env transaction container user)) w
  = (Returned d, w') →
  d = detail_of transaction container
  ∧ w' = flip_one RECOVERED (revoked to) transaction container w.
Proof.
  intros H. apply bind_Returned in H as (c & w1 & H1 & H).
  unfold Container_set_status in H1. revert H1. run. intros [= <- <-].
  unfold Promise_call in H. rewrite bool_decide_eq_true_2 in H by done.
  apply bind_Returned in H as ([] & w2 & H2 & H).
  unfold revokeReadAndWritePermissionsToUser in H2.
  destruct to as [recipient|]; [|done]. revert H2. run. intros [= <-].
  apply createTransactionDetail_Returned in H as [-> ->]. done.
Qed.

Lemma registerTransferCancel_success transactionId user w tx w' :
  keyed w →
  registerTransferCancel env transactionId user w = (Returned tx, w') →
  ∃ request tx0,
    db_Transaction w !! transactionId = Some request
    ∧ transaction_type request = Some TRANSFER_REQUEST
    ∧ transaction_expiredAt request = None
    ∧ transaction_from request = Some user
    ∧ tx0 = {| transaction_id := fresh (dom (db_Transaction w));
               transaction_type := None;
               transaction_from := None;
               transaction_to := None;
               transaction_number := sequence w + 1;
               transaction_recyclingCenter := None;
               transaction_reason := None;
               transaction_relatedTo := Some transactionId;
               transaction_expiredAt := None;
               transaction_details := [] |}
    ∧ tx = set_details (map (detail_of tx0) (containers_of w transactionId)) tx0
    ∧ db_Transaction w'
      = alter (set_expiredAt (Some (now env))) transactionId
          (<[transaction_id tx0 := tx0]> (db_Transaction w))
    ∧ db_TransactionDetail w'
      = db_TransactionDetail w ++ map (detail_of tx0) (containers_of w transactionId)
    ∧ db_Container w' = flipped RECOVERED (containers_of w transactionId) (db_Container w)
    ∧ db_Stock w' = db_Stock w
    ∧ grants w'
      = foldl (λ g container, revoked (transaction_to request) container g)
          (grants w) (containers_of w transactionId)
    ∧ notifications w' = notifications w
    ∧ sequences w' = <["Transaction" := (sequence w + 1)%Z]> (sequences w).
Proof.
  intros Hkeyed H. unfold registerTransferCancel in H.
  apply declare_Returned in H as [l' H].
  apply try_catch_Returned in H; [|intros; throws].
  inv_step H. apply findRawTransaction_Returned in Hstep as [-> Hrequest].
  pose proof (Hkeyed _ _ Hrequest) as Hid. simpl in Hid.
  inv_step H. inv_step H.
  case_bool_decide as Htype; [done|]. injection Hstep as <- <-.
  assert (transaction_type a = Some TRANSFER_REQUEST) as Htype'
    by (by destruct (decide (transaction_type a = Some TRANSFER_REQUEST))).
  inv_step H. destruct (transaction_expiredAt a) eqn:Hexpired; [done|].
  injection Hstep as <- <-.
  inv_step H. destruct (transaction_from a) as [from|] eqn:Hfrom; [|done].
  case_bool_decide as Huser; [done|]. injection Hstep as <- <-.
  assert (from = user) as -> by (by destruct (decide (from = user))).
  inv_step H. apply createTransaction_Returned in Hstep as (attrs & Hattrs & -> & ->).
  simpl in Hattrs. injection Hattrs as <-.
  inv_step H. inv_step H. inv_step H. inv_step H. inv_step H. inv_step H.
  unfold Transaction_set in Hstep, Hstep0.
  revert Hstep Hstep0. run. intros [= <- <-] [= <- <-].
  apply findContainersByTransaction_Returned in Hstep1 as [Hcs Hw]. subst.
  eapply Promise_all_Returned in Hstep2 as [Hds Hw];
    [|intros c s b s'; apply cancel_Returned]. subst.
  injection H as <- <- <-.
  match goal with
  | |- context [foldl (λ s a, flip_one ?st ?g ?t a s) ?w1 ?l] =>
      destruct (flip_all_fields st g t l w1) as (H1 & H2 & H3 & H4 & H5 & H6 & H7);
      unfold flip_each in *
  end.
  eexists a, _. split_and!; [done|done|done|done|reflexivity|..].
  - reflexivity.
  - rewrite H1. simpl. by rewrite alter_insert_eq.
  - rewrite H2. reflexivity.
  - rewrite H3. reflexivity.
  - by rewrite H4.
  - rewrite H5. reflexivity.
  - by rewrite H6.
  - by rewrite H7.
Qed.

Lemma request_Returned transaction user recipient container w d w' :
  (let* container := Container_set_status container TRANSFER_PENDING in
   Promise_call
     (grantReadAndWritePermissionsToUser "Container" (containerId container)
        (Some recipient))
     "then" (createTransactionDetail env transaction container user)) w
  = (Returned d, w') →
  d = detail_of transaction container
  ∧ w' = flip_one TRANSFER_PENDING (granted recipient) transaction container w.
Proof.
  intros H. apply bind_Returned in H as (c & w1 & H1 & H).
  unfold Container_set_status in H1. revert H1. run. intros [= <- <-].
  unfold Promise_call in H. rewrite bool_decide_eq_true_2 in H by done.
  apply bind_Returned in H as ([] & w2 & H2 & H).
  unfold grantReadAndWritePermissionsToUser in H2.
  revert H2. run. intros [= <-].
  apply createTransactionDetail_Returned in H as [-> ->]. done.
Qed.

Lemma findUserById_Returned id w user w' :
  findUserById id w = (Returned user, w') → user = id ∧ w' = w ∧ id ∈ db_User w.
Proof.
  unfold findUserById. run. case_bool_decide; simpl; [|done]. by intros [= <- <-].
Qed.

Lemma findRecyclingCenterById_Returned id w center w' :
  findRecyclingCenterById id w = (Returned center, w') →
  center = id ∧ w' = w ∧ id ∈ db_RecyclingCenter w.
Proof.
  unfold findRecyclingCenterById. run. case_bool_decide; simpl; [|done].
  by intros [= <- <-].
Qed.

Lemma findContainerById_Returned (ids : list nat) user w containers w' :
  Promise_all (map (λ containerId, findContainerById containerId user) ids) w
  = (Returned containers, w') →
  w' = w ∧ Forall2 (λ id container, db_Container w !! id = Some container)
             ids containers.
Proof.
  intros H. destruct (findContainerById_all ids user w) as (r & Hr & Hfound).
  rewrite Hr in H. injection H as -> <-. done.
Qed.

Lemma falsy_false to : falsy to = false → ∃ id, to = Some id ∧ id ≠ "".
Proof.
  destruct to as [id|]; simpl; [|done]. case_bool_decide; [done|]. eauto.
Qed.

Lemma registerTransferRequest_success containersInput to user w tx w' :
  registerTransferRequest env containersInput to user w = (Returned tx, w') →
  ∃ recipient containers tx0,
    to = Some recipient ∧ recipient ≠ ""
    ∧ recipient ∈ db_User w
    ∧ Forall2 (λ id container, db_Container w !! id = Some container)
        containersInput containers
    ∧ Forall (λ container, status container = RECOVERED) containers
    ∧ tx0 = {| transaction_id := fresh (dom (db_Transaction w));
               transaction_type := Some TRANSFER_REQUEST;
               transaction_from := Some user;
               transaction_to := Some recipient;
               transaction_number := sequence w + 1;
               transaction_recyclingCenter := None;
               transaction_reason := None;
               transaction_relatedTo := None;
               transaction_expiredAt := None;
               transaction_details := [] |}
    ∧ tx = set_details (map (detail_of tx0) containers) tx0
    ∧ db_Transaction w' = <[transaction_id tx0 := tx0]> (db_Transaction w)
    ∧ db_TransactionDetail w'
      = db_TransactionDetail w ++ map (detail_of tx0) containers
    ∧ db_Container w' = flipped TRANSFER_PENDING containers (db_Container w)
    ∧ db_Stock w' = db_Stock w
    ∧ grants w'
      = foldl (λ g container, granted recipient container g)
          (grants w ∪ {[ ("Transaction", transaction_id tx0, recipient) ]})
          containers
    ∧ notifications w'
      = notifications w
        ++ [ {| notifiedTransaction := transaction_id tx0; notifiedBy := user;
                notifiedUsers := [recipient] |} ]
    ∧ sequences w' = <["Transaction" := (sequence w + 1)%Z]> (sequences w).
Proof.
  intros H. unfold registerTransferRequest in H.
  apply declare_Returned in H as [l' H].
  apply try_catch_Returned in H; [|intros; throws].
  inv_step H. destruct (falsy to) eqn:Hto; [done|]. injection Hstep as <- <-.
  apply falsy_false in Hto as (recipient & -> & Hrecipient).
  inv_step H. apply findUserById_Returned in Hstep as (-> & -> & Huser).
  inv_step H. apply findContainerById_Returned in Hstep as [-> Hfound].
  inv_step H. inv_step H.
  destruct (forallb _ _) eqn:Hstatus; [|done]. injection Hstep as <- <-.
  inv_step H. apply createTransaction_Returned in Hstep as (attrs & Hattrs & -> & ->).
  injection Hattrs as <-.
  inv_step H. inv_step H.
  unfold grantReadAndWritePermissionsToUser in Hstep. revert Hstep. run.
  intros [= <- <-].
  inv_step H.
  eapply Promise_all_Returned in Hstep as [Hds Hw];
    [|intros c s b s'; apply request_Returned]. subst.
  inv_step H.
  unfold notifyTransferRequest, notify in Hstep.
  destruct (delivers env _); [|done]. revert Hstep. run. intros [= <- <-].
  injection H as <- <- <-.
  match goal with
  | |- context [foldl (λ s a, flip_one ?st ?g ?t a s) ?w1 ?l] =>
      destruct (flip_all_fields st g t l w1) as (H1 & H2 & H3 & H4 & H5 & H6 & H7);
      unfold flip_each in *
  end.
  eexists recipient, _, _.
  split_and!; [done|done|done|exact Hfound| |reflexivity|..].
  - apply Forall_forall. intros c Hc. rewrite forallb_forall in Hstatus.
    apply list_elem_of_In, Hstatus in Hc. by apply bool_decide_eq_true in Hc.
  - reflexivity.
  - simpl. by rewrite H1.
  - simpl. by rewrite H2.
  - simpl. by rewrite H3.
  - simpl. by rewrite H4.
  - simpl. by rewrite H5.
  - simpl. by rewrite H6.
  - simpl. by rewrite H7.
Qed.

Lemma canTransportContainer_Returned (containers : list Container) user w rs w' :
  Promise_all (map (λ container, canTransportContainer env container user)
                 containers) w = (Returned rs, w') →
  w' = w ∧ Forall (λ container, canTransport env container user = true) containers.
Proof.
  revert rs w'. induction containers as [|c cs IH]; intros rs w' H.
  - by injection H as <- <-.
  - rewrite map_cons, Promise_all_cons in H. unfold canTransportContainer at 1 in H.
    destruct (canTransport env c user) eqn:Hc; simpl in H.
    + destruct (Promise_all _ w) as [[rs'|e] w1] eqn:Hcs; [|done].
      destruct (IH _ _ eq_refl) as [-> Hall]. injection H as <- <-.
      by split; [|constructor].
    + by destruct (Promise_all _ w) as [[rs'|e] w1].
Qed.

Lemma registerTransport_success containersInput to user w tx w' :
  registerTransport env containersInput to user w = (Returned tx, w') →
  ∃ center containers tx0,
    to = Some center ∧ center ≠ ""
    ∧ center ∈ db_RecyclingCenter w
    ∧ Forall2 (λ id container, db_Container w !! id = Some container)
        containersInput containers
    ∧ Forall (λ container, status container = RECOVERED
                           ∨ status container = TRANSFERRED) containers
    ∧ Forall (λ container, canTransport env container user = true) containers
    ∧ tx0 = {| transaction_id := fresh (dom (db_Transaction w));
               transaction_type := Some TRANSPORT;
               transaction_from := Some user;
               transaction_to := None;
               transaction_number := sequence w + 1;
               transaction_recyclingCenter := Some center;
               transaction_reason := None;
               transaction_relatedTo := None;
               transaction_expiredAt := None;
               transaction_details := [] |}
    ∧ tx = set_details (map (detail_of tx0) containers) tx0
    ∧ db_Transaction w' = <[transaction_id tx0 := tx0]> (db_Transaction w)
    ∧ db_TransactionDetail w'
      = db_TransactionDetail w ++ map (detail_of tx0) containers
    ∧ db_Container w' = flipped IN_TRANSIT containers (db_Container w)
    ∧ db_Stock w' = db_Stock w
    ∧ grants w' = grants w
    ∧ notifications w'
      = notifications w
        ++ [ {| notifiedTransaction := transaction_id tx0; notifiedBy := user;
                notifiedUsers := filter (λ u, u ≠ user) (map createdBy containers) |} ]
    ∧ sequences w' = <["Transaction" := (sequence w + 1)%Z]> (sequences w).
Proof.
  intros H. unfold registerTransport in H.
  apply declare_Returned in H as [l' H].
  apply try_catch_Returned in H; [|intros; throws].
  inv_step H. destruct (falsy to) eqn:Hto; [done|]. injection Hstep as <- <-.
  apply falsy_false in Hto as (center & -> & Hcenter).
  inv_step H. apply findRecyclingCenterById_Returned in Hstep as (-> & -> & Hknown).
  inv_step H. apply findContainerById_Returned in Hstep as [-> Hfound].
  inv_step H. inv_step H. inv_step H.
  destruct (forallb _ _) eqn:Hstatus; [|done]. injection Hstep as <- <-.
  inv_step H. apply canTransportContainer_Returned in Hstep as [-> Hallowed].
  inv_step H. apply createTransaction_Returned in Hstep as (attrs & Hattrs & -> & ->).
  injection Hattrs as <-.
  inv_step H. inv_step H.
  eapply Promise_all_Returned in Hstep as [Hds Hw];
    [|intros c s b s'; apply flip_Returned]. subst.
  inv_step H.
  unfold notifyTransport, notify in Hstep.
  destruct (delivers env _); [|done]. revert Hstep. run. intros [= <- <-].
  injection H as <- <- <-.
  match goal with
  | |- context [foldl (λ s a, flip_one ?st ?g ?t a s) ?w1 ?l] =>
      destruct (flip_all_fields st g t l w1) as (H1 & H2 & H3 & H4 & H5 & H6 & H7);
      unfold flip_each in *
  end.
  eexists center, _, _.
  split_and!; [done|done|done|exact Hfound| |exact Hallowed|reflexivity|..].
  - apply Forall_forall. intros c Hc. rewrite forallb_forall in Hstatus.
    apply list_elem_of_In, Hstatus in Hc. apply bool_decide_eq_true in Hc.
    rewrite !elem_of_cons, elem_of_nil in Hc. tauto.
  - reflexivity.
  - simpl. by rewrite H1.
  - simpl. by rewrite H2.
  - simpl. by rewrite H3.
  - simpl. by rewrite H4.
  - simpl. rewrite H5. apply foldl_same.
  - simpl. by rewrite H6.
  - simpl. by rewrite H7.
Qed.

Lemma registerTransferAccept_success transactionId user w tx w' :
  keyed w →
  registerTransferAccept env transactionId user w = (Returned tx, w') →
  ∃ request,
    db_Transaction w !! transactionId = Some request
    ∧ transaction_type request = Some TRANSFER_REQUEST
    ∧ transaction_expiredAt request = None
    ∧ transaction_to request = Some user
    ∧ containers_of w transactionId = []
    ∧ tx = {| transaction_id := fresh (dom (db_Transaction w));
              transaction_type := Some TRANSFER_ACCEPT;
              transaction_from := transaction_from request;
              transaction_to := transaction_to request;
              transaction_number := sequence w + 1;
              transaction_recyclingCenter := None;
              transaction_reason := None;
              transaction_relatedTo := Some transactionId;
              transaction_expiredAt := None;
              transaction_details := [] |}
    ∧ db_Transaction w'
      = alter (set_expiredAt (Some (now env))) transactionId
          (<[transaction_id tx := tx]> (db_Transaction w))
    ∧ db_TransactionDetail w' = db_TransactionDetail w
    ∧ db_Container w' = db_Container w
    ∧ db_Stock w' = db_Stock w
    ∧ grants w' = grants w
    ∧ notifications w' = notifications w
    ∧ sequences w' = <["Transaction" := (sequence w + 1)%Z]> (sequences w).
Proof.
  intros Hkeyed H. unfold registerTransferAccept in H.
  apply declare_Returned in H as [l' H].
  apply try_catch_Returned in H; [|intros; throws].
  inv_step H. apply findRawTransaction_Returned in Hstep as [-> Hrequest].
  pose proof (Hkeyed _ _ Hrequest) as Hid. simpl in Hid.
  inv_step H. inv_step H.
  unfold lift in Hstep. injection Hstep as Hvalid <-.
  apply validateTransferAcceptRejectRequest_Returned in Hvalid as (Htype & Hexpired & Hto).
  inv_step H. apply createTransaction_Returned in Hstep as (attrs & Hattrs & -> & ->).
  injection Hattrs as <-.
  inv_step H. inv_step H. inv_step H. inv_step H. inv_step H. inv_step H.
  unfold Transaction_set in Hstep, Hstep0.
  revert Hstep Hstep0. run. intros [= <- <-] [= <- <-].
  apply findContainersByTransaction_Returned in Hstep1 as [Hcs Hw]. subst.
  apply Array_map_Returned in Hstep2 as (Hnone & -> & ->).
  2:{ intros c s. edestruct accept_callback_throws as (e & s1 & Heq & _). eauto. }
  injection H as <- <- <-.
  eexists a. split_and!; try done.
  simpl. by rewrite alter_insert_eq.
Qed.

(** [Promise.all] over computations that have all returned, as the chain of
    their runs. *)
Lemma Promise_all_chain {S A B} (f : A → M S B)
    (step : A → S → B → S → Prop) l s bs s' :
  (∀ a s b s', f a s = (Returned b, s') → step a s b s') →
  Promise_all (map f l) s = (Returned bs, s') →
  Forall2_chain step l s bs s'.
Proof.
  intros Hf. revert s bs s'. induction l as [|a l IH]; intros s bs s' H.
  - injection H as <- <-. constructor.
  - rewrite map_cons, Promise_all_cons in H.
    destruct (f a s) as [[b|e] s1] eqn:Ha;
      destruct (Promise_all (map f l) s1) as [[bs'|e'] s2] eqn:Hl; try done.
    injection H as <- <-. econstructor; eauto.
Qed.

Lemma keeps_eq {S A X} (π : S → X) (c : M S A) s r s' :
  (∀ x, keeps (λ s, π s = x) c) → c s = (r, s') → π s' = π s.
Proof. intros Hc H. by apply (Hc (π s) s r s'). Qed.

Lemma created_app m cs1 m1 cs2 m2 :
  created m cs1 m1 → created m1 cs2 m2 → created m (cs1 ++ cs2) m2.
Proof. induction 1; simpl; [done|]. intros. constructor; auto. Qed.

Lemma created_old m cs m' k c :
  created m cs m' → m !! k = Some c → m' !! k = Some c.
Proof.
  induction 1 as [|m c' cs m' Hc' _ IH]; [done|]. intros Hk. apply IH.
  rewrite lookup_insert_ne; [done|]. congruence.
Qed.

Lemma created_new m cs m' :
  created m cs m' →
  NoDup (map containerId cs)
  ∧ Forall (λ c, m !! containerId c = None ∧ m' !! containerId c = Some c) cs
  ∧ dom m' = dom m ∪ list_to_set (map containerId cs).
Proof.
  induction 1 as [m|m c cs m' Hc Hcs (IH1 & IH2 & IH3)]; simpl.
  - split_and!; [constructor|constructor|set_solver].
  - split_and!.
    + constructor; [|done]. intros Hin. apply list_elem_of_fmap in Hin as (c' & Hid & Hin).
      rewrite Forall_forall in IH2. destruct (IH2 _ Hin) as [Hnone _].
      rewrite <- Hid, lookup_insert_eq in Hnone. done.
    + constructor.
      * split; [done|]. eapply created_old; [done|]. by rewrite lookup_insert_eq.
      * eapply Forall_impl; [exact IH2|]. intros c' [Hnone Hsome]. split; [|done].
        apply lookup_insert_None in Hnone. tauto.
    + rewrite IH3, dom_insert_L. set_solver.
Qed.

Lemma createContainers_Returned n wasteType s number user w cs w' :
  createContainers n wasteType s number user w = (Returned cs, w') →
  created (db_Container w) cs (db_Container w')
  ∧ map containerType cs = replicate n wasteType
  ∧ Forall (λ c, status c = s ∧ createdBy c = user ∧ batchNumber c = number) cs.
Proof.
  revert w cs. induction n as [|n IH]; intros w cs; cbn [createContainers].
  - intros [= <- <-]. split_and!; constructor.
  - run. destruct (createContainers n _ _ _ _ _) as [[cs'|e] w1] eqn:Hn; [|done].
    intros [= <- <-]. apply IH in Hn as (Hcreated & Htypes & Hall).
    split_and!.
    + constructor; [|done]. apply not_elem_of_dom, is_fresh.
    + simpl. by rewrite Htypes.
    + by constructor.
Qed.

Lemma getWasteTypesFromIds_Returned ids w wasteTypes w' :
  NoDup ids →
  getWasteTypesFromIds ids w = (Returned wasteTypes, w') →
  w' = w ∧ ∀ id, id ∈ ids →
             is_Some (wasteTypes !! id) ∧ wasteTypes !! id = db_WasteType w !! id.
Proof.
  intros Hnodup H. unfold getWasteTypesFromIds in H.
  apply bind_Returned in H as (found & w1 & H & Hret). injection Hret as <- <-.
  eapply (Promise_all_chain _
            (λ id s (p : string * WasteType) s',
               s' = s ∧ p.1 = id ∧ db_WasteType s !! id = Some p.2)) in H.
  2:{ intros id s p s'. run. destruct (db_WasteType s !! id); simpl; [|done].
      by intros [= <- <-]. }
  assert (w1 = w ∧ map fst found = ids
          ∧ ∀ p, p ∈ found → db_WasteType w !! p.1 = Some p.2) as (-> & Hids & Hfound).
  { clear Hnodup. induction H as [s|id l s p s1 ps s' (-> & <- & Hp) _ (-> & <- & IH)].
    - split_and!; [done|done|]. by intros p Hp%elem_of_nil.
    - split_and!; [done|done|]. intros q [->|Hq]%elem_of_cons; auto. }
  split; [done|]. intros id Hid. rewrite <- Hids in Hid, Hnodup.
  apply list_elem_of_fmap in Hid as ([id' wt] & -> & Hin).
  rewrite (elem_of_list_to_map_1 found id' wt Hnodup Hin).
  rewrite (Hfound _ Hin). eauto.
Qed.

Lemma append_all_fields {A} (g : A → TransactionDetail) (l : list A) w :
  let w' := foldl (λ w a, with_db_TransactionDetail (λ rows, rows ++ [g a]) w) w l in
  db_Transaction w' = db_Transaction w
  ∧ db_TransactionDetail w' = db_TransactionDetail w ++ map g l
  ∧ db_Container w' = db_Container w
  ∧ db_Stock w' = db_Stock w
  ∧ grants w' = grants w
  ∧ notifications w' = notifications w
  ∧ sequences w' = sequences w.
Proof.
  revert w. induction l as [|a l IH]; intros w; simpl.
  - by rewrite app_nil_r.
  - destruct (IH (with_db_TransactionDetail (λ rows, rows ++ [g a]) w))
      as (-> & -> & -> & -> & -> & -> & ->).
    simpl. by rewrite <- app_assoc.
Qed.

(** Everything but the registry of containers. *)
Lemma createContainersOfType_Returned wasteType qty s number user w cs w' :
  createContainersOfType wasteType qty s number user w = (Returned cs, w') →
  created (db_Container w) cs (db_Container w')
  ∧ map (λ c, Some (containerType c)) cs = replicate (Z.to_nat qty) wasteType
  ∧ Forall (λ c, status c = s ∧ createdBy c = user ∧ batchNumber c = number) cs
  ∧ besides_containers w' = besides_containers w.
Proof.
  intros H. split_and!.
  1-3: destruct wasteType as [wasteType|]; [|done];
       apply createContainers_Returned in H as (? & Htypes & ?); try done.
  - rewrite <- (fmap_replicate Some), <- Htypes. by rewrite <- list_fmap_compose.
  - eapply (keeps_eq besides_containers); [|exact H].
    intros x. unfold besides_containers. keeping. by intros.
Qed.

Lemma createContainersOfType_chain (wasteTypes : gmap string WasteType) s number user
    (items : list RecoverInput) w containers w' :
  Promise_all (map (λ '{| typeId := typeId; qty := qty |},
    createContainersOfType (wasteTypes !! typeId) qty s number user) items) w
  = (Returned containers, w') →
  created (db_Container w) (concat containers) (db_Container w')
  ∧ map (λ c, Some (containerType c)) (concat containers)
    = flat_map (λ a, replicate (Z.to_nat (qty a)) (wasteTypes !! typeId a)) items
  ∧ Forall (λ c, status c = s ∧ createdBy c = user ∧ batchNumber c = number)
      (concat containers)
  ∧ besides_containers w' = besides_containers w.
Proof.
  intros H.
  eapply (Promise_all_chain _
            (λ a w cs w',
               created (db_Container w) cs (db_Container w')
               ∧ map (λ c, Some (containerType c)) cs
                 = replicate (Z.to_nat (qty a)) (wasteTypes !! typeId a)
               ∧ Forall (λ c, status c = s ∧ createdBy c = user
                              ∧ batchNumber c = number) cs
               ∧ besides_containers w' = besides_containers w)) in H.
  2:{ intros [t q] ? ? ?. apply createContainersOfType_Returned. }
  induction H as [?|a l w0 cs w1 css w2 (H1 & H2 & H3 & H4) _ (IH1 & IH2 & IH3 & IH4)];
    simpl.
  - split_and!; [constructor|done|constructor|done].
  - split_and!.
    + eapply created_app; eauto.
    + by rewrite map_app, H2, IH2.
    + by apply Forall_app.
    + congruence.
Qed.

Lemma registerRecover_success containersInput user w tx w' :
  registerRecover env containersInput user w = (Returned tx, w') →
  ∃ containers tx0,
    NoDup (map typeId (default [] containersInput))
    ∧ Forall (λ a, (qty a ≤ MAX_CONTAINERS_QUANTITY_PER_REQUEST env)%Z)
        (default [] containersInput)
    ∧ tx0 = {| transaction_id := fresh (dom (db_Transaction w));
               transaction_type := Some RECOVER;
               transaction_from := None;
               transaction_to := Some user;
               transaction_number := sequence w + 1;
               transaction_recyclingCenter := None;
               transaction_reason := None;
               transaction_relatedTo := None;
               transaction_expiredAt := None;
               transaction_details := [] |}
    ∧ tx = set_details (map (detail_of tx0) containers) tx0
    ∧ db_Transaction w' = <[transaction_id tx0 := tx0]> (db_Transaction w)
    ∧ db_TransactionDetail w'
      = db_TransactionDetail w ++ map (detail_of tx0) containers
    ∧ created (db_Container w) containers (db_Container w')
    ∧ map (λ c, Some (containerType c)) containers
      = flat_map (λ a, replicate (Z.to_nat (qty a)) (db_WasteType w !! typeId a))
          (default [] containersInput)
    ∧ Forall (λ c, status c = RECOVERED ∧ createdBy c = user
                   ∧ batchNumber c = transaction_number tx0) containers
    ∧ grants w' = grants w
    ∧ notifications w' = notifications w
    ∧ sequences w' = <["Transaction" := (sequence w + 1)%Z]> (sequences w).
Proof.
  intros H. unfold registerRecover in H.
  set (items := default [] containersInput) in *. clearbody items.
  apply declare_Returned in H as [l' H].
  apply try_catch_Returned in H; [|intros; throws].
  inv_step H. unfold lift in Hstep. injection Hstep as Hvalid <-.
  destruct a. apply validateRegisterInput_returns in Hvalid as [Hnodup Hmax].
  inv_step H. apply getWasteTypesFromIds_Returned in Hstep as [-> Htypes]; [|done].
  inv_step H. injection Hstep as <- <-.
  inv_step H.
  inv_step H. apply createTransaction_Returned in Hstep as (attrs & Hattrs & -> & ->).
  injection Hattrs as <-.
  inv_step H. inv_step H.
  apply createContainersOfType_chain in Hstep as (Hcreated & Hkinds & Hall & Hframe).
  inv_step H.
  eapply Promise_all_Returned in Hstep as [Hds Hw];
    [|intros c s b s'; apply createTransactionDetail_Returned]. subst.
  inv_step H.
  injection H as <- <- <-.
  eapply (keeps_eq besides_stock) in Hstep;
    [|intros ?; unfold besides_stock; keeping; unfold addStock; by intros].
  match type of Hstep with
  | context [foldl (λ s a, with_db_TransactionDetail (λ rows, rows ++ [?g a]) s) ?w1 ?l] =>
      destruct (append_all_fields g l w1) as (H1 & H2 & H3 & H4 & H5 & H6 & H7);
      set (w2 := foldl (λ s a, with_db_TransactionDetail (λ rows, rows ++ [g a]) s)
                   w1 l) in *
  end.
  clearbody w2.
  unfold besides_stock in Hstep. unfold besides_containers in Hframe.
  simpl in Hframe, Hcreated.
  injection Hframe as Hf1 Hf2 Hf3 Hf4 Hf5 Hf6.
  injection Hstep as Hs1 Hs2 Hs3 Hs4 Hs5 Hs6.
  eexists (concat a0), _.
  split_and!; [done|done|reflexivity|reflexivity|..]; simpl; unfold sequence.
  - by rewrite Hs1, H1, Hf1.
  - by rewrite Hs2, H2, Hf2.
  - by rewrite Hs3, H3.
  - rewrite Hkinds. clear -Htypes. induction items as [|i items IH]; simpl; [done|].
    rewrite IH.
    + destruct (Htypes (typeId i)) as [_ ->]; [left|done].
    + intros id Hid. apply Htypes. by right.
  - done.
  - by rewrite Hs4, H5, Hf4.
  - by rewrite Hs5, H6, Hf5.
  - by rewrite Hs6, H7, Hf6.
Qed.

End Success.

(** ** The workflows, from the outside *)

Section Extras.
Variable env : Environment.

Lemma set_details_nil ds t :
  transaction_details t = [] → set_details [] (set_details ds t) = t.
Proof. destruct t. simpl. by intros ->. Qed.

Lemma filter_all {A} (P : A → Prop) `{∀ x, Decision (P x)} (l : list A) :
  Forall P l → filter P l = l.
Proof.
  induction 1 as [|x l Hx _ IH]; [done|]. rewrite filter_cons_True by done.
  by rewrite IH.
Qed.

Lemma filter_none {A} (P : A → Prop) `{∀ x, Decision (P x)} (l : list A) :
  Forall (λ x, ¬ P x) l → filter P l = [].
Proof.
  induction 1 as [|x l Hx _ IH]; [done|]. by rewrite filter_cons_False.
Qed.






Lemma granted_all recipient (containers : list Container) g :
  foldl (λ g container, granted recipient container g) g containers
  = g ∪ list_to_set (map (λ c, ("Container", containerId c, recipient)) containers).
Proof.
  revert g. induction containers as [|c cs IH]; intros g; simpl.
  - set_solver.
  - rewrite IH. unfold granted. set_solver.
Qed.

Lemma found_keyed (ids : list nat) (containers : list Container) w :
  keyed_containers w →
  Forall2 (λ id container, db_Container w !! id = Some container) ids containers →
  map containerId containers = ids.
Proof.
  intros Hkeyed. induction 1 as [|id c ids cs Hc _ IH]; simpl; [done|].
  by rewrite IH, (Hkeyed _ _ Hc).
Qed.

(** X12: when [registerTransferRequest] returns: the recipient is a known user;
    the transaction is a TRANSFER_REQUEST from the requester to the recipient,
    not expired, with one detail per container of the input, in the order of
    the input; every container of the input was RECOVERED and is now
    TRANSFER_PENDING, the other containers are as before; the recipient holds
    a grant on the transaction and on every container, and no grant was taken
    away; the last notification is the one of this request to the recipient;
    the stock has not changed. *)
Theorem registerTransferRequest_pending (containersInput : list nat)
    (to : option string) (user : string) (w w' : World) (tx : Transaction) :
  keyed_containers w →
  registerTransferRequest env containersInput to user w = (Returned tx, w') →
  ∃ recipient,
    to = Some recipient ∧ recipient ∈ db_User w
    ∧ transaction_type tx = Some TRANSFER_REQUEST
    ∧ transaction_from tx = Some user
    ∧ transaction_to tx = Some recipient
    ∧ transaction_expiredAt tx = None
    ∧ map detailContainer (transaction_details tx) = containersInput
    ∧ (∀ id, id ∈ containersInput →
         ∃ container,
           db_Container w !! id = Some container
           ∧ status container = RECOVERED
           ∧ db_Container w' !! id = Some (set_status TRANSFER_PENDING container)
           ∧ ("Container", id, recipient) ∈ grants w')
    ∧ (∀ id, id ∉ containersInput → db_Container w' !! id = db_Container w !! id)
    ∧ ("Transaction", transaction_id tx, recipient) ∈ grants w'
    ∧ grants w ⊆ grants w'
    ∧ last (notifications w')
      = Some {| notifiedTransaction := transaction_id tx; notifiedBy := user;
                notifiedUsers := [recipient] |}
    ∧ db_Stock w' = db_Stock w.
Proof.
  intros Hkeyed H.
  apply registerTransferRequest_success in H
    as (recipient & cs & tx0 & -> & _ & Huser & Hfound & Hstatus & Htx0 & ->
        & _ & _ & Hc & Hstock & Hgrants & Hnotified & _).
  pose proof (found_keyed _ _ _ Hkeyed Hfound) as Hids.
  rewrite granted_all in Hgrants.
  exists recipient. subst tx0. simpl in *.
  split_and!; try done.
  - rewrite <- Hids, <- !list_fmap_compose. done.
  - intros id Hid.
    apply list_elem_of_lookup in Hid as [i Hi].
    destruct (Forall2_lookup_l _ _ _ _ _ Hfound Hi) as (c & Hci & Hc').
    exists c. split_and!; [done| | |].
    + rewrite Forall_forall in Hstatus. apply Hstatus. by eapply list_elem_of_lookup_2.
    + rewrite Hc, flipped_lookup, Hids.
      rewrite decide_True by (by eapply list_elem_of_lookup_2).
      by rewrite Hc'.
    + rewrite Hgrants. apply elem_of_union_r, elem_of_list_to_set, list_elem_of_fmap.
      exists c. split; [by rewrite (Hkeyed _ _ Hc')|by eapply list_elem_of_lookup_2].
  - intros id Hid. rewrite Hc, flipped_lookup, Hids. by rewrite decide_False.
  - rewrite Hgrants. set_solver.
  - rewrite Hgrants. set_solver.
  - rewrite Hnotified. apply last_snoc.
Qed.

Lemma containers_of_stored w transactionId container :
  keyed_containers w →
  container ∈ containers_of w transactionId →
  db_Container w !! containerId container = Some container.
Proof.
  intros Hkeyed Hin. unfold containers_of in Hin.
  apply list_elem_of_omap in Hin as (d & _ & Hd).
  by rewrite (Hkeyed _ _ Hd).
Qed.





(** X15: when [registerTransport] returns: the destination is a known recycling
    center; the transaction is a TRANSPORT from the requester to that center,
    with one detail per container of the input, in the order of the input;
    every container of the input was RECOVERED or TRANSFERRED, the requester
    was allowed to transport it, and it is now IN_TRANSIT; the other
    containers are as before; neither the stock nor the grants have
    changed. *)
Theorem registerTransport_in_transit (containersInput : list nat)
    (to : option string) (user : string) (w w' : World) (tx : Transaction) :
  keyed_containers w →
  registerTransport env containersInput to user w = (Returned tx, w') →
  ∃ center,
    to = Some center ∧ center ∈ db_RecyclingCenter w
    ∧ transaction_type tx = Some TRANSPORT
    ∧ transaction_from tx = Some user
    ∧ transaction_to tx = None
    ∧ transaction_recyclingCenter tx = Some center
    ∧ map detailContainer (transaction_details tx) = containersInput
    ∧ (∀ id, id ∈ containersInput →
         ∃ container,
           db_Container w !! id = Some container
           ∧ (status container = RECOVERED ∨ status container = TRANSFERRED)
           ∧ canTransport env container user = true
           ∧ db_Container w' !! id = Some (set_status IN_TRANSIT container))
    ∧ (∀ id, id ∉ containersInput → db_Container w' !! id = db_Container w !! id)
    ∧ db_Stock w' = db_Stock w
    ∧ grants w' = grants w.
Proof.
  intros Hkeyed H.
  apply registerTransport_success in H
    as (center & cs & tx0 & -> & _ & Hcenter & Hfound & Hstatus & Hallowed & Htx0 & ->
        & _ & _ & Hc & Hstock & Hgrants & _).
  pose proof (found_keyed _ _ _ Hkeyed Hfound) as Hids.
  exists center. subst tx0. simpl in *.
  split_and!; try done.
  - rewrite <- Hids, <- !list_fmap_compose. done.
  - intros id Hid.
    apply list_elem_of_lookup in Hid as [i Hi].
    destruct (Forall2_lookup_l _ _ _ _ _ Hfound Hi) as (c & Hci & Hc').
    pose proof (list_elem_of_lookup_2 _ _ _ Hci) as Hin.
    pose proof (list_elem_of_lookup_2 _ _ _ Hi) as Hid.
    rewrite Forall_forall in Hstatus, Hallowed.
    exists c. split_and!; [done|by apply Hstatus|by apply Hallowed|].
    rewrite Hc, flipped_lookup, Hids. rewrite decide_True by done. by rewrite Hc'.
  - intros id Hid. rewrite Hc, flipped_lookup, Hids. by rewrite decide_False.
Qed.

(** X17: when [registerRecover] returns: it has created new containers, under
    ids that no container had, and changed no other container; for every
    item of the input, in its order, as many as the quantity of the item and
    of the waste type of the item; every one of them is RECOVERED, belongs to
    the user and carries the number of the transaction as its batch number;
    the transaction has one detail per new container. *)
Theorem registerRecover_containers (containersInput : option (list RecoverInput))
    (user : string) (w w' : World) (tx : Transaction) :
  registerRecover env containersInput user w = (Returned tx, w') →
  ∃ containers,
    NoDup (map containerId containers)
    ∧ map detailContainer (transaction_details tx) = map containerId containers
    ∧ map (λ c, Some (containerType c)) containers
      = flat_map (λ a, replicate (Z.to_nat (qty a)) (db_WasteType w !! typeId a))
          (default [] containersInput)
    ∧ Forall (λ c, db_Container w !! containerId c = None
                   ∧ db_Container w' !! containerId c = Some c
                   ∧ status c = RECOVERED
                   ∧ createdBy c = user
                   ∧ batchNumber c = transaction_number tx) containers
    ∧ dom (db_Container w')
      = dom (db_Container w) ∪ list_to_set (map containerId containers)
    ∧ ∀ id container,
        db_Container w !! id = Some container →
        db_Container w' !! id = Some container.
Proof.
  intros H.
  apply registerRecover_success in H
    as (cs & tx0 & _ & _ & Htx0 & -> & _ & _ & Hcreated & Hkinds & Hall & _).
  destruct (created_new _ _ _ Hcreated) as (Hnodup & Hnew & Hdom).
  exists cs. subst tx0. simpl in *.
  split_and!; try done.
  - by rewrite <- !list_fmap_compose.
  - rewrite Forall_forall in Hnew, Hall. apply Forall_forall. intros c Hc.
    destruct (Hnew c Hc), (Hall c Hc) as (? & ? & ?). done.
  - intros id c. by apply (created_old _ cs).
Qed.

Lemma released_registry (containers : list Container) (m : gmap nat Container) :
  (∀ c, c ∈ containers → m !! containerId c = Some c ∧ status c = RECOVERED) →
  flipped RECOVERED (map (set_status TRANSFER_PENDING) containers)
    (flipped TRANSFER_PENDING containers m)
  = m.
Proof.
  intros Hcs. apply map_eq. intros k. rewrite !flipped_lookup.
  rewrite <- list_fmap_compose.
  change (containerId ∘ set_status TRANSFER_PENDING) with containerId.
  change (containerId <$> containers) with (map containerId containers).
  destruct (decide (k ∈ map containerId containers)) as [Hk|]; [|done].
  apply list_elem_of_fmap in Hk as (c & -> & Hc).
  destruct (Hcs c Hc) as [-> Hstatus]. simpl. f_equal.
  destruct c. simpl in *. by subst.
Qed.

Lemma requested_containers (containersInput : list nat) to user w tx w' :
  keyed w → keyed_containers w → referential w →
  registerTransferRequest env containersInput to user w = (Returned tx, w') →
  ∃ containers,
    (∀ c, c ∈ containers → db_Container w !! containerId c = Some c
                           ∧ status c = RECOVERED)
    ∧ db_Container w' = flipped TRANSFER_PENDING containers (db_Container w)
    ∧ containers_of w' (transaction_id tx)
      = map (set_status TRANSFER_PENDING) containers.
Proof.
  intros Hkeyed Hcontainers Hreferential H.
  apply registerTransferRequest_success in H
    as (recipient & cs & tx0 & -> & _ & Huser & Hfound & Hstatus & Htx0 & ->
        & _ & Hd & Hc & _).
  pose proof (found_keyed _ _ _ Hcontainers Hfound) as Hids.
  assert (∀ c, c ∈ cs → db_Container w !! containerId c = Some c) as Hstored.
  { intros c Hin. apply list_elem_of_lookup in Hin as [i Hi].
    destruct (Forall2_lookup_r _ _ _ _ _ Hfound Hi) as (id & _ & Hc').
    by rewrite (Hcontainers _ _ Hc'). }
  exists cs. split_and!; [|done|].
  - intros c Hin. split; [by apply Hstored|].
    rewrite Forall_forall in Hstatus. by apply Hstatus.
  - unfold containers_of. rewrite Hd, Hc, filter_app.
    rewrite filter_none, filter_all; simpl.
    + subst tx0. clear -Hstored.
      assert (∀ l tx0, (∀ c, c ∈ l → c ∈ cs) →
                omap (λ detail, flipped TRANSFER_PENDING cs (db_Container w)
                                !! detailContainer detail)
                  (map (detail_of tx0) l)
                = map (set_status TRANSFER_PENDING) l) as Hl; [|by apply Hl].
      intros l tx0. induction l as [|c l IH]; intros Hsub; simpl; [done|].
      rewrite flipped_lookup.
      rewrite decide_True
        by (apply list_elem_of_fmap; exists c; split; [done|apply Hsub; left]).
      rewrite (Hstored c) by (apply Hsub; left). simpl. f_equal.
      apply IH. intros c' Hc'. apply Hsub. by right.
    + apply Forall_fmap, Forall_forall. by subst tx0.
    + apply Forall_forall. intros d Hin Heq.
      unfold referential in Hreferential. rewrite Forall_forall in Hreferential.
      destruct (Hreferential d Hin) as [t Ht].
      pose proof (fresh_transaction w) as Hnone. subst tx0. simpl in Heq. congruence.
Qed.

(** X11: a request that is then rejected or cancelled leaves the registry of
    containers as it was before the request: [registerTransferReject] and
    [registerTransferCancel] undo what [registerTransferRequest] did to the
    containers. *)
Theorem request_released (containersInput : list nat) (to : option string)
    (user : string) (c : TerminalCall) (w w1 w2 : World) (tx tx' : Transaction) :
  keyed w → keyed_containers w → referential w →
  (∀ u, c ≠ Accept u) →
  registerTransferRequest env containersInput to user w = (Returned tx, w1) →
  call env (transaction_id tx) c w1 = (Returned tx', w2) →
  db_Container w2 = db_Container w.
Proof.
  intros Hkeyed Hcontainers Hreferential Hc Hrequest Hcall.
  destruct (requested_containers _ _ _ _ _ _ Hkeyed Hcontainers Hreferential Hrequest)
    as (cs & Hcs & Hm & Hof).
  assert (keyed w1) as Hkeyed1.
  { apply (register_stored env (TransferRequest containersInput to user)
             w (Returned tx) w1); [done|exact Hrequest]. }
  destruct c as [u|reason u|u]; simpl in Hcall.
  - by destruct (Hc u).
  - apply registerTransferReject_success in Hcall
      as (request & tx0 & _ & _ & _ & _ & _ & _ & _ & _ & -> & _); [|done].
    rewrite Hof, Hm. by apply released_registry.
  - apply registerTransferCancel_success in Hcall
      as (request & tx0 & _ & _ & _ & _ & _ & _ & _ & _ & -> & _); [|done].
    rewrite Hof, Hm. by apply released_registry.
Qed.

Lemma bind_run {S A B} (c : M S A) (k : A → M S B) s :
  bind c k s
  = match c s with
    | (Returned a, s1) => k a s1
    | (Thrown e, s1) => (Thrown e, s1)
    end.
Proof. unfold bind. by destruct (c s) as [[] ?]. Qed.

Lemma rollback_callback (s : CONTAINER_STATUS)
    (applyFnToEach : option (Container → M World unit)) container w r w' :
  (∀ f, applyFnToEach = Some f →
     ∀ c w r w', f c w = (r, w') → db_Container w' = db_Container w) →
  (let* container := Container_set_status container s in
   match applyFnToEach with
   | Some applyFnToEach => not_awaited (applyFnToEach container)
   | None => ret tt
   end ;;
   Container_save container) w = (r, w') →
  r = Returned tt
  ∧ db_Container w'
    = alter (λ _, set_status s container) (containerId container)
        (alter (set_status s) (containerId container) (db_Container w)).
Proof.
  intros Hframe. unfold Container_set_status, Container_save.
  destruct applyFnToEach as [f|].
  - run. unfold try_catch, ret.
    match goal with |- context [f ?c ?w0] =>
      destruct (f c w0) as [[[]|e] w1] eqn:Hf end;
      apply (Hframe f eq_refl) in Hf;
      simpl in Hf; intros [= <- <-]; simpl; by rewrite Hf.
  - run. by intros [= <- <-].
Qed.

Lemma rollbackContainersToStatus_registry containers s applyFnToEach w r w' :
  (∀ f, applyFnToEach = Some f →
     ∀ c w r w', f c w = (r, w') → db_Container w' = db_Container w) →
  rollbackContainersToStatus containers s applyFnToEach w = (r, w') →
  r = Returned tt ∧ db_Container w' = rolled_back s containers (db_Container w).
Proof.
  intros Hframe. unfold rollbackContainersToStatus.
  assert (∀ w, ∃ rs w',
            Promise_all (map (λ container,
              let* container := Container_set_status container s in
              match applyFnToEach with
              | Some applyFnToEach => not_awaited (applyFnToEach container)
              | None => ret tt
              end ;;
              Container_save container) containers) w = (Returned rs, w')
            ∧ db_Container w' = rolled_back s containers (db_Container w)) as Hall.
  { clear w r w'. induction containers as [|c cs IH]; intros w.
    - by eexists _, _.
    - rewrite map_cons, Promise_all_cons.
      match goal with |- context [let '(_, _) := ?f w in _] =>
        destruct (f w) as [r1 w1] eqn:Hc end.
      apply rollback_callback in Hc as [-> Hc]; [|done].
      destruct (IH w1) as (rs & w2 & -> & Hcs).
      eexists _, _. split; [reflexivity|]. by rewrite Hcs, Hc. }
  destruct (Hall w) as (rs & w1 & Hrs & Hc). rewrite bind_run.
  match goal with |- context [Promise_all ?ps w] =>
    destruct (Promise_all ps w) as [o s1] eqn:Hp end.
  assert ((o, s1) = (Returned rs, w1)) as [= -> ->]
    by exact (eq_trans (eq_sym Hp) Hrs).
  by intros [= <- <-].
Qed.


Lemma foldl_insert_lookup `{Countable K} {A} (l : list (K * A)) (m : gmap K A) k :
  NoDup (l.*1) →
  foldl (λ m row, <[row.1 := row.2]> m) m l !! k
  = match (list_to_map l : gmap K A) !! k with
    | Some v => Some v
    | None => m !! k
    end.
Proof.
  revert m. induction l as [|[i v] l IH]; intros m Hnodup; simpl; [done|].
  apply NoDup_cons in Hnodup as [Hi Hnodup]. rewrite IH by done.
  destruct (decide (i = k)) as [->|Hne].
  - rewrite !lookup_insert_eq. by rewrite (not_elem_of_list_to_map_1 _ _ Hi).
  - by rewrite !lookup_insert_ne.
Qed.

Lemma rollbackUserStockTo_Some currentStock w :
  ∃ w', rollbackUserStockTo (Some currentStock) w = (Returned tt, w')
        ∧ db_Stock w' = foldl (λ m row, <[row.1 := row.2]> m) (db_Stock w) currentStock
        ∧ besides_stock w' = besides_stock w.
Proof.
  unfold rollbackUserStockTo. rewrite bind_run.
  rewrite (Promise_all_map_returns _ (λ _, tt)
             (λ stock, with_db_Stock <[stock.1 := stock.2]>)) by done.
  eexists. split; [reflexivity|].
  revert w. induction currentStock as [|row l IH]; intros w; simpl; [done|].
  destruct (IH (with_db_Stock <[row.1 := row.2]> w)) as [-> ->]. done.
Qed.

(** X20: [rollbackUserStockTo] with the stock that [getUserStock] has read for a
    user: it returns; every counter that the user had when the stock was read
    has the value it had then; every other counter, a counter that the user
    has got since included, is left as it is.  Without a stock it does
    nothing. *)
Theorem rollbackUserStockTo_restores (user : string) (w0 w0' w w' : World)
    (currentStock : list (string * string * Z)) (r : Outcome unit) :
  getUserStock user w0 = (Returned currentStock, w0') →
  rollbackUserStockTo (Some currentStock) w = (r, w') →
  r = Returned tt
  ∧ (∀ typeId amount,
       db_Stock w0 !! (user, typeId) = Some amount →
       db_Stock w' !! (user, typeId) = Some amount)
  ∧ (∀ u typeId,
       u ≠ user ∨ db_Stock w0 !! (u, typeId) = None →
       db_Stock w' !! (u, typeId) = db_Stock w !! (u, typeId))
  ∧ rollbackUserStockTo None w = (Returned tt, w).
Proof.
  intros [= <- <-] H.
  destruct (rollbackUserStockTo_Some
              (map_to_list (filter (λ row, row.1.1 = user) (db_Stock w0))) w)
    as (w1 & Hw1 & Hstock & _).
  rewrite Hw1 in H. injection H as <- <-.
  assert (∀ k, db_Stock w1 !! k
               = match filter (λ row, row.1.1 = user) (db_Stock w0) !! k with
                 | Some v => Some v
                 | None => db_Stock w !! k
                 end) as Hlookup.
  { intros k. rewrite Hstock, foldl_insert_lookup by apply NoDup_fst_map_to_list.
    by rewrite list_to_map_to_list. }
  split_and!; [done| | |done].
  - intros t amount Hrow. rewrite Hlookup.
    assert (filter (λ row, row.1.1 = user) (db_Stock w0) !! (user, t) = Some amount)
      as -> by (by apply map_lookup_filter_Some).
    done.
  - intros u t Hrow. rewrite Hlookup.
    destruct (filter _ (db_Stock w0) !! (u, t)) as [v|] eqn:Hv; [|done].
    apply map_lookup_filter_Some in Hv as [Hv Hu]. simpl in Hu.
    destruct Hrow; congruence.
Qed.

Lemma findUserById_unchanged id w r w' : findUserById id w = (r, w') → w' = w.
Proof.
  unfold findUserById. run. case_bool_decide; simpl; by intros [= <- <-].
Qed.

Lemma request_any transaction user recipient (containers : list Container) w r w' :
  Promise_all (map (λ container,
    let* container := Container_set_status container TRANSFER_PENDING in
    Promise_call
      (grantReadAndWritePermissionsToUser "Container" (containerId container)
         (Some recipient))
      "then" (createTransactionDetail env transaction container user))
    containers) w = (r, w') →
  db_Container w' = flipped TRANSFER_PENDING containers (db_Container w)
  ∧ db_Transaction w' = db_Transaction w
  ∧ db_Stock w' = db_Stock w.
Proof.
  intros H. split_and!.
  - eapply (Promise_all_fold _ db_Container
              (λ c m, alter (set_status TRANSFER_PENDING) (containerId c) m)) in H;
      [exact H|].
    clear. intros c w r w' H. rewrite bind_run in H.
    unfold Container_set_status in H at 1. revert H. run.
    apply (keeps_eq db_Container). intros x. keeping; by intros.
  - eapply (keeps_eq db_Transaction); [|exact H]. intros x. keeping; by intros.
  - eapply (keeps_eq db_Stock); [|exact H]. intros x. keeping; by intros.
Qed.

Lemma rollback_revoke containers s to w r w' :
  rollbackContainersToStatus containers s
    (Some (λ container,
       revokeReadAndWritePermissionsToUser "Container" (containerId container) to))
    w = (r, w') →
  r = Returned tt
  ∧ db_Container w' = rolled_back s containers (db_Container w)
  ∧ db_Transaction w' = db_Transaction w
  ∧ db_Stock w' = db_Stock w.
Proof.
  intros H.
  assert (db_Transaction w' = db_Transaction w ∧ db_Stock w' = db_Stock w) as [? ?].
  { split.
    - eapply (keeps_eq db_Transaction); [|exact H]. intros x. keeping; by intros.
    - eapply (keeps_eq db_Stock); [|exact H]. intros x. keeping; by intros. }
  apply rollbackContainersToStatus_registry in H as [-> ?]; [done|].
  intros f [= <-] c w0 r0 w0'. apply (keeps_eq db_Container).
  intros x. keeping; by intros.
Qed.

Lemma rollback_grant containers s to w r w' :
  rollbackContainersToStatus containers s
    (Some (λ container,
       grantReadAndWritePermissionsToUser "Container" (containerId container) to))
    w = (r, w') →
  r = Returned tt
  ∧ db_Container w' = rolled_back s containers (db_Container w)
  ∧ db_Transaction w' = db_Transaction w
  ∧ db_Stock w' = db_Stock w.
Proof.
  intros H.
  assert (db_Transaction w' = db_Transaction w ∧ db_Stock w' = db_Stock w) as [? ?].
  { split.
    - eapply (keeps_eq db_Transaction); [|exact H]. intros x. keeping; by intros.
    - eapply (keeps_eq db_Stock); [|exact H]. intros x. keeping; by intros. }
  apply rollbackContainersToStatus_registry in H as [-> ?]; [done|].
  intros f [= <-] c w0 r0 w0'. apply (keeps_eq db_Container).
  intros x. keeping; by intros.
Qed.

Lemma released_rolled_back (containers : list Container) (m : gmap nat Container) :
  (∀ c, c ∈ containers → m !! containerId c = Some c ∧ status c = RECOVERED) →
  rolled_back RECOVERED containers (flipped TRANSFER_PENDING containers m) = m.
Proof.
  intros Hcs. apply map_eq. intros k.
  destruct (decide (k ∈ map containerId containers)) as [Hk|Hk].
  - apply list_elem_of_fmap in Hk as (c & -> & Hc).
    destruct (Hcs c Hc) as [Hstored Hstatus].
    rewrite (rolled_back_lookup _ _ _ _ c).
    + rewrite flipped_lookup, Hstored. case_decide; simpl;
        by rewrite <- Hstatus, set_status_same.
    + intros c' Hc' Heq. destruct (Hcs c' Hc') as [Hstored' _].
      rewrite Heq, Hstored in Hstored'. congruence.
    + apply list_elem_of_fmap. eauto.
  - rewrite rolled_back_lookup_ne, flipped_lookup by done. by rewrite decide_False.
Qed.

(** X14: whenever [registerTransferRequest] throws, the registry of containers,
    the ledger and the stock are as they were before the call: a failure
    after the creation of the transaction has destroyed the transaction and
    put every container back in the status RECOVERED; the error is the
    registration error. *)
Theorem registerTransferRequest_compensates (containersInput : list nat)
    (to : option string) (user : string) (w w' : World) (e : Exception) :
  keyed_containers w →
  registerTransferRequest env containersInput to user w = (Thrown e, w') →
  db_Container w' = db_Container w
  ∧ db_Transaction w' = db_Transaction w
  ∧ db_Stock w' = db_Stock w
  ∧ ∃ detail, e = Error (TransactionCouldNotBeRegistered detail).
Proof.
  intros Hkeyed. unfold registerTransferRequest. run.
  destruct (falsy to); simpl.
  { intros [= <- <-]. eauto. }
  destruct (findUserById _ w) as [[recipient|e0] w0] eqn:Hrecipient;
    apply findUserById_unchanged in Hrecipient as ->; simpl.
  2:{ intros [= <- <-]. eauto. }
  destruct (findContainerById_all containersInput user w) as (r & -> & Hall).
  destruct r as [containers|e0]; simpl.
  2:{ intros [= <- <-]. eauto. }
  destruct (forallb _ containers) eqn:Hcheck; simpl.
  2:{ intros [= <- <-]. eauto. }
  unfold createTransaction, getValueForNextSequence, Transaction_save_new. run.
  destruct (acceptsTransaction env _ _); simpl.
  2:{ intros [= <- <-]. eauto. }
  assert (∀ c, c ∈ containers →
            db_Container w !! containerId c = Some c ∧ status c = RECOVERED)
    as Hstored.
  { intros c Hc. split.
    - apply list_elem_of_lookup in Hc as [i Hi].
      destruct (Forall2_lookup_r _ _ _ _ _ Hall Hi) as (k & _ & Hk).
      by rewrite (Hkeyed _ _ Hk).
    - apply list_elem_of_In in Hc. rewrite forallb_forall in Hcheck.
      by apply Hcheck, bool_decide_eq_true in Hc. }
  match goal with |- context [Promise_all ?ps ?s] =>
    destruct (Promise_all ps s) as [[details|e0] w1] eqn:Hflip;
      apply request_any in Hflip as (Hc & Ht & Hs)
  end; simpl.
  - unfold notifyTransferRequest, notify. destruct (delivers env _); simpl; [done|].
    match goal with |- context [rollbackContainersToStatus ?cs ?st ?f ?s] =>
      destruct (rollbackContainersToStatus cs st f s) as [r2 w2] eqn:Hrollback
    end.
    apply (rollback_revoke _ _ (Some recipient)) in Hrollback
      as (-> & Hc2 & Ht2 & Hs2).
    simpl in *. intros [= <- <-].
    rewrite Hc2, Ht2, Hs2, Hc, Ht, Hs. simpl.
    split_and!; [by apply released_rolled_back
                |apply delete_insert_id, fresh_transaction|done|eauto].
  - match goal with |- context [rollbackContainersToStatus ?cs ?st ?f ?s] =>
      destruct (rollbackContainersToStatus cs st f s) as [r2 w2] eqn:Hrollback
    end.
    apply (rollback_revoke _ _ (Some recipient)) in Hrollback
      as (-> & Hc2 & Ht2 & Hs2).
    simpl in *. intros [= <- <-].
    rewrite Hc2, Ht2, Hs2, Hc, Ht, Hs. simpl.
    split_and!; [by apply released_rolled_back
                |apply delete_insert_id, fresh_transaction|done|eauto].
Qed.

Lemma rolled_back_restores s (containers : list Container) (m m' : gmap nat Container) :
  (∀ c, c ∈ containers → m !! containerId c = Some c ∧ status c = s) →
  (∀ k, k ∉ map containerId containers → m' !! k = m !! k) →
  (∀ c, c ∈ containers → is_Some (m' !! containerId c)) →
  rolled_back s containers m' = m.
Proof.
  intros Hcs Hother Hsome. apply map_eq. intros k.
  destruct (decide (k ∈ map containerId containers)) as [Hk|Hk].
  - apply list_elem_of_fmap in Hk as (c & -> & Hc).
    destruct (Hcs c Hc) as [Hstored Hstatus].
    rewrite (rolled_back_lookup _ _ _ _ c).
    + destruct (Hsome c Hc) as [c' ->]. simpl.
      by rewrite Hstored, <- Hstatus, set_status_same.
    + intros c' Hc' Heq. destruct (Hcs c' Hc') as [Hstored' _].
      rewrite Heq, Hstored in Hstored'. congruence.
    + apply list_elem_of_fmap. eauto.
  - rewrite rolled_back_lookup_ne by done. by apply Hother.
Qed.

Lemma flipped_restores s s' (containers : list Container) (m : gmap nat Container) :
  (∀ c, c ∈ containers → m !! containerId c = Some c ∧ status c = s) →
  rolled_back s containers (flipped s' containers m) = m.
Proof.
  intros Hcs. apply rolled_back_restores; [done|..].
  - intros k Hk. rewrite flipped_lookup. by rewrite decide_False.
  - intros c Hc. rewrite flipped_lookup. destruct (Hcs c Hc) as [-> _].
    case_decide; by eexists.
Qed.

Lemma reject_any transaction user (containers : list Container) w r w' :
  Promise_all (map (λ container,
    let* container := Container_set_status container RECOVERED in
    createTransactionDetail env transaction container user) containers) w = (r, w') →
  db_Container w' = flipped RECOVERED containers (db_Container w)
  ∧ db_Transaction w' = db_Transaction w.
Proof.
  intros H. split.
  - eapply (Promise_all_fold _ db_Container
              (λ c m, alter (set_status RECOVERED) (containerId c) m)) in H;
      [exact H|].
    clear. intros c w r w' H. rewrite bind_run in H.
    unfold Container_set_status in H at 1. revert H. run.
    apply (keeps_eq db_Container). intros x. keeping; by intros.
  - eapply (keeps_eq db_Transaction); [|exact H]. intros x. keeping; by intros.
Qed.

Lemma request_restored (m : gmap nat Transaction) k t request transactionId f g h :
  m !! k = None →
  m !! transactionId = Some request →
  transaction_expiredAt request = None →
  alter (λ _, set_expiredAt None request) transactionId
    (alter g transactionId
       (delete k (alter h transactionId (alter f k (<[k := t]> m)))))
  = m.
Proof.
  intros Hk Hrequest Hexpired. apply map_eq. intros i.
  assert (k ≠ transactionId) by congruence.
  destruct (decide (i = transactionId)) as [->|Hi].
  - rewrite !lookup_alter_eq, lookup_delete_ne by done.
    rewrite lookup_alter_eq, lookup_alter_ne, lookup_insert_ne, Hrequest by done.
    simpl. f_equal. destruct request. simpl in *. by subst.
  - rewrite !lookup_alter_ne by done.
    destruct (decide (i = k)) as [->|Hik].
    + by rewrite lookup_delete_eq.
    + by rewrite lookup_delete_ne, !lookup_alter_ne, lookup_insert_ne.
Qed.

Lemma containers_of_pending w transactionId :
  keyed_containers w →
  pending w transactionId →
  ∀ c, c ∈ containers_of w transactionId →
    db_Container w !! containerId c = Some c ∧ status c = TRANSFER_PENDING.
Proof.
  intros Hkeyed Hpending c Hc. unfold pending in Hpending.
  rewrite Forall_forall in Hpending. split; [|by apply Hpending].
  by eapply containers_of_stored.
Qed.

Lemma registerTransferReject_Thrown transactionId reason user w e w' :
  keyed w → keyed_containers w →
  pending w transactionId →
  registerTransferReject env transactionId reason user w = (Thrown e, w') →
  db_Container w' = db_Container w
  ∧ db_Transaction w' = db_Transaction w
  ∧ ∃ detail, e = Error (TransactionCouldNotBeRegistered detail).
Proof.
  intros Hkeyed Hcontainers Hpending.
  pose proof (containers_of_pending _ _ Hcontainers Hpending) as Hstored.
  unfold registerTransferReject, findRawTransaction, Query_get_Transaction. run.
  destruct (db_Transaction w !! transactionId) as [request|] eqn:Hrequest; simpl.
  2:{ intros [= <- <-]. eauto. }
  pose proof (Hkeyed _ _ Hrequest) as Hid. simpl in Hid.
  destruct (validateTransferAcceptRejectRequest request user) as [[]|e0] eqn:Hvalid;
    simpl.
  2:{ intros [= <- <-]. eauto. }
  apply validateTransferAcceptRejectRequest_Returned in Hvalid as (Htype & Hexpired & Hto).
  unfold createTransaction, getValueForNextSequence, Transaction_save_new. run.
  destruct (acceptsTransaction env _ _); simpl.
  2:{ intros [= <- <-]. eauto. }
  unfold Transaction_set, findContainersByTransaction. run.
  change (omap _ _) with (containers_of w (transaction_id request)).
  rewrite Hid.
  match goal with |- context [Promise_all ?ps ?s] =>
    destruct (Promise_all ps s) as [[details|e0] w1] eqn:Hflip;
      apply reject_any in Hflip as (Hc & Ht)
  end; simpl; [done|].
  rewrite rollbackContainersToStatus_returns. simpl.
  intros [= <- <-]. simpl. rewrite Hc, Ht. simpl.
  split_and!; [by apply flipped_restores| |eauto].
  rewrite Hid. apply request_restored; auto using fresh_transaction.
Qed.


Lemma cancel_any transaction user to (containers : list Container) w r w' :
  Promise_all (map (λ container,
    let* container := Container_set_status container RECOVERED in
    Promise_call
      (revokeReadAndWritePermissionsToUser "Container" (containerId container) to)
      "then" (createTransactionDetail env transaction container user))
    containers) w = (r, w') →
  db_Container w' = flipped RECOVERED containers (db_Container w)
  ∧ db_Transaction w' = db_Transaction w.
Proof.
  intros H. split.
  - eapply (Promise_all_fold _ db_Container
              (λ c m, alter (set_status RECOVERED) (containerId c) m)) in H;
      [exact H|].
    clear. intros c w r w' H. rewrite bind_run in H.
    unfold Container_set_status in H at 1. revert H. run.
    apply (keeps_eq db_Container). intros x. keeping; by intros.
  - eapply (keeps_eq db_Transaction); [|exact H]. intros x. keeping; by intros.
Qed.

Lemma registerTransferCancel_Thrown transactionId user w e w' :
  keyed w → keyed_containers w →
  pending w transactionId →
  registerTransferCancel env transactionId user w = (Thrown e, w') →
  db_Container w' = db_Container w
  ∧ db_Transaction w' = db_Transaction w
  ∧ ∃ detail, e = Error (TransactionCouldNotBeRegistered detail).
Proof.
  intros Hkeyed Hcontainers Hpending.
  pose proof (containers_of_pending _ _ Hcontainers Hpending) as Hstored.
  unfold registerTransferCancel, findRawTransaction, Query_get_Transaction. run.
  destruct (db_Transaction w !! transactionId) as [request|] eqn:Hrequest; simpl.
  2:{ intros [= <- <-]. eauto. }
  pose proof (Hkeyed _ _ Hrequest) as Hid. simpl in Hid.
  case_bool_decide; simpl.
  { intros [= <- <-]. eauto. }
  destruct (transaction_expiredAt request) eqn:Hexpired; simpl.
  { intros [= <- <-]. eauto. }
  destruct (transaction_from request) as [from|]; simpl.
  2:{ intros [= <- <-]. eauto. }
  case_bool_decide; simpl.
  { intros [= <- <-]. eauto. }
  unfold createTransaction, getValueForNextSequence, Transaction_save_new. run.
  destruct (acceptsTransaction env _ _); simpl.
  2:{ intros [= <- <-]. eauto. }
  unfold Transaction_set, findContainersByTransaction. run.
  change (omap _ _) with (containers_of w (transaction_id request)).
  rewrite Hid.
  match goal with |- context [Promise_all ?ps ?s] =>
    destruct (Promise_all ps s) as [[details|e0] w1] eqn:Hflip;
      apply cancel_any in Hflip as (Hc & Ht)
  end; simpl; [done|].
  match goal with |- context [rollbackContainersToStatus ?cs ?st ?f ?s] =>
    destruct (rollbackContainersToStatus cs st f s) as [r2 w2] eqn:Hrollback
  end.
  apply (rollback_grant _ _ (transaction_to request)) in Hrollback
    as (-> & Hc2 & Ht2 & _).
  simpl in *. intros [= <- <-]. simpl. rewrite Hc2, Ht2, Hc, Ht. simpl.
  split_and!; [by apply flipped_restores| |eauto].
  rewrite Hid. apply request_restored; auto using fresh_transaction.
Qed.

Lemma accept_any transaction user from to (containers : list Container) w r w' :
  (∀ c, c ∈ containers → db_Container w !! containerId c = Some c) →
  Array_map (λ container,
    let* container := Container_set_status container TRANSFERRED in
    Promise_call (moveStock (containerType container) from to 1)
      "createTransactionDetail"
      (createTransactionDetail env transaction container user)) containers w
  = (r, w') →
  db_Transaction w' = db_Transaction w
  ∧ (∀ k, k ∉ map containerId containers → db_Container w' !! k = db_Container w !! k)
  ∧ (∀ c, c ∈ containers → is_Some (db_Container w' !! containerId c)).
Proof.
  intros Hstored H. split.
  { eapply (keeps_eq db_Transaction); [|exact H]. intros x.
    keeping; unfold addStock; by intros. }
  destruct containers as [|c cs]; simpl in H.
  { injection H as <- <-. split; [done|]. by intros c Hc%elem_of_nil. }
  rewrite bind_run in H.
  destruct (accept_callback_throws env transaction user from to c w)
    as (e & w1 & Hc & _).
  rewrite Hc in H. injection H as <- <-.
  assert (db_Container w1
          = alter (set_status TRANSFERRED) (containerId c) (db_Container w)) as ->.
  { clear -Hc. rewrite bind_run in Hc.
    unfold Container_set_status in Hc at 1. revert Hc. run.
    apply (keeps_eq db_Container). intros x. keeping; unfold addStock; by intros. }
  split.
  - intros k Hk. simpl in Hk. apply not_elem_of_cons in Hk as [Hk _].
    by rewrite lookup_alter_ne.
  - intros c' Hc'. rewrite lookup_alter, (Hstored c' Hc').
    case_decide; [|by eexists].
    rewrite (Hstored c) by left. by eexists.
Qed.

Lemma registerTransferAccept_Thrown transactionId user w e w' :
  keyed w → keyed_containers w →
  pending w transactionId →
  registerTransferAccept env transactionId user w = (Thrown e, w') →
  db_Container w' = db_Container w
  ∧ db_Transaction w' = db_Transaction w
  ∧ ∃ detail, e = Error (TransactionCouldNotBeRegistered detail).
Proof.
  intros Hkeyed Hcontainers Hpending.
  pose proof (containers_of_pending _ _ Hcontainers Hpending) as Hstored.
  unfold registerTransferAccept, findRawTransaction, Query_get_Transaction. run.
  destruct (db_Transaction w !! transactionId) as [request|] eqn:Hrequest; simpl.
  2:{ intros [= <- <-]. eauto. }
  pose proof (Hkeyed _ _ Hrequest) as Hid. simpl in Hid.
  destruct (validateTransferAcceptRejectRequest request user) as [[]|e0] eqn:Hvalid;
    simpl.
  2:{ intros [= <- <-]. eauto. }
  apply validateTransferAcceptRejectRequest_Returned in Hvalid as (Htype & Hexpired & Hto).
  unfold createTransaction, getValueForNextSequence, Transaction_save_new. run.
  destruct (acceptsTransaction env _ _); simpl.
  2:{ intros [= <- <-]. eauto. }
  unfold Transaction_set, findContainersByTransaction. run.
  change (omap _ _) with (containers_of w (transaction_id request)).
  rewrite Hid.
  match goal with |- context [Array_map ?f ?l ?s] =>
    destruct (Array_map f l s) as [[details|e0] w1] eqn:Hflip
  end; simpl; [done|].
  apply accept_any in Hflip as (Ht & Hother & Hsome);
    [|intros c Hc; by apply Hstored].
  rewrite rollbackContainersToStatus_returns. simpl.
  intros [= <- <-]. simpl. rewrite Ht. simpl.
  split_and!; [by apply rolled_back_restores| |eauto].
  rewrite Hid. apply request_restored; auto using fresh_transaction.
Qed.

(** X7: whenever one of [registerTransferAccept], [registerTransferReject] and
    [registerTransferCancel] throws for a request whose containers are
    TRANSFER_PENDING, the ledger and the registry of containers are as they
    were before the call: the request is not consumed, no transaction of the
    call remains, and the containers are TRANSFER_PENDING; the error is the
    registration error. *)
Theorem terminal_compensates (transactionId : nat) (c : TerminalCall)
    (w w' : World) (e : Exception) :
  keyed w → keyed_containers w →
  pending w transactionId →
  call env transactionId c w = (Thrown e, w') →
  db_Transaction w' = db_Transaction w
  ∧ db_Container w' = db_Container w
  ∧ ∃ detail, e = Error (TransactionCouldNotBeRegistered detail).
Proof.
  intros Hkeyed Hcontainers Hpending H.
  destruct c as [user|reason user|user]; simpl in H.
  - apply registerTransferAccept_Thrown in H as (? & ? & ?); auto.
  - apply registerTransferReject_Thrown in H as (? & ? & ?); auto.
  - apply registerTransferCancel_Thrown in H as (? & ? & ?); auto.
Qed.

(** X8: [registerTransferAccept] on a valid request with a container leaves the
    stock moved: it has called [StockService.moveStock] for the first
    container of the request before it throws, and its compensation block
    does not touch the stock; one unit of the waste type of that container has
    gone from the sender to the recipient, although the transfer is not
    registered. *)
Theorem registerTransferAccept_moves_stock (transactionId : nat)
    (user sender : string) (w : World) (request : Transaction)
    (container : Container) (containers : list Container) :
  db_Transaction w !! transactionId = Some request →
  transaction_id request = transactionId →
  transaction_type request = Some TRANSFER_REQUEST →
  transaction_expiredAt request = None →
  transaction_from request = Some sender →
  transaction_to request = Some user →
  (∀ t, acceptsTransaction env t (JsString (getSessionToken user)) = true) →
  containers_of w transactionId = container :: containers →
  ∃ e w',
    registerTransferAccept env transactionId user w = (Thrown e, w')
    ∧ db_Stock w'
      = db_Stock (addStock user (wasteTypeId (containerType container)) 1
                    (addStock sender (wasteTypeId (containerType container)) (-1) w)).
Proof.
  intros Hrequest Hid Htype Hexpired Hfrom Hto Haccepts Hcs.
  unfold registerTransferAccept, findRawTransaction, Query_get_Transaction,
    validateTransferAcceptRejectRequest, createTransaction,
    getValueForNextSequence, Transaction_save_new, Transaction_set,
    findContainersByTransaction.
  run. rewrite Hrequest. simpl. rewrite Htype, Hexpired, Hto, Hfrom. simpl.
  rewrite bool_decide_eq_false_2 by (intros ?; done).
  simpl. rewrite Haccepts. simpl.
  change (omap _ _) with (containers_of w (transaction_id request)).
  rewrite Hid, Hcs.
  simpl. unfold bind. simpl.
  rewrite rollbackContainersToStatus_returns. simpl.
  eexists _, _. split; [reflexivity|]. reflexivity.
Qed.






Local Arguments rollbackUserStockTo : simpl never.


(** X5: a terminal call for a transaction that is missing, is not a
    TRANSFER_REQUEST, is expired, or is not reserved to the caller (the
    recipient for an accept or a reject, the sender for a cancel) throws the
    registration error of the first of these checks that fails, and leaves
    the world as it was: no number is drawn from the sequence. *)
Theorem terminal_refused (transactionId : nat) (c : TerminalCall) (w : World)
    (detail : Message) :
  keyed w →
  refusal transactionId (db_Transaction w !! transactionId) c = Some detail →
  call env transactionId c w
  = (Thrown (Error (TransactionCouldNotBeRegistered detail)), w).
Proof.
  intros Hkeyed. unfold refusal.
  destruct (db_Transaction w !! transactionId) as [request|] eqn:Hrequest.
  2:{ intros [= <-].
      destruct c; simpl;
        unfold registerTransferAccept, registerTransferReject, registerTransferCancel,
          findRawTransaction, Query_get_Transaction; run; by rewrite Hrequest. }
  pose proof (Hkeyed _ _ Hrequest) as Hid. simpl in Hid.
  intros Hrefusal.
  destruct c as [user|reason user|user]; simpl in *;
    unfold registerTransferAccept, registerTransferReject, registerTransferCancel,
      findRawTransaction, Query_get_Transaction, validateTransferAcceptRejectRequest;
    run; rewrite Hrequest; simpl; rewrite ?Hid.
  all: destruct (decide (transaction_type request = Some TRANSFER_REQUEST)) as [Htype|Htype];
    [rewrite bool_decide_eq_true_2 in Hrefusal by done;
     rewrite (bool_decide_eq_false_2 (_ ≠ _)) by (by intros ?)
    |rewrite bool_decide_eq_false_2 in Hrefusal by done;
     rewrite (bool_decide_eq_true_2 (_ ≠ _)) by done;
     simpl; by injection Hrefusal as <-].
  all: simpl; destruct (transaction_expiredAt request) as [date|];
    [simpl; by injection Hrefusal as <-|].
  - destruct (transaction_to request) as [to|]; simpl;
      [|by injection Hrefusal as <-].
    destruct (decide (to = user)) as [->|Hne].
    + by rewrite bool_decide_eq_true_2 in Hrefusal.
    + rewrite bool_decide_eq_false_2 in Hrefusal by done.
      rewrite bool_decide_eq_true_2 by done. simpl. by injection Hrefusal as <-.
  - destruct (transaction_to request) as [to|]; simpl;
      [|by injection Hrefusal as <-].
    destruct (decide (to = user)) as [->|Hne].
    + by rewrite bool_decide_eq_true_2 in Hrefusal.
    + rewrite bool_decide_eq_false_2 in Hrefusal by done.
      rewrite bool_decide_eq_true_2 by done. simpl. by injection Hrefusal as <-.
  - destruct (transaction_from request) as [from|]; simpl;
      [|by injection Hrefusal as <-].
    destruct (decide (from = user)) as [->|Hne].
    + by rewrite bool_decide_eq_true_2 in Hrefusal.
    + rewrite bool_decide_eq_false_2 in Hrefusal by done.
      rewrite bool_decide_eq_true_2 by done. simpl. by injection Hrefusal as <-.
Qed.

Lemma findContainerById_returns (ids : list nat) user w :
  Forall (λ id, is_Some (db_Container w !! id)) ids →
  ∃ containers,
    Promise_all (map (λ containerId, findContainerById containerId user) ids) w
    = (Returned containers, w)
    ∧ Forall2 (λ id container, db_Container w !! id = Some container) ids containers.
Proof.
  intros Hids. destruct (findContainerById_all ids user w) as ([cs|e] & Hr & Hfound).
  - eauto.
  - destruct Hfound as (id & Hid & Hnone & _). rewrite Forall_forall in Hids.
    destruct (Hids id Hid) as [c Hc]. congruence.
Qed.

Lemma callbacks_return {A B} (f : A → M World B) (l : list A) w :
  (∀ a w, ∃ b w', f a w = (Returned b, w')) →
  ∃ bs w', Promise_all (map f l) w = (Returned bs, w').
Proof.
  intros Hf.
  destruct (Promise_all_returns_rel (λ _ _, True) f l w) as (bs & w' & H & _);
    [done|done| |eauto].
  intros a _ s. destruct (Hf a s) as (b & s' & ->). eauto.
Qed.

Lemma createTransactionDetail_returns transaction container user w :
  (∀ d, acceptsDetail env d = true) →
  ∃ d w', createTransactionDetail env transaction container user w = (Returned d, w').
Proof.
  intros Haccepts. unfold createTransactionDetail, TransactionDetail_save. run.
  rewrite Haccepts. simpl. eauto.
Qed.

(** X13: [registerTransferRequest] returns when the recipient is a known user,
    every container of the input is stored and RECOVERED, and the store and
    the notifier accept what they are given. *)
Theorem registerTransferRequest_returns (containersInput : list nat)
    (recipient user : string) (w : World) :
  recipient ≠ "" → recipient ∈ db_User w →
  Forall (λ id, status <$> db_Container w !! id = Some RECOVERED) containersInput →
  (∀ t, acceptsTransaction env t (JsString (getSessionToken user)) = true) →
  (∀ d, acceptsDetail env d = true) →
  (∀ n, delivers env n = true) →
  ∃ transaction w',
    registerTransferRequest env containersInput (Some recipient) user w
    = (Returned transaction, w').
Proof.
  intros Hrecipient Hknown Hcontainers Htransaction Hdetail Hdelivers.
  destruct (findContainerById_returns containersInput user w) as (cs & Hcs & Hfound).
  { eapply Forall_impl; [exact Hcontainers|]. intros id Hid.
    simpl in Hid. destruct (db_Container w !! id); [by eexists|done]. }
  unfold registerTransferRequest, findUserById. run.
  rewrite bool_decide_eq_false_2 by done. simpl.
  rewrite bool_decide_eq_true_2 by done. simpl.
  rewrite Hcs. simpl.
  assert (forallb (λ container, bool_decide (status container = RECOVERED)) cs = true)
    as ->.
  { apply forallb_forall. intros c Hc%list_elem_of_In.
    apply list_elem_of_lookup in Hc as [i Hi].
    destruct (Forall2_lookup_r _ _ _ _ _ Hfound Hi) as (id & Hid & Hc).
    rewrite Forall_forall in Hcontainers.
    pose proof (Hcontainers id (list_elem_of_lookup_2 _ _ _ Hid)) as Hstatus.
    rewrite Hc in Hstatus. apply bool_decide_eq_true. by injection Hstatus. }
  simpl.
  unfold createTransaction, getValueForNextSequence, Transaction_save_new. run.
  rewrite Htransaction. simpl.
  match goal with |- context [Promise_all (map ?f cs) ?s] =>
    destruct (callbacks_return f cs s) as (details & w1 & ->)
  end.
  { intros c s. unfold Container_set_status, Promise_call.
    rewrite bool_decide_eq_true_2 by done. run.
    edestruct createTransactionDetail_returns as (d & w' & ->); [exact Hdetail|].
    eauto. }
  simpl. unfold notifyTransferRequest, notify. rewrite Hdelivers. simpl. eauto.
Qed.

(** X16: [registerTransport] returns when the destination is a known recycling
    center, every container of the input is stored, RECOVERED or TRANSFERRED,
    and the user is allowed to transport it, and the store and the notifier
    accept what they are given. *)
Theorem registerTransport_returns (containersInput : list nat)
    (center user : string) (w : World) :
  center ≠ "" → center ∈ db_RecyclingCenter w →
  Forall (λ id, ∃ container,
            db_Container w !! id = Some container
            ∧ (status container = RECOVERED ∨ status container = TRANSFERRED)
            ∧ canTransport env container user = true) containersInput →
  (∀ t, acceptsTransaction env t (JsString (getSessionToken user)) = true) →
  (∀ d, acceptsDetail env d = true) →
  (∀ n, delivers env n = true) →
  ∃ transaction w',
    registerTransport env containersInput (Some center) user w
    = (Returned transaction, w').
Proof.
  intros Hcenter Hknown Hcontainers Htransaction Hdetail Hdelivers.
  destruct (findContainerById_returns containersInput user w) as (cs & Hcs & Hfound).
  { eapply Forall_impl; [exact Hcontainers|]. by intros id (c & -> & _). }
  assert (∀ c, c ∈ cs → (status c = RECOVERED ∨ status c = TRANSFERRED)
                        ∧ canTransport env c user = true) as Hall.
  { intros c Hc. apply list_elem_of_lookup in Hc as [i Hi].
    destruct (Forall2_lookup_r _ _ _ _ _ Hfound Hi) as (id & Hid & Hc).
    rewrite Forall_forall in Hcontainers.
    destruct (Hcontainers id (list_elem_of_lookup_2 _ _ _ Hid)) as (c' & Hc' & ?).
    by simplify_eq. }
  unfold registerTransport, findRecyclingCenterById. run.
  rewrite bool_decide_eq_false_2 by done. simpl.
  rewrite bool_decide_eq_true_2 by done. simpl.
  rewrite Hcs. simpl.
  assert (forallb (λ container,
            bool_decide (status container ∈ [RECOVERED; TRANSFERRED])) cs = true) as ->.
  { apply forallb_forall. intros c Hc%list_elem_of_In.
    apply bool_decide_eq_true. destruct (Hall c Hc) as [[->| ->] _];
      [left|right; left]. }
  simpl.
  rewrite (Promise_all_map_returns _ (λ _, tt) (λ _ w, w)).
  2:{ intros c Hc s. unfold canTransportContainer.
      by destruct (Hall c Hc) as [_ ->]. }
  simpl.
  assert (∀ w0 : World, foldl (λ w (_ : Container), w) w0 cs = w0) as ->.
  { intros w0. apply foldl_same. }
  unfold createTransaction, getValueForNextSequence, Transaction_save_new. run.
  rewrite Htransaction. simpl.
  match goal with |- context [Promise_all (map ?f cs) ?s] =>
    destruct (callbacks_return f cs s) as (details & w1 & ->)
  end.
  { intros c s. unfold Container_set_status. run.
    edestruct createTransactionDetail_returns as (d & w' & ->); [exact Hdetail|].
    eauto. }
  simpl. unfold notifyTransport, notify. rewrite Hdelivers. simpl. eauto.
Qed.

Lemma refusal_None transactionId request c :
  refusal transactionId (Some request) c = None →
  transaction_type request = Some TRANSFER_REQUEST
  ∧ transaction_expiredAt request = None
  ∧ party request c = Some (caller c).
Proof.
  unfold refusal. case_bool_decide as Htype; [|done].
  destruct (transaction_expiredAt request); [done|].
  destruct (party request c) as [u|]; [|done].
  case_bool_decide as Hu; [|done]. by subst.
Qed.

(** X6: a terminal call that is not refused returns when the store accepts what
    it is given: a reject or a cancel of a request that has a recipient, and
    an accept of a request without containers (an accept of a request with a
    container throws). *)
Theorem terminal_returns (transactionId : nat) (c : TerminalCall) (w : World)
    (request : Transaction) :
  keyed w →
  db_Transaction w !! transactionId = Some request →
  refusal transactionId (Some request) c = None →
  is_Some (transaction_to request) →
  (∀ user, c = Accept user → containers_of w transactionId = []) →
  (∀ t token, acceptsTransaction env t token = true) →
  (∀ d, acceptsDetail env d = true) →
  ∃ transaction w', call env transactionId c w = (Returned transaction, w').
Proof.
  intros Hkeyed Hrequest (Htype & Hexpired & Hparty)%refusal_None [recipient Hto]
    Hempty Htransaction Hdetail.
  pose proof (Hkeyed _ _ Hrequest) as Hid. simpl in Hid.
  destruct c as [user|reason user|user]; simpl in *.
  - pose proof (Hempty user eq_refl) as Hnone.
    unfold registerTransferAccept, findRawTransaction, Query_get_Transaction,
      validateTransferAcceptRejectRequest.
    run. rewrite Hrequest. simpl. rewrite Htype, Hexpired, Hparty. simpl.
    rewrite !(bool_decide_eq_false_2 (_ ≠ _)) by (by intros ?). simpl.
    unfold createTransaction, getValueForNextSequence, Transaction_save_new. run.
    rewrite Htransaction. simpl.
    unfold Transaction_set, findContainersByTransaction. run.
    change (omap _ _) with (containers_of w (transaction_id request)).
    rewrite Hid, Hnone. simpl. eauto.
  - unfold registerTransferReject, findRawTransaction, Query_get_Transaction,
      validateTransferAcceptRejectRequest.
    run. rewrite Hrequest. simpl. rewrite Htype, Hexpired, Hparty. simpl.
    rewrite !(bool_decide_eq_false_2 (_ ≠ _)) by (by intros ?). simpl.
    unfold createTransaction, getValueForNextSequence, Transaction_save_new. run.
    rewrite Htransaction. simpl.
    unfold Transaction_set, findContainersByTransaction. run.
    match goal with |- context [Promise_all (map ?f ?cs) ?s] =>
      destruct (callbacks_return f cs s) as (details & w1 & ->)
    end; [|simpl; eauto].
    intros c s. unfold Container_set_status. run.
    edestruct createTransactionDetail_returns as (d & w' & ->); [exact Hdetail|].
    eauto.
  - unfold registerTransferCancel, findRawTransaction, Query_get_Transaction.
    run. rewrite Hrequest. simpl. rewrite Htype, Hexpired, Hparty. simpl.
    rewrite !(bool_decide_eq_false_2 (_ ≠ _)) by (by intros ?). simpl.
    unfold createTransaction, getValueForNextSequence, Transaction_save_new. run.
    rewrite Htransaction. simpl.
    unfold Transaction_set, findContainersByTransaction. run.
    match goal with |- context [Promise_all (map ?f ?cs) ?s] =>
      destruct (callbacks_return f cs s) as (details & w1 & ->)
    end; [|simpl; eauto].
    intros c s. unfold Container_set_status, Promise_call.
    rewrite bool_decide_eq_true_2 by done. rewrite Hto. run.
    edestruct createTransactionDetail_returns as (d & w' & ->); [exact Hdetail|].
    eauto.
Qed.


(** X22: no registration, whether it returns or throws, writes the waste types,
    the users or the recycling centers, and none deletes a container; only
    [registerRecover] adds containers. *)
Theorem register_master_data (r : Registration) (w : World) :
  db_WasteType (register env r w).2 = db_WasteType w
  ∧ db_User (register env r w).2 = db_User w
  ∧ db_RecyclingCenter (register env r w).2 = db_RecyclingCenter w
  ∧ dom (db_Container w) ⊆ dom (db_Container (register env r w).2)
  ∧ (creates_containers r = false →
     dom (db_Container (register env r w).2) = dom (db_Container w)).
Proof.
  destruct (register env r w) as [o w'] eqn:H. simpl.
  pose proof (register_master env (master_data w) r w o w' eq_refl H) as Hmaster.
  injection Hmaster as -> -> ->.
  split_and!; try done.
  - by apply (register_registry env (dom (db_Container w)) r w o w').
  - intros Hr. by apply (register_containers env (dom (db_Container w)) r Hr w o w').
Qed.

(** X23: whatever a registration does, and whether it returns or throws, the
    sequence of the transaction numbers does not go back, and the ledger of
    details and the notifications only grow at their end: a registration
    that fails leaves the number it drew unused, and removes no detail that it
    saved. *)
Theorem register_append_only (r : Registration) (w : World) :
  (sequence w ≤ sequence (register env r w).2)%Z
  ∧ db_TransactionDetail w `prefix_of` db_TransactionDetail (register env r w).2
  ∧ notifications w `prefix_of` notifications (register env r w).2.
Proof.
  destruct (register env r w) as [o w'] eqn:H. simpl. split_and!.
  - by apply (register_sequence env (sequence w) r w o w').
  - by apply (register_details env (db_TransactionDetail w) r w o w').
  - by apply (register_notified env (notifications w) r w o w').
Qed.

(** X24: what the workflows never touch, whether they return or throw: the stock,
    but for [registerRecover] and [registerTransferAccept]; the
    notifications, but for [registerTransferRequest] and [registerTransport];
    the grants, but for [registerTransferRequest] and
    [registerTransferCancel]. *)
Theorem register_never_touches (r : Registration) (w : World) :
  (moves_stock r = false → db_Stock (register env r w).2 = db_Stock w)
  ∧ (notifier r = false → notifications (register env r w).2 = notifications w)
  ∧ (changes_grants r = false → grants (register env r w).2 = grants w).
Proof.
  destruct (register env r w) as [o w'] eqn:H. simpl. split_and!; intros Hr.
  - by apply (register_stock env (db_Stock w) r Hr w o w').
  - by apply (register_notifications env (notifications w) r Hr w o w').
  - by apply (register_grants env (grants w) r Hr w o w').
Qed.

Lemma register_number r w tx w' :
  keyed w →
  register env r w = (Returned tx, w') →
  transaction_number tx = (sequence w + 1)%Z ∧ sequence w' = (sequence w + 1)%Z.
Proof.
  intros Hkeyed H.
  assert (∀ m : gmap string Z,
            default 0%Z (<["Transaction" := (sequence w + 1)%Z]> m !! "Transaction")
            = (sequence w + 1)%Z) as Hseq.
  { intros m. by rewrite lookup_insert_eq. }
  destruct r as [containersInput user|containersInput to user
                |transactionId [user|reason user|user]|containersInput to user];
    simpl in H.
  - apply registerRecover_success in H as (cs & tx0 & H).
    destruct H as (_ & _ & -> & -> & _ & _ & _ & _ & _ & _ & _ & Hs).
    split; [reflexivity|]. unfold sequence at 1. by rewrite Hs, Hseq.
  - apply registerTransferRequest_success in H as (recipient & cs & tx0 & H).
    destruct H as (_ & _ & _ & _ & _ & -> & -> & _ & _ & _ & _ & _ & _ & Hs).
    split; [reflexivity|]. unfold sequence at 1. by rewrite Hs, Hseq.
  - apply registerTransferAccept_success in H as (request & H); [|done].
    destruct H as (_ & _ & _ & _ & _ & -> & _ & _ & _ & _ & _ & _ & Hs).
    split; [reflexivity|]. unfold sequence at 1. by rewrite Hs, Hseq.
  - apply registerTransferReject_success in H as (request & tx0 & H); [|done].
    destruct H as (_ & _ & _ & _ & -> & -> & _ & _ & _ & _ & _ & _ & Hs).
    split; [reflexivity|]. unfold sequence at 1. by rewrite Hs, Hseq.
  - apply registerTransferCancel_success in H as (request & tx0 & H); [|done].
    destruct H as (_ & _ & _ & _ & -> & -> & _ & _ & _ & _ & _ & _ & Hs).
    split; [reflexivity|]. unfold sequence at 1. by rewrite Hs, Hseq.
  - apply registerTransport_success in H as (center & cs & tx0 & H).
    destruct H as (_ & _ & _ & _ & _ & _ & -> & -> & _ & _ & _ & _ & _ & _ & Hs).
    split; [reflexivity|]. unfold sequence at 1. by rewrite Hs, Hseq.
Qed.

Lemma runs_keeps rs w :
  stored_by_id w → stored_by_id (runs env rs w) ∧ (sequence w ≤ sequence (runs env rs w))%Z.
Proof.
  unfold runs. revert w. induction rs as [|r rs IH]; intros w Hw; simpl; [done|].
  destruct (register env r w) as [o w1] eqn:H. simpl.
  destruct (IH w1) as [? ?]; [by apply (register_stored env r w o w1)|].
  split; [done|].
  pose proof (register_sequence env (sequence w) r w o w1 ltac:(simpl; lia) H) as Hle.
  simpl in Hle. lia.
Qed.

(** X4: the numbers of the transactions grow in the order of their registration:
    a transaction that is registered after another one, whatever has been
    registered or has failed in between, has a greater number. *)
Theorem numbers_increase (r1 r2 : Registration) (between : list Registration)
    (w w1 w2 : World) (tx1 tx2 : Transaction) :
  keyed w → keyed_containers w →
  register env r1 w = (Returned tx1, w1) →
  register env r2 (runs env between w1) = (Returned tx2, w2) →
  (transaction_number tx1 < transaction_number tx2)%Z.
Proof.
  intros Hkeyed Hcontainers H1 H2.
  destruct (register_number r1 w tx1 w1 Hkeyed H1) as [-> Hw1].
  assert (stored_by_id w1) as Hstored
    by (by apply (register_stored env r1 w (Returned tx1) w1)).
  destruct (runs_keeps between w1 Hstored) as [[Hkeyed' _] Hle].
  destruct (register_number r2 _ tx2 w2 Hkeyed' H2) as [-> _]. lia.
Qed.
End Extras.

(** ** The properties on the small world *)

Lemma keyed_recovered_world : keyed recovered_world.
Proof. unfold keyed. apply (bool_decide_unpack _). vm_compute. exact I. Defined.

Lemma keyed_containers_requested_world : keyed_containers requested_world.
Proof. unfold keyed_containers. apply (bool_decide_unpack _). vm_compute. exact I. Defined.

Lemma referential_recovered_world : referential recovered_world.
Proof. unfold referential. apply (bool_decide_unpack _). vm_compute. exact I. Defined.


Lemma pending_requested_world : pending requested_world 1.
Proof. unfold pending. apply (bool_decide_unpack _). vm_compute. exact I. Defined.

Lemma replaceInTemplate_no_brace_witness :
  replaceInTemplate (code_units "a } b") (λ _, Some (code_units "x"))
  = code_units "a } b".
Proof.
  apply replaceInTemplate_no_brace. left.
  apply (bool_decide_unpack _). vm_compute. exact I.
Defined.

Lemma replaceInTemplate_placeholder_witness :
  replaceInTemplate
    (code_units "Hi " ++ 123%N :: code_units " " ++ code_units "name" ++ []
       ++ 125%N :: code_units "!")
    (λ token, if decide (token = code_units "name") then Some (code_units "Bob")
              else None)
  = code_units "Hi "
    ++ default [] (if decide (code_units "name" = code_units "name")
                   then Some (code_units "Bob") else None)
    ++ replaceInTemplate (code_units "!")
         (λ token, if decide (token = code_units "name") then Some (code_units "Bob")
                   else None).
Proof.
  apply (replaceInTemplate_placeholder (code_units "Hi ") (code_units " ")
           (code_units "name") [] (code_units "!")).
  - apply (bool_decide_unpack _). vm_compute. exact I.
  - apply (bool_decide_unpack _). vm_compute. exact I.
  - apply (bool_decide_unpack _). vm_compute. exact I.
  - apply (bool_decide_unpack _). vm_compute. exact I.
  - apply (bool_decide_unpack _). vm_compute. exact I.
Defined.


Lemma registerTransferRequest_pending_witness :
  ∃ tx w' recipient,
    Some "B" = Some recipient ∧ recipient ∈ db_User recovered_world
    ∧ transaction_type tx = Some TRANSFER_REQUEST
    ∧ transaction_from tx = Some "A"
    ∧ transaction_to tx = Some recipient
    ∧ transaction_expiredAt tx = None
    ∧ map detailContainer (transaction_details tx) = [0; 1]
    ∧ (∀ id, id ∈ [0; 1] →
         ∃ container,
           db_Container recovered_world !! id = Some container
           ∧ status container = RECOVERED
           ∧ db_Container w' !! id = Some (set_status TRANSFER_PENDING container)
           ∧ ("Container", id, recipient) ∈ grants w')
    ∧ (∀ id, id ∉ [0; 1] → db_Container w' !! id = db_Container recovered_world !! id)
    ∧ ("Transaction", transaction_id tx, recipient) ∈ grants w'
    ∧ grants recovered_world ⊆ grants w'
    ∧ last (notifications w')
      = Some {| notifiedTransaction := transaction_id tx; notifiedBy := "A";
                notifiedUsers := [recipient] |}
    ∧ db_Stock w' = db_Stock recovered_world.
Proof.
  eexists _, _.
  eapply (registerTransferRequest_pending example_env [0; 1] (Some "B") "A"
            recovered_world).
  - exact keyed_containers_recovered_world.
  - vm_compute. reflexivity.
Defined.



Lemma registerTransport_in_transit_witness :
  ∃ tx w' center,
    Some "RC" = Some center ∧ center ∈ db_RecyclingCenter recovered_world
    ∧ transaction_type tx = Some TRANSPORT
    ∧ transaction_from tx = Some "A"
    ∧ transaction_to tx = None
    ∧ transaction_recyclingCenter tx = Some center
    ∧ map detailContainer (transaction_details tx) = [0; 1]
    ∧ (∀ id, id ∈ [0; 1] →
         ∃ container,
           db_Container recovered_world !! id = Some container
           ∧ (status container = RECOVERED ∨ status container = TRANSFERRED)
           ∧ canTransport example_env container "A" = true
           ∧ db_Container w' !! id = Some (set_status IN_TRANSIT container))
    ∧ (∀ id, id ∉ [0; 1] → db_Container w' !! id = db_Container recovered_world !! id)
    ∧ db_Stock w' = db_Stock recovered_world
    ∧ grants w' = grants recovered_world.
Proof.
  eexists _, _.
  eapply (registerTransport_in_transit example_env [0; 1] (Some "RC") "A"
            recovered_world).
  - exact keyed_containers_recovered_world.
  - vm_compute. reflexivity.
Defined.

Lemma registerRecover_containers_witness :
  ∃ tx w' containers,
    NoDup (map containerId containers)
    ∧ map detailContainer (transaction_details tx) = map containerId containers
    ∧ map (λ c, Some (containerType c)) containers
      = flat_map (λ a, replicate (Z.to_nat (qty a))
                         (db_WasteType empty_world !! typeId a))
          (default [] (Some [two_plastic]))
    ∧ Forall (λ c, db_Container empty_world !! containerId c = None
                   ∧ db_Container w' !! containerId c = Some c
                   ∧ status c = RECOVERED
                   ∧ createdBy c = "A"
                   ∧ batchNumber c = transaction_number tx) containers
    ∧ dom (db_Container w')
      = dom (db_Container empty_world) ∪ list_to_set (map containerId containers)
    ∧ ∀ id container,
        db_Container empty_world !! id = Some container →
        db_Container w' !! id = Some container.
Proof.
  eexists _, _.
  eapply (registerRecover_containers example_env (Some [two_plastic]) "A" empty_world).
  vm_compute. reflexivity.
Defined.

Lemma request_released_witness :
  db_Container
    (call example_env 1 (Cancel "A")
       (registerTransferRequest example_env [0; 1] (Some "B") "A" recovered_world).2).2
  = db_Container recovered_world.
Proof.
  eapply (request_released example_env [0; 1] (Some "B") "A" (Cancel "A")
            recovered_world).
  - exact keyed_recovered_world.
  - exact keyed_containers_recovered_world.
  - exact referential_recovered_world.
  - intros u. discriminate.
  - vm_compute. reflexivity.
  - vm_compute. reflexivity.
Defined.


Lemma rollbackUserStockTo_restores_witness :
  ∃ currentStock r w',
    getUserStock "A" recovered_world = (Returned currentStock, recovered_world)
    ∧ r = Returned tt
    ∧ (∀ typeId amount,
         db_Stock recovered_world !! ("A", typeId) = Some amount →
         db_Stock w' !! ("A", typeId) = Some amount)
    ∧ (∀ u typeId,
         u ≠ "A" ∨ db_Stock recovered_world !! (u, typeId) = None →
         db_Stock w' !! (u, typeId)
         = db_Stock (registerTransferAccept example_env 1 "B" requested_world).2
             !! (u, typeId))
    ∧ rollbackUserStockTo None
        (registerTransferAccept example_env 1 "B" requested_world).2
      = (Returned tt, (registerTransferAccept example_env 1 "B" requested_world).2).
Proof.
  eexists _, _, _. split; [reflexivity|].
  eapply (rollbackUserStockTo_restores "A" recovered_world recovered_world
            (registerTransferAccept example_env 1 "B" requested_world).2).
  - reflexivity.
  - reflexivity.
Defined.

Lemma registerTransferRequest_compensates_witness :
  ∃ e w',
    registerTransferRequest refusing_env [0; 1] (Some "B") "A" recovered_world
    = (Thrown e, w')
    ∧ db_Container w' = db_Container recovered_world
    ∧ db_Transaction w' = db_Transaction recovered_world
    ∧ db_Stock w' = db_Stock recovered_world
    ∧ ∃ detail, e = Error (TransactionCouldNotBeRegistered detail).
Proof.
  eexists _, _. split; [vm_compute; reflexivity|].
  eapply (registerTransferRequest_compensates refusing_env [0; 1] (Some "B") "A"
            recovered_world).
  - exact keyed_containers_recovered_world.
  - vm_compute. reflexivity.
Defined.

Lemma terminal_compensates_witness :
  ∃ e w',
    call refusing_env 1 (Reject None "B") requested_world = (Thrown e, w')
    ∧ db_Transaction w' = db_Transaction requested_world
    ∧ db_Container w' = db_Container requested_world
    ∧ ∃ detail, e = Error (TransactionCouldNotBeRegistered detail).
Proof.
  eexists _, _. split; [vm_compute; reflexivity|].
  eapply (terminal_compensates refusing_env 1 (Reject None "B") requested_world).
  - exact keyed_requested_world.
  - exact keyed_containers_requested_world.
  - exact pending_requested_world.
  - vm_compute. reflexivity.
Defined.

Lemma registerTransferAccept_moves_stock_witness :
  ∃ e w' container,
    registerTransferAccept example_env 1 "B" requested_world = (Thrown e, w')
    ∧ db_Stock w'
      = db_Stock (addStock "B" (wasteTypeId (containerType container)) 1
                    (addStock "A" (wasteTypeId (containerType container)) (-1)
                       requested_world))
    ∧ stockOf requested_world "A" "plastic" = 2%Z
    ∧ stockOf w' "A" "plastic" = 1%Z
    ∧ stockOf w' "B" "plastic" = 1%Z.
Proof.
  destruct (registerTransferAccept_moves_stock example_env 1 "B" "A" requested_world
              (default (set_details [] (Build_Transaction 0 None None None 0 None None
                                          None None []))
                 (db_Transaction requested_world !! 1))
              (default (Build_Container 0 plastic RECOVERED "" 0)
                 (head (containers_of requested_world 1)))
              (tail (containers_of requested_world 1))) as (e & w' & H & Hstock).
  - vm_compute. reflexivity.
  - vm_compute. reflexivity.
  - vm_compute. reflexivity.
  - vm_compute. reflexivity.
  - vm_compute. reflexivity.
  - vm_compute. reflexivity.
  - intros t. reflexivity.
  - vm_compute. reflexivity.
  - exists e, w', (default (Build_Container 0 plastic RECOVERED "" 0)
                     (head (containers_of requested_world 1))).
    split; [exact H|]. split; [exact Hstock|].
    assert (w' = (registerTransferAccept example_env 1 "B" requested_world).2) as ->
      by (by rewrite H).
    split_and!; vm_compute; reflexivity.
Defined.


Lemma terminal_refused_witness :
  call example_env 1 (Accept "A") requested_world
  = (Thrown (Error (TransactionCouldNotBeRegistered NotAllowedToAcceptReject)),
     requested_world).
Proof.
  apply (terminal_refused example_env 1 (Accept "A") requested_world).
  - exact keyed_requested_world.
  - vm_compute. reflexivity.
Defined.

Lemma terminal_returns_witness :
  ∃ transaction w',
    call example_env 1 (Reject None "B") requested_world = (Returned transaction, w').
Proof.
  eapply (terminal_returns example_env 1 (Reject None "B") requested_world).
  - exact keyed_requested_world.
  - vm_compute. reflexivity.
  - vm_compute. reflexivity.
  - vm_compute. eexists. reflexivity.
  - intros user. discriminate.
  - intros t token. reflexivity.
  - intros d. reflexivity.
Defined.

Lemma registerTransferRequest_returns_witness :
  ∃ transaction w',
    registerTransferRequest example_env [0; 1] (Some "B") "A" recovered_world
    = (Returned transaction, w').
Proof.
  apply (registerTransferRequest_returns example_env [0; 1] "B" "A" recovered_world).
  - discriminate.
  - apply (bool_decide_unpack _). vm_compute. exact I.
  - apply (bool_decide_unpack _). vm_compute. exact I.
  - intros t. reflexivity.
  - intros d. reflexivity.
  - intros n. reflexivity.
Defined.

Lemma registerTransport_returns_witness :
  ∃ transaction w',
    registerTransport example_env [0; 1] (Some "RC") "A" recovered_world
    = (Returned transaction, w').
Proof.
  apply (registerTransport_returns example_env [0; 1] "RC" "A" recovered_world).
  - discriminate.
  - apply (bool_decide_unpack _). vm_compute. exact I.
  - repeat constructor; eexists; (split; [vm_compute; reflexivity|]);
      (split; [left; reflexivity|reflexivity]).
  - intros t. reflexivity.
  - intros d. reflexivity.
  - intros n. reflexivity.
Defined.


Lemma numbers_increase_witness :
  ∃ tx1 tx2 : Transaction, (transaction_number tx1 < transaction_number tx2)%Z.
Proof.
  eexists _, _.
  eapply (numbers_increase example_env
            (TransferRequest [0; 1] (Some "B") "A")
            (Terminal 1 (Reject None "B"))
            [Terminal 1 (Accept "B"); Terminal 7 (Cancel "A")]
            recovered_world).
  - exact keyed_recovered_world.
  - exact keyed_containers_recovered_world.
  - vm_compute. reflexivity.
  - vm_compute. reflexivity.
Defined.
